(** * Executioner: the task pipeline of [executioner/tasks.py]

    A shallow embedding of the tasks that manage processes, socket
    channels and structured extraction, and the properties of their
    effect on the shared environment [env].

    Every task's [run(self, env)] becomes a computation in the monad [M]:
    a function from the program state to an outcome (a value or a raised
    exception) and the state it leaves behind.  A raised exception keeps
    the mutations made before it, as in Python.  The state holds the
    environment dictionary and the objects it refers to (processes,
    sockets, [StringIO] buffers), which are shared by reference: the
    environment stores handles, the object store holds what they denote.
    Calls to [logging] leave no mark on the state and are not modelled. *)

From Stdlib Require Import ZArith String Ascii List Lia.
From stdpp Require Import gmap strings list fin_maps pretty.

Set Warnings "-register-all".

(** ** Python values *)

Inductive pipe_end := PipeIn | PipeOut | PipeErr.

#[export] Instance pipe_end_eq_dec : EqDecision pipe_end.
Proof. solve_decision. Defined.

(** The values an environment field can hold here: [None], booleans,
    integers, [str], lists, an [lxml] element (with its [.text]), and
    references to a [Popen] object, one of its pipes, a socket, the file
    object of [socket.makefile()], and a [StringIO]. *)
Inductive pyval : Type :=
  | PNone
  | PBool (b : bool)
  | PInt (z : Z)
  | PStr (s : string)
  | PList (l : list pyval)
  | PElem (text : option string)
  | PProcess (p : nat)
  | PPipe (p : nat) (e : pipe_end)
  | PSocket (s : nat)
  | PSockFile (s : nat)
  | PStringIO (b : nat).

Inductive exn :=
  | TaskError (msg : string)
  | KeyError (key : string)
  | NameError (name : string)
  | AttributeError
  | TypeError
  | ValueError
  | IOError
  | OSError
  | SocketError
  | SyntaxError.

Inductive outcome (A : Type) :=
  | Ok (a : A)
  | Raise (e : exn).
Arguments Ok {A} a.
Arguments Raise {A} e.

#[export] Instance outcome_ret : MRet outcome := λ A a, Ok a.
#[export] Instance outcome_bind : MBind outcome := λ A B f m,
  match m with Ok a => f a | Raise e => Raise e end.
#[export] Instance outcome_fmap : FMap outcome := λ A B f m,
  match m with Ok a => Ok (f a) | Raise e => Raise e end.

(** Python's [map(f, l)] for an [f] that may raise. *)
Fixpoint py_map {A B} (f : A → outcome B) (l : list A) : outcome (list B) :=
  match l with
  | [] => Ok []
  | x :: l' => y ← f x; ys ← py_map f l'; Ok (y :: ys)
  end.

(** [isinstance(v, str)] *)
Definition is_str (v : pyval) : bool :=
  match v with PStr _ => true | _ => false end.

(** [isinstance(v, list)] *)
Definition is_list (v : pyval) : bool :=
  match v with PList _ => true | _ => false end.

(** [v.text]: only elements have the attribute; an element without text
    gives [None]. *)
Definition attr_text (v : pyval) : outcome pyval :=
  match v with
  | PElem (Some s) => Ok (PStr s)
  | PElem None => Ok PNone
  | _ => Raise AttributeError
  end.

(** Truth value of an object ([not v] is its negation). *)
Definition truthy (v : pyval) : bool :=
  match v with
  | PNone => false
  | PBool b => b
  | PInt z => negb (z =? 0)%Z
  | PStr s => negb (String.eqb s "")
  | PList l => match l with [] => false | _ => true end
  | _ => true
  end.

(** [a == b]; objects compare by reference. *)
Fixpoint py_eq (a b : pyval) : bool :=
  match a, b with
  | PNone, PNone => true
  | PBool x, PBool y => Bool.eqb x y
  | PBool x, PInt y => (Z.b2z x =? y)%Z
  | PInt x, PBool y => (x =? Z.b2z y)%Z
  | PInt x, PInt y => (x =? y)%Z
  | PStr x, PStr y => String.eqb x y
  | PList x, PList y =>
      (fix go (x y : list pyval) : bool :=
         match x, y with
         | [], [] => true
         | u :: x', v :: y' => py_eq u v && go x' y'
         | _, _ => false
         end) x y
  | PElem x, PElem y => bool_decide (x = y)
  | PProcess x, PProcess y => (x =? y)%nat
  | PPipe x e, PPipe y f => (x =? y)%nat && bool_decide (e = f)
  | PSocket x, PSocket y => (x =? y)%nat
  | PSockFile x, PSockFile y => (x =? y)%nat
  | PStringIO x, PStringIO y => (x =? y)%nat
  | _, _ => false
  end.

(** [v in l] *)
Definition py_in (v : pyval) (l : list pyval) : bool := existsb (py_eq v) l.

(** ** The object store and the program state *)

(** A child process: its argument vector, the unread contents of its
    output and error pipes ([None] when the stream is not redirected),
    and the timeout handed to the monitor thread once that is started. *)
Record process := {
  argv : list string;
  stdout_pipe : option string;
  stderr_pipe : option string;
  monitor : option pyval
}.

(** A TCP socket: the bytes the peer has sent and that are not yet read
    (followed by end of stream), and whether it was shut down for writing
    and closed. *)
Record socket := {
  incoming : string;
  wr_shutdown : bool;
  closed : bool
}.

(** A [StringIO.StringIO]: its contents and its cursor. *)
Record stringio := {
  buf : string;
  pos : nat
}.

(** Calls that leave the Python process. *)
Inductive event :=
  | EvSpawn (p : nat)
  | EvMonitor (p : nat) (timeout : pyval)
  | EvWait (p : nat)
  | EvConnect (s : nat) (server : string) (port : Z)
  | EvShutdown (s : nat) (how : Z)
  | EvClose (s : nat)
  | EvReadline (s : nat).

Record state := {
  env : gmap string pyval;
  procs : list process;
  socks : list socket;
  bufs : list stringio;
  files : gmap string string;
  trace : list event
}.

Definition with_env (f : gmap string pyval → gmap string pyval) (st : state) : state :=
  {| env := f (env st); procs := procs st; socks := socks st;
     bufs := bufs st; files := files st; trace := trace st |}.

Definition with_procs (f : list process → list process) (st : state) : state :=
  {| env := env st; procs := f (procs st); socks := socks st;
     bufs := bufs st; files := files st; trace := trace st |}.

Definition with_socks (f : list socket → list socket) (st : state) : state :=
  {| env := env st; procs := procs st; socks := f (socks st);
     bufs := bufs st; files := files st; trace := trace st |}.

Definition with_bufs (f : list stringio → list stringio) (st : state) : state :=
  {| env := env st; procs := procs st; socks := socks st;
     bufs := f (bufs st); files := files st; trace := trace st |}.

Definition log_event (e : event) (st : state) : state :=
  {| env := env st; procs := procs st; socks := socks st;
     bufs := bufs st; files := files st; trace := trace st ++ [e] |}.

(** ** The monad of task bodies *)

Definition M (A : Type) : Type := state → outcome A * state.

#[export] Instance M_ret : MRet M := λ A a st, (Ok a, st).
#[export] Instance M_bind : MBind M := λ A B f m st,
  match m st with
  | (Ok a, st') => f a st'
  | (Raise e, st') => (Raise e, st')
  end.

Definition raise {A} (e : exn) : M A := λ st, (Raise e, st).
Definition lift {A} (o : outcome A) : M A := λ st, (o, st).
Definition get_state : M state := λ st, (Ok st, st).
Definition modify (f : state → state) : M unit := λ st, (Ok tt, f st).

(** [for x in l: body(x)] *)
Fixpoint for_each {A} (l : list A) (body : A → M unit) : M unit :=
  match l with
  | [] => mret tt
  | x :: l' => body x;; for_each l' body
  end.

(** [key in env], [env[key]], [env[key] = v], [del env[key]] *)
Definition contains (key : string) : M bool :=
  λ st, (Ok (bool_decide (is_Some (env st !! key))), st).

Definition getitem (key : string) : M pyval :=
  λ st, match env st !! key with
        | Some v => (Ok v, st)
        | None => (Raise (KeyError key), st)
        end.

Definition setitem (key : string) (v : pyval) : M unit :=
  modify (with_env <[key := v]>).

Definition delitem (key : string) : M unit :=
  λ st, match env st !! key with
        | Some _ => (Ok tt, with_env (delete key) st)
        | None => (Raise (KeyError key), st)
        end.

(** [open(path).read()] *)
Definition read_file (path : string) : M string :=
  λ st, match files st !! path with
        | Some content => (Ok content, st)
        | None => (Raise IOError, st)
        end.

(** ** Strings *)

Definition newline : ascii := "010"%char.

(** The characters [str.strip()] removes. *)
Definition is_space (c : ascii) : bool :=
  let n := nat_of_ascii c in ((9 <=? n) && (n <=? 13) || (n =? 32))%nat.

Fixpoint lstrip (s : string) : string :=
  match s with
  | String c s' => if is_space c then lstrip s' else s
  | EmptyString => EmptyString
  end.

Fixpoint rstrip (s : string) : string :=
  match s with
  | String c s' =>
      let r := rstrip s' in
      if is_space c && String.eqb r "" then EmptyString else String c r
  | EmptyString => EmptyString
  end.

Definition strip (s : string) : string := rstrip (lstrip s).

(** [s.endswith(suffix)] *)
Definition endswith (s suffix : string) : bool :=
  let n := String.length s in
  let m := String.length suffix in
  (m <=? n)%nat && String.eqb (substring (n - m) m s) suffix.

(** [s.split(sep)] for a one-character separator. *)
Fixpoint split_on (sep : ascii) (s : string) : list string :=
  match s with
  | EmptyString => [EmptyString]
  | String c s' =>
      if Ascii.eqb c sep then EmptyString :: split_on sep s'
      else match split_on sep s' with
           | w :: ws => String c w :: ws
           | [] => [String c EmptyString]
           end
  end.

(** [c in s] for a character [c]. *)
Fixpoint has_char (c : ascii) (s : string) : bool :=
  match s with
  | EmptyString => false
  | String d s' => Ascii.eqb c d || has_char c s'
  end.

(** The first line of [s], with its newline when there is one, and the
    rest: what [readline()] returns and what it leaves unread. *)
Fixpoint take_line (s : string) : string * string :=
  match s with
  | EmptyString => (EmptyString, EmptyString)
  | String c s' =>
      if Ascii.eqb c newline then (String c EmptyString, s')
      else let '(l, r) := take_line s' in (String c l, r)
  end.

Fixpoint zeros (n : nat) : string :=
  match n with
  | O => EmptyString
  | S n' => String zero (zeros n')
  end.

(** ** Collaborators outside this module

    The builtins, the standard library, the operating system, the
    network and [utils], which [tasks.py] calls and does not define. *)
Class External := {
  (** [str(v)] and [int(v)] *)
  py_str : pyval → string;
  py_int : pyval → outcome Z;
  (** [eval(expr, {"row": row})] *)
  py_eval : string → gmap string pyval → outcome pyval;
  (** [utils.substitute(text, env)] *)
  utils_substitute : pyval → gmap string pyval → outcome string;
  (** [shlex.split(command)] *)
  shlex_split : string → outcome (list string);
  (** starting a program: it cannot be started, or it will write the
      given output and error text *)
  os_popen : list string → outcome (string * string);
  (** the code with which a process terminates *)
  os_returncode : process → Z;
  (** connecting to [server:port]: refused, or the peer sends the given
      bytes and closes *)
  net_connect : string → Z → outcome string;
  (** [etree.parse] of a file's content, and [tree.xpath(xpath)] *)
  xml_doc : Type;
  etree_parse : string → outcome xml_doc;
  etree_xpath : xml_doc → string → outcome (list pyval);
  (** [json.load] of a file's content, and the [.value]s of
      [parse(xpath).find(content)] *)
  json_doc : Type;
  json_load : string → outcome json_doc;
  jsonpath_find : string → json_doc → outcome (list pyval);
  (** the rows of [csv.DictReader(f, **kwargs)], each as its items *)
  csv_DictReader : string → list (string * pyval) → outcome (list (list (pyval * pyval)))
}.

(** ** Methods of the objects in the store

    A handle that denotes no object of the store does not occur in a
    state built by the tasks; the methods raise [ValueError] on one. *)

(** [process.wait()] *)
Definition Popen_wait `{!External} (v : pyval) : M Z :=
  λ st, match v with
        | PProcess p =>
            match procs st !! p with
            | Some pr => (Ok (os_returncode pr), log_event (EvWait p) st)
            | None => (Raise ValueError, st)
            end
        | _ => (Raise AttributeError, st)
        end.

(** [subprocess.Popen(args, stdin=PIPE, stdout=..., stderr=...)] *)
Definition Popen `{!External} (args : list string) (pipe_out pipe_err : bool) : M nat :=
  λ st, match os_popen args with
        | Ok (out, err) =>
            let p := length (procs st) in
            let pr := {| argv := args;
                         stdout_pipe := if pipe_out then Some out else None;
                         stderr_pipe := if pipe_err then Some err else None;
                         monitor := None |} in
            (Ok p, log_event (EvSpawn p) (with_procs (λ ps, ps ++ [pr]) st))
        | Raise e => (Raise e, st)
        end.

(** [Thread(target=utils.process_monitor, args=(process,),
    kwargs={"timeout": timeout}).start()] *)
Definition start_monitor (p : nat) (timeout : pyval) : M unit :=
  modify (λ st,
    log_event (EvMonitor p timeout)
      (with_procs (alter (λ pr, {| argv := argv pr; stdout_pipe := stdout_pipe pr;
                                   stderr_pipe := stderr_pipe pr;
                                   monitor := Some timeout |}) p) st)).

(** [StringIO.write(s)]: at the end it appends; before the end it
    overwrites; past the end it pads with null characters first. *)
Definition StringIO_write (s : string) (b : stringio) : stringio :=
  if String.eqb s "" then b
  else
    let spos := pos b in
    let slen := String.length (buf b) in
    if (spos =? slen)%nat then
      {| buf := buf b +:+ s; pos := spos + String.length s |}
    else
      let padded := if (slen <? spos)%nat then buf b +:+ zeros (spos - slen) else buf b in
      let newpos := spos + String.length s in
      {| buf := substring 0 spos padded +:+ s
                +:+ substring newpos (String.length padded - newpos) padded;
         pos := newpos |}.

(** [f.tell()] *)
Definition file_tell (f : pyval) : M nat :=
  λ st, match f with
        | PStringIO b =>
            match bufs st !! b with
            | Some sb => (Ok (pos sb), st)
            | None => (Raise ValueError, st)
            end
        | PPipe _ _ => (Raise IOError, st)
        | _ => (Raise AttributeError, st)
        end.

(** [f.seek(0, os.SEEK_END)] *)
Definition file_seek_end (f : pyval) : M unit :=
  λ st, match f with
        | PStringIO b =>
            match bufs st !! b with
            | Some sb =>
                (Ok tt, with_bufs <[b := {| buf := buf sb; pos := String.length (buf sb) |}]> st)
            | None => (Raise ValueError, st)
            end
        | PPipe _ _ => (Raise IOError, st)
        | _ => (Raise AttributeError, st)
        end.

(** [f.seek(p)] *)
Definition file_seek (f : pyval) (p : nat) : M unit :=
  λ st, match f with
        | PStringIO b =>
            match bufs st !! b with
            | Some sb => (Ok tt, with_bufs <[b := {| buf := buf sb; pos := p |}]> st)
            | None => (Raise ValueError, st)
            end
        | PPipe _ _ => (Raise IOError, st)
        | _ => (Raise AttributeError, st)
        end.

(** [f.write(s)] *)
Definition file_write (f : pyval) (s : string) : M unit :=
  λ st, match f with
        | PStringIO b =>
            match bufs st !! b with
            | Some sb => (Ok tt, with_bufs <[b := StringIO_write s sb]> st)
            | None => (Raise ValueError, st)
            end
        | PPipe _ _ => (Raise IOError, st)
        | _ => (Raise AttributeError, st)
        end.

(** [f.readline()]: the next line of the unread data, the unterminated
    rest at the end of the stream, and the empty string after it.  The
    file object of a socket keeps reading after the socket object was
    closed. *)
Definition file_readline (f : pyval) : M string :=
  λ st, match f with
        | PSockFile s =>
            match socks st !! s with
            | Some sk =>
                let '(line, rest) := take_line (incoming sk) in
                (Ok line,
                 log_event (EvReadline s)
                   (with_socks <[s := {| incoming := rest; wr_shutdown := wr_shutdown sk;
                                         closed := closed sk |}]> st))
            | None => (Raise ValueError, st)
            end
        | PStringIO b =>
            match bufs st !! b with
            | Some sb =>
                let n := String.length (buf sb) in
                let '(line, _) := take_line (substring (pos sb) (n - pos sb) (buf sb)) in
                let newpos := if has_char newline line
                              then pos sb + String.length line else n in
                (Ok line, with_bufs <[b := {| buf := buf sb; pos := newpos |}]> st)
            | None => (Raise ValueError, st)
            end
        | PPipe p e =>
            match procs st !! p with
            | Some pr =>
                match e, stdout_pipe pr, stderr_pipe pr with
                | PipeOut, Some data, _ =>
                    let '(line, rest) := take_line data in
                    (Ok line,
                     with_procs <[p := {| argv := argv pr; stdout_pipe := Some rest;
                                          stderr_pipe := stderr_pipe pr;
                                          monitor := monitor pr |}]> st)
                | PipeErr, _, Some data =>
                    let '(line, rest) := take_line data in
                    (Ok line,
                     with_procs <[p := {| argv := argv pr; stdout_pipe := stdout_pipe pr;
                                          stderr_pipe := Some rest;
                                          monitor := monitor pr |}]> st)
                | _, _, _ => (Raise IOError, st)
                end
            | None => (Raise ValueError, st)
            end
        | _ => (Raise AttributeError, st)
        end.

(** [s.shutdown(how)] *)
Definition socket_shutdown (v : pyval) (how : Z) : M unit :=
  λ st, match v with
        | PSocket s =>
            match socks st !! s with
            | Some sk =>
                if closed sk then (Raise SocketError, st)
                else (Ok tt,
                      log_event (EvShutdown s how)
                        (with_socks <[s := {| incoming := incoming sk;
                                              wr_shutdown := wr_shutdown sk
                                                             || bool_decide (how ≠ 0%Z);
                                              closed := false |}]> st))
            | None => (Raise ValueError, st)
            end
        | _ => (Raise AttributeError, st)
        end.

(** [s.close()] *)
Definition socket_close (v : pyval) : M unit :=
  λ st, match v with
        | PSocket s =>
            match socks st !! s with
            | Some sk =>
                (Ok tt,
                 log_event (EvClose s)
                   (with_socks <[s := {| incoming := incoming sk;
                                         wr_shutdown := wr_shutdown sk;
                                         closed := true |}]> st))
            | None => (Raise ValueError, st)
            end
        | _ => (Raise AttributeError, st)
        end.

(** [s = socket.socket(AF_INET, SOCK_STREAM); s.connect((server, port))] *)
Definition socket_connect `{!External} (server : string) (port : Z) : M nat :=
  λ st, match net_connect server port with
        | Ok data =>
            let s := length (socks st) in
            (Ok s,
             log_event (EvConnect s server port)
               (with_socks (λ ss, ss ++ [{| incoming := data; wr_shutdown := false;
                                            closed := false |}]) st))
        | Raise e => (Raise e, st)
        end.

(** [StringIO()] *)
Definition StringIO_new : M nat :=
  λ st, (Ok (length (bufs st)),
         with_bufs (λ bs, bs ++ [{| buf := EmptyString; pos := 0 |}]) st).

(** ** The tasks *)

(** A conversion function handed to [get]: any callable on one value. *)
Definition conversion_fn : Type := pyval → outcome pyval.

(** [value if isinstance(value, str) else value.text] *)
Definition text_of (value : pyval) : outcome pyval :=
  if is_str value then Ok value else attr_text value.

(** The two branches that store the matches of a query: one match is
    stored converted, any other number as the list of the converted
    matches.
<<
    if len(values) == 1:
        env[key] = conversion(values[0] if isinstance(values[0], str) else values[0].text)
    else:
        env[key] = map(conversion, [value if isinstance(value, str) else value.text for value in values])
>> *)
Definition store_matches (key : string) (conversion : conversion_fn)
    (values : list pyval) : M unit :=
  match values with
  | [value] =>
      x ← lift (text ← text_of value; conversion text);
      setitem key x
  | _ =>
      xs ← lift (texts ← py_map text_of values; py_map conversion texts);
      setitem key (PList xs)
  end.

Module Execute.
Record t := {
  command : string;
  timeout : pyval;
  ignore_stdout : bool;
  ignore_stderr : bool
}.

Definition init (command : string) : t :=
  {| command := command; timeout := PNone;
     ignore_stdout := false; ignore_stderr := false |}.

Definition run `{!External} (self : t) : M unit :=
  st ← get_state;
  command ← lift (utils_substitute (PStr (command self)) (env st));
  args ← lift (shlex_split command);
  process ← Popen args (negb (ignore_stdout self)) (negb (ignore_stderr self));
  setitem "PROCESS" (PProcess process);;
  setitem "STDIN" (PPipe process PipeIn);;
  (if negb (ignore_stdout self)
   then setitem "STDOUT" (PPipe process PipeOut) else mret tt);;
  (if negb (ignore_stderr self)
   then setitem "STDERR" (PPipe process PipeErr) else mret tt);;
  start_monitor process (timeout self).
End Execute.

Module CheckExitCode.
Record t := { ok : list pyval }.

Definition init (ok : pyval) : t :=
  if negb (is_list ok) then {| ok := [ok] |}
  else match ok with
       | PList l => {| ok := l |}
       | _ => {| ok := [ok] |}
       end.

(** [CheckExitCode()], with the default [ok=0]. *)
Definition default : t := init (PInt 0).

Definition run `{!External} (self : t) : M unit :=
  present ← contains "PROCESS";
  if negb present then
    raise (TaskError "PROCESS not set, call Execute before CheckExitCode")
  else
    process ← getitem "PROCESS";
    code ← Popen_wait process;
    setitem "EXIT_CODE" (PInt code);;
    exit_code ← getitem "EXIT_CODE";
    if negb (py_in exit_code (ok self)) then
      raise (TaskError ("Execute failed, expected exit code "
                        +:+ py_str (PList (ok self))
                        +:+ ", received " +:+ py_str exit_code))
    else mret tt.
End CheckExitCode.

Module Return.
Record t := { fields : list string }.

Definition run (self : t) : M unit :=
  st ← get_state;
  let unwanted : gset string := dom (env st) ∖ list_to_set (fields self) in
  for_each (elements unwanted) delitem.
End Return.

Module ParseXML.
Record t := {
  file : string;
  fields : list (string * string * conversion_fn)
}.

Definition init (file : string) : t := {| file := file; fields := [] |}.

Definition get (xpath key : string) (conversion : conversion_fn) (self : t) : t :=
  {| file := file self; fields := fields self ++ [(xpath, key, conversion)] |}.

Definition run `{!External} (self : t) : M unit :=
  content ← read_file (file self);
  tree ← lift (etree_parse content);
  for_each (fields self) (λ '(xpath, key, conversion),
    values ← lift (etree_xpath tree xpath);
    store_matches key conversion values).
End ParseXML.

Module ParseJSON.
Record t := {
  file : string;
  fields : list (string * string * conversion_fn)
}.

Definition init (file : string) : t := {| file := file; fields := [] |}.

Definition get (xpath key : string) (conversion : conversion_fn) (self : t) : t :=
  {| file := file self; fields := fields self ++ [(xpath, key, conversion)] |}.

(** The body of the loop over the bindings, from the values found. *)
Definition store (key : string) (conversion : conversion_fn)
    (values : list pyval) : M unit :=
  match values with
  | [value] =>
      match value with
      | PList items =>
          xs ← lift (py_map conversion items);
          setitem key (PList xs)
      | _ =>
          x ← lift (conversion value);
          setitem key x
      end
  | _ =>
      xs ← lift (py_map conversion values);
      setitem key (PList xs)
  end.

Definition run `{!External} (self : t) : M unit :=
  f ← read_file (file self);
  content ← lift (json_load f);
  for_each (fields self) (λ '(xpath, key, conversion),
    values ← lift (jsonpath_find xpath content);
    store key conversion values).
End ParseJSON.

Module ParseCSV.
Record t := {
  file : string;
  kwargs : list (string * pyval);
  fields : list (string * string * conversion_fn)
}.

Definition init (file : string) (kwargs : list (string * pyval)) : t :=
  {| file := file; kwargs := kwargs; fields := [] |}.

Definition get (expr key : string) (conversion : conversion_fn) (self : t) : t :=
  {| file := file self; kwargs := kwargs self;
     fields := fields self ++ [(expr, key, conversion)] |}.

(** The local variables of [run] that outlive the loop over the rows:
    the dictionary [results] and the loop variable [conversion], unbound
    until the loop over the bindings has started once.  [results] is kept
    as the list of its items, in the order in which the keys were first
    set, and iterated in that order; its keys are distinct, so the order
    of iteration matters only to a run that raises. *)
Record locals := {
  results : list (string * list pyval);
  conversion : option conversion_fn
}.

(** [key.strip()] *)
Definition method_strip (v : pyval) : outcome string :=
  match v with
  | PStr s => Ok (strip s)
  | _ => Raise AttributeError
  end.

(** [for key,value in row.iteritems(): cleanup_row[key.strip()] = ...] *)
Fixpoint cleanup (items : list (pyval * pyval)) (cleanup_row : gmap string pyval)
    : outcome (gmap string pyval) :=
  match items with
  | [] => Ok cleanup_row
  | (key, value) :: items' =>
      let v := match value with PStr s => PStr (strip s) | _ => value end in
      k ← method_strip key;
      cleanup items' (<[k := v]> cleanup_row)
  end.

(** [results[key] = [result]] for a new key, [results[key].append(result)]
    for one that is there. *)
Fixpoint add_result (key : string) (result : pyval)
    (results : list (string * list pyval)) : list (string * list pyval) :=
  match results with
  | [] => [(key, [result])]
  | (k, values) :: rest =>
      if String.eqb k key then (k, values ++ [result]) :: rest
      else (k, values) :: add_result key result rest
  end.

(** The body of [for (expr,key,conversion) in self.fields]. *)
Definition eval_binding `{!External} (cleanup_row : gmap string pyval)
    (l : locals) (binding : string * string * conversion_fn) : outcome locals :=
  let '(expr, key, conversion) := binding in
  let expr := if negb (endswith expr " else None")
              then expr +:+ " else None" else expr in
  result ← py_eval expr cleanup_row;
  Ok {| results := match result with
                   | PNone => results l
                   | _ => add_result key result (results l)
                   end;
        conversion := Some conversion |}.

Fixpoint eval_bindings `{!External} (cleanup_row : gmap string pyval)
    (bindings : list (string * string * conversion_fn)) (l : locals)
    : outcome locals :=
  match bindings with
  | [] => Ok l
  | b :: bindings' =>
      l' ← eval_binding cleanup_row l b;
      eval_bindings cleanup_row bindings' l'
  end.

(** [for row in reader], on the rows read in advance: the loop changes
    nothing but its local variables. *)
Fixpoint scan `{!External} (rows : list (list (pyval * pyval)))
    (bindings : list (string * string * conversion_fn)) (l : locals)
    : outcome locals :=
  match rows with
  | [] => Ok l
  | row :: rows' =>
      cleanup_row ← cleanup row ∅;
      l' ← eval_bindings cleanup_row bindings l;
      scan rows' bindings l'
  end.

(** The body of [for key,values in results.iteritems()]: the name
    [conversion] is looked up when the call is evaluated. *)
Definition collapse (l : locals) (entry : string * list pyval) : M unit :=
  let '(key, values) := entry in
  match conversion l with
  | Some conversion => store_matches key conversion values
  | None => raise (NameError "conversion")
  end.

Definition run `{!External} (self : t) : M unit :=
  f ← read_file (file self);
  reader ← lift (csv_DictReader f (kwargs self));
  l ← lift (scan reader (fields self) {| results := []; conversion := None |});
  for_each (results l) (collapse l).
End ParseCSV.

Module Connect.
Record t := {
  server : pyval;
  port : pyval
}.

(** [":" in address] *)
Definition has_colon (address : pyval) : outcome bool :=
  match address with
  | PStr s => Ok (has_char ":" s)
  | PList l => Ok (py_in (PStr ":") l)
  | _ => Raise TypeError
  end.

(** [address.split(":")] *)
Definition method_split (address : pyval) : outcome (list string) :=
  match address with
  | PStr s => Ok (split_on ":" s)
  | _ => Raise AttributeError
  end.

Definition init (address server port : pyval) : outcome t :=
  if negb (truthy address) && (negb (truthy server) || negb (truthy port)) then
    Raise (TaskError "Connect must define an address or (server, port) pair")
  else if truthy address then
    colon ← has_colon address;
    if negb colon then Raise (TaskError "Address missing port number")
    else
      parts ← method_split address;
      match parts with
      | [server; port] => Ok {| server := PStr server; port := PStr port |}
      | _ => Raise ValueError
      end
  else Ok {| server := server; port := port |}.

Definition run `{!External} (self : t) : M unit :=
  present ← contains "SOCKET";
  if (present : bool) then
    raise (TaskError "SOCKET already defined, close prior connection first")
  else
    st ← get_state;
    server ← lift (utils_substitute (server self) (env st));
    port ← (if is_str (port self)
            then lift (PStr <$> utils_substitute (port self) (env st))
            else mret (port self));
    port ← lift (py_int port);
    s ← socket_connect server port;
    setitem "SOCKET" (PSocket s);;
    setitem "SOCKET_FILE" (PSockFile s);;
    b ← StringIO_new;
    setitem "STDOUT" (PStringIO b).
End Connect.

Module Receive.
Record t := {
  name : string;
  numlines : Z
}.

(** [Receive()], with the defaults [name="STDOUT", numlines=1]. *)
Definition default : t := {| name := "STDOUT"; numlines := 1 |}.

(** [range(n)] *)
Definition range (n : Z) : list nat := seq 0 (Z.to_nat n).

Definition run (self : t) : M unit :=
  present ← contains "SOCKET";
  if negb present then
    raise (TaskError "SOCKET not defined, call Connect first")
  else
    stdout ← getitem "STDOUT";
    s ← getitem "SOCKET_FILE";
    pos ← file_tell stdout;
    file_seek_end stdout;;
    for_each (range (numlines self)) (λ i,
      line ← file_readline s;
      file_write stdout line);;
    file_seek stdout pos.
End Receive.

Module Disconnect.
Definition run : M unit :=
  present ← contains "SOCKET";
  if negb present then mret tt
  else
    s ← getitem "SOCKET";
    socket_shutdown s 1;;
    socket_close s;;
    delitem "SOCKET".
End Disconnect.

(** ** Vocabulary of the properties *)

(** What [n] successive calls of [readline()] return on the unread data
    [data], and what they leave unread. *)
Fixpoint read_lines (n : nat) (data : string) : list string * string :=
  match n with
  | O => ([], data)
  | S n' =>
      let '(line, rest) := take_line data in
      let '(lines, rest') := read_lines n' rest in
      (line :: lines, rest')
  end.

(** The concatenation of a list of strings. *)
Definition join (lines : list string) : string := foldr String.append EmptyString lines.

(** A newline-terminated line: text without newline, then a newline. *)
Definition is_line (l : string) : Prop :=
  ∃ body, has_char newline body = false ∧ l = body +:+ String newline EmptyString.

(** The number of newline characters of [s]: how many complete lines it
    holds. *)
Fixpoint count_newlines (s : string) : nat :=
  match s with
  | EmptyString => 0
  | String c s' => (if Ascii.eqb c newline then 1 else 0) + count_newlines s'
  end.

(** The state after [n] lines were read from socket [s], whose record
    was [sk], and appended to buffer [b], whose record was [sb], with the
    cursor of the buffer left at [cursor]. *)
Definition received (b s : nat) (sb : stringio) (sk : socket) (n cursor : nat)
    (st : state) : state :=
  {| env := env st;
     procs := procs st;
     socks := <[s := {| incoming := (read_lines n (incoming sk)).2;
                        wr_shutdown := wr_shutdown sk;
                        closed := closed sk |}]> (socks st);
     bufs := <[b := {| buf := buf sb +:+ join (read_lines n (incoming sk)).1;
                       pos := cursor |}]> (bufs st);
     files := files st;
     trace := trace st ++ replicate n (EvReadline s) |}.

(** The collapse rule, on the values handed to the conversion: one value
    gives the field the converted value, any other number of values
    gives it the list of the converted values. *)
Definition collapsed (conversion : conversion_fn) (values : list pyval)
    (field : option pyval) : Prop :=
  match values with
  | [value] => ∃ x, conversion value = Ok x ∧ field = Some x
  | _ => ∃ xs, py_map conversion values = Ok xs ∧ field = Some (PList xs)
  end.

(** The value that [store_matches] computes for a field. *)
Definition stored_value (conversion : conversion_fn) (values : list pyval)
    : outcome pyval :=
  match values with
  | [value] => text ← text_of value; conversion text
  | _ => texts ← py_map text_of values; PList <$> py_map conversion texts
  end.

(** The value that [ParseJSON.store] computes for a field. *)
Definition json_stored_value (conversion : conversion_fn) (values : list pyval)
    : outcome pyval :=
  match values with
  | [PList items] => PList <$> py_map conversion items
  | [value] => conversion value
  | _ => PList <$> py_map conversion values
  end.

(** The keys of a list of query bindings. *)
Definition binding_keys (bindings : list (string * string * conversion_fn))
    : list string :=
  (λ b, b.1.2) <$> bindings.

(** The expression that is evaluated for a row-filter query. *)
Definition query (expr : string) : string :=
  if negb (endswith expr " else None") then expr +:+ " else None" else expr.

(** What the row-filter queries bound to [key] yield on one cleaned row,
    in the order of the bindings, and over all rows, in the order of the
    rows: the results that are not [None]. *)
Definition binding_matches `{!External} (row : gmap string pyval) (key : string)
    (bindings : list (string * string * conversion_fn)) : list pyval :=
  flat_map (λ b : string * string * conversion_fn,
              if String.eqb b.1.2 key then
                match py_eval (query b.1.1) row with
                | Ok PNone => []
                | Ok result => [result]
                | Raise _ => []
                end
              else []) bindings.

Definition row_matches `{!External} (rows : list (gmap string pyval)) (key : string)
    (bindings : list (string * string * conversion_fn)) : list pyval :=
  flat_map (λ row, binding_matches row key bindings) rows.

(** [results[key]], and the empty list for a key that is not there. *)
Fixpoint result_of (key : string) (results : list (string * list pyval))
    : list pyval :=
  match results with
  | [] => []
  | (k, values) :: rest => if String.eqb k key then values else result_of key rest
  end.

(** ** A concrete setting

    Collaborators that can be run, for the examples: programs that
    produce no output, a peer that sends one line and closes, a reader of
    comma-separated text, and documents given by the table of their
    queries. *)
Module Demo.
Definition nl : string := String newline EmptyString.
Definition dq : string := String (ascii_of_nat 34) EmptyString.

Fixpoint digits (s : string) (acc : Z) : outcome Z :=
  match s with
  | EmptyString => Ok acc
  | String c s' =>
      let n := nat_of_ascii c in
      if ((48 <=? n) && (n <=? 57))%nat
      then digits s' (10 * acc + Z.of_nat (n - 48))%Z
      else Raise ValueError
  end.

(** [int] on integers, booleans and strings of digits. *)
Definition int (v : pyval) : outcome Z :=
  match v with
  | PInt z => Ok z
  | PBool b => Ok (Z.b2z b)
  | PStr EmptyString => Raise ValueError
  | PStr s => digits s 0
  | _ => Raise TypeError
  end.

(** [str] on the values whose text does not depend on an address. *)
Definition str (v : pyval) : string :=
  match v with
  | PNone => "None"
  | PBool true => "True"
  | PBool false => "False"
  | PInt z => pretty z
  | PStr s => s
  | PList [] => "[]"
  | PList [PInt z] => "[" +:+ pretty z +:+ "]"
  | _ => "<object>"
  end.

(** The row-filter queries [row['x'] if row['y']=='z'] that the
    evaluator knows, as triples [(x, y, z)]. *)
Definition queries : list (string * string * string) :=
  [("a", "b", "yes"); ("a", "b", "maybe"); ("b", "b", "no")].

Definition query_text (q : string * string * string) : string :=
  "row['" +:+ q.1.1 +:+ "'] if row['" +:+ q.1.2 +:+ "']=='" +:+ q.2 +:+ "'".

Definition eval (expr : string) (row : gmap string pyval) : outcome pyval :=
  match find (λ q, String.eqb expr (query_text q +:+ " else None")) queries with
  | Some (x, y, z) =>
      match row !! y with
      | Some v =>
          if py_eq v (PStr z) then
            match row !! x with
            | Some result => Ok result
            | None => Raise (KeyError x)
            end
          else Ok PNone
      | None => Raise (KeyError y)
      end
  | None => Raise SyntaxError
  end.

Definition substitute (text : pyval) (env : gmap string pyval) : outcome string :=
  match text with
  | PStr s => Ok s
  | _ => Raise TypeError
  end.

Definition popen (args : list string) : outcome (string * string) :=
  match args with
  | [] => Raise OSError
  | _ => Ok (EmptyString, EmptyString)
  end.

Definition returncode (pr : process) : Z :=
  match argv pr with
  | ["false"] => 1
  | _ => 0
  end.

(** The tables of two documents: the matches of each query. *)
Definition xml_text : string := "<r><v>1</v><v>2</v><w>3</w></r>".
Definition xml_table : list (string * list pyval) :=
  [("//v", [PElem (Some "1"); PElem (Some "2")]);
   ("//w", [PElem (Some "3")]);
   ("//w/text()", [PStr "3"])].

Definition json_text : string :=
  "{" +:+ dq +:+ "flags" +:+ dq +:+ ": [0, 0], "
      +:+ dq +:+ "n" +:+ dq +:+ ": 3}".
Definition json_table : list (string * list pyval) :=
  [("$.flags", [PList [PInt 0; PInt 0]]);
   ("$.flags[*]", [PInt 0; PInt 0]);
   ("$.n", [PInt 3])].

Definition parse (text : string) (table : list (string * list pyval))
    (content : string) : outcome (list (string * list pyval)) :=
  if String.eqb content text then Ok table else Raise ValueError.

Definition find_matches (table : list (string * list pyval)) (path : string)
    : list pyval :=
  match find (λ e, String.eqb e.1 path) table with
  | Some e => e.2
  | None => []
  end.

(** Comma-separated text without quoting: the first line names the
    columns. *)
Definition csv_rows (content : string) (kwargs : list (string * pyval))
    : outcome (list (list (pyval * pyval))) :=
  match filter (λ line, line ≠ EmptyString) (split_on newline content) with
  | [] => Ok []
  | header :: lines =>
      Ok ((λ line, zip (PStr <$> split_on "," header)
                       (PStr <$> split_on "," line)) <$> lines)
  end.

#[export] Instance external : External := {|
  py_str := str;
  py_int := int;
  py_eval := eval;
  utils_substitute := substitute;
  shlex_split := λ command, Ok (String.words command);
  os_popen := popen;
  os_returncode := returncode;
  net_connect := λ server port, Ok ("ok" +:+ nl);
  xml_doc := list (string * list pyval);
  etree_parse := parse xml_text xml_table;
  etree_xpath := λ tree xpath, Ok (find_matches tree xpath);
  json_doc := list (string * list pyval);
  json_load := parse json_text json_table;
  jsonpath_find := λ xpath content, Ok (find_matches content xpath);
  csv_DictReader := csv_rows
|}.

(** The conversions [str], [int] and [bool]. *)
Definition conv_str : conversion_fn := λ v, Ok (PStr (str v)).
Definition conv_int : conversion_fn := λ v, PInt <$> int v.
Definition conv_bool : conversion_fn := λ v, Ok (PBool (truthy v)).

Definition csv_text : string :=
  "a,b" +:+ nl +:+ "1,yes" +:+ nl +:+ "2,no" +:+ nl +:+ "3,yes" +:+ nl.

(** A fresh pipeline: one seeded field, the three result files of a
    program, no object yet. *)
Definition start : state :=
  {| env := {[ "x" := PStr "42" ]};
     procs := [];
     socks := [];
     bufs := [];
     files := {[ "out.xml" := xml_text; "out.json" := json_text;
                 "out.csv" := csv_text ]};
     trace := [] |}.

(** The state after [Connect("localhost:8000")]. *)
Definition connected : state :=
  {| env := {[ "x" := PStr "42"; "SOCKET" := PSocket 0;
               "SOCKET_FILE" := PSockFile 0; "STDOUT" := PStringIO 0 ]};
     procs := [];
     socks := [{| incoming := "ok" +:+ nl; wr_shutdown := false; closed := false |}];
     bufs := [{| buf := EmptyString; pos := 0 |}];
     files := files start;
     trace := [EvConnect 0 "localhost" 8000] |}.

(** The state after [Execute("false")]. *)
Definition executed : state :=
  {| env := {[ "x" := PStr "42"; "PROCESS" := PProcess 0;
               "STDIN" := PPipe 0 PipeIn; "STDOUT" := PPipe 0 PipeOut;
               "STDERR" := PPipe 0 PipeErr ]};
     procs := [{| argv := ["false"]; stdout_pipe := Some EmptyString;
                  stderr_pipe := Some EmptyString; monitor := Some PNone |}];
     socks := [];
     bufs := [];
     files := files start;
     trace := [EvSpawn 0; EvMonitor 0 PNone] |}.

(** [ParseXML("out.xml").get("//v", "vs", int).get("//w", "w", int)] *)
Definition xml_task : ParseXML.t :=
  ParseXML.get "//w" "w" conv_int
    (ParseXML.get "//v" "vs" conv_int (ParseXML.init "out.xml")).

(** [ParseJSON("out.json").get("$.n", "n", int).get("$.flags", "flags", bool)] *)
Definition json_task : ParseJSON.t :=
  ParseJSON.get "$.flags" "flags" conv_bool
    (ParseJSON.get "$.n" "n" conv_int (ParseJSON.init "out.json")).

(** Two row-filter queries with the same conversion, the second
    without any matching row. *)
Definition csv_task : ParseCSV.t :=
  ParseCSV.get (query_text ("a", "b", "maybe")) "none" conv_str
    (ParseCSV.get (query_text ("a", "b", "yes")) "ys" conv_str
       (ParseCSV.init "out.csv" [])).

(** Two row-filter queries with different conversions: [int] for the
    first, [str] for the second. *)
Definition csv_mixed : ParseCSV.t :=
  ParseCSV.get (query_text ("b", "b", "no")) "nos" conv_str
    (ParseCSV.get (query_text ("a", "b", "yes")) "ys" conv_int
       (ParseCSV.init "out.csv" [])).

(** The rows of [out.csv], cleaned. *)
Definition csv_cleaned : list (gmap string pyval) :=
  [ {[ "a" := PStr "1"; "b" := PStr "yes" ]};
    {[ "a" := PStr "2"; "b" := PStr "no" ]};
    {[ "a" := PStr "3"; "b" := PStr "yes" ]} ].
End Demo.

(** ** The other tasks of [tasks.py]

    [Send], [WriteInput], [ParseOutput], [Pause], [PrintEnv],
    [PrintStderr] and [Assert] act on what the state above does not
    hold (bytes sent, the input of a process, the clock, the console, a
    file object handed to a callback) and are left out. *)

Definition with_files (f : gmap string string → gmap string string) (st : state) : state :=
  {| env := env st; procs := procs st; socks := socks st;
     bufs := bufs st; files := f (files st); trace := trace st |}.

(** The number of occurrences of [c] in [s]. *)
Fixpoint count_char (c : ascii) (s : string) : nat :=
  match s with
  | EmptyString => 0
  | String d s' => (if Ascii.eqb d c then 1 else 0) + count_char c s'
  end.

(** [sep.join(parts)] for a one-character separator. *)
Fixpoint join_with (sep : ascii) (parts : list string) : string :=
  match parts with
  | [] => EmptyString
  | [p] => p
  | p :: ps => p +:+ String sep (join_with sep ps)
  end.

(** [s.split()]: the maximal runs of characters that are not
    whitespace. *)
Fixpoint split_ws (s : string) : list string :=
  match s with
  | EmptyString => []
  | String c s' =>
      if is_space c then split_ws s'
      else match s' with
           | EmptyString => [String c EmptyString]
           | String d _ =>
               if is_space d then String c EmptyString :: split_ws s'
               else match split_ws s' with
                    | w :: ws => String c w :: ws
                    | [] => [String c EmptyString]
                    end
           end
  end.

(** [s.split(sep)] for a separator that is not empty; [skip] counts the
    characters of a separator just found that are still to be passed. *)
Fixpoint split_sep (sep : string) (s : string) (skip : nat) : list string :=
  match s with
  | EmptyString => [EmptyString]
  | String c s' =>
      match skip with
      | S k => split_sep sep s' k
      | O =>
          if String.prefix sep s then EmptyString :: split_sep sep s' (String.length sep - 1)
          else match split_sep sep s' 0 with
               | w :: ws => String c w :: ws
               | [] => [String c EmptyString]
               end
      end
  end.

(** [line.split(delimiters)] *)
Definition method_split (delimiters : option string) (line : string)
    : outcome (list string) :=
  match delimiters with
  | None => Ok (split_ws line)
  | Some EmptyString => Raise ValueError
  | Some sep => Ok (split_sep sep line 0)
  end.

(** [os.path.join(folder, file)] on POSIX paths. *)
Definition path_join (folder : pyval) (file : string) : outcome string :=
  match folder with
  | PStr folder =>
      if String.prefix "/" file then Ok file
      else if String.eqb folder EmptyString || endswith folder "/" then Ok (folder +:+ file)
      else Ok (folder +:+ "/" +:+ file)
  | _ => Raise AttributeError
  end.

(** Further collaborators: [str.format], [tempfile], the functions of
    [utils] that work on the file system, opening a file for writing
    and [json.dump].  An operation on the file system gives its outcome
    and the files it leaves. *)
Class Library := {
  (** [template.format(v)] *)
  str_format : string → pyval → outcome string;
  (** [tempfile.mkdtemp()]: the path of the new directory, which holds
      no file yet *)
  tempfile_mkdtemp : gmap string string → outcome string;
  (** [utils.remove(path)] *)
  utils_remove : string → gmap string string → outcome unit * gmap string string;
  (** [utils.copytree(fromDir, toDir)] *)
  utils_copytree : string → string → gmap string string
                   → outcome unit * gmap string string;
  (** [utils.substitutetree(folder, env, include, exclude)] *)
  utils_substitutetree : string → gmap string pyval → pyval → pyval
                         → gmap string string → outcome unit * gmap string string;
  (** whether [open(path, "w")] succeeds *)
  fs_open_w : string → gmap string string → outcome unit;
  (** [json.dump(obj, f)]: the text written, and the exception when the
      object cannot be written to the end *)
  json_dump : gmap string pyval → string * option exn
}.

(** An operation of a collaborator on the file system, as a step of a
    task. *)
Definition fs_call (op : gmap string string → outcome unit * gmap string string)
    : M unit :=
  λ st, let '(o, fs) := op (files st) in (o, with_files (λ _, fs) st).

(** [open(path, "w")]: the file is created, or emptied when it exists. *)
Definition open_w `{!Library} (path : string) : M unit :=
  λ st, match fs_open_w path (files st) with
        | Ok _ => (Ok tt, with_files <[path := EmptyString]> st)
        | Raise e => (Raise e, st)
        end.

(** [f.write(text)] on a file just opened for writing. *)
Definition write_file (path text : string) : M unit :=
  modify (with_files <[path := text]>).

(** ["..." + v], which needs a string. *)
Definition as_str (v : pyval) : outcome string :=
  match v with
  | PStr s => Ok s
  | _ => Raise TypeError
  end.

Module CreateTempDir.
Definition run `{!Library} : M unit :=
  st ← get_state;
  dir ← lift (tempfile_mkdtemp (files st));
  setitem "WORK_DIR" (PStr dir).
End CreateTempDir.

Module DeleteTempDir.
Definition run `{!Library} : M unit :=
  present ← contains "WORK_DIR";
  if negb present then raise (TaskError "WORK_DIR not defined")
  else
    dir ← getitem "WORK_DIR";
    dir ← lift (as_str dir);
    fs_call (utils_remove dir).
End DeleteTempDir.

Module SetWorkDir.
Record t := { dir : string }.

Definition run (self : t) : M unit :=
  setitem "WORK_DIR" (PStr (dir self)).
End SetWorkDir.

Module Delete.
(** [path]: one path, or a list or tuple of paths. *)
Inductive paths :=
  | Path (p : string)
  | Paths (ps : list string).

Record t := { path : paths }.

Definition run `{!Library} (self : t) : M unit :=
  match path self with
  | Paths ps => for_each ps (λ p, fs_call (utils_remove p))
  | Path p => fs_call (utils_remove p)
  end.
End Delete.

Module Copy.
Record t := {
  fromDir : string;
  toDir : option string
}.

Definition run `{!Library} (self : t) : M unit :=
  toDir ← match toDir self with
          | None =>
              present ← contains "WORK_DIR";
              if negb present then raise (TaskError "WORK_DIR not defined")
              else dir ← getitem "WORK_DIR"; lift (as_str dir)
          | Some dir => mret dir
          end;
  fs_call (utils_copytree (fromDir self) toDir).
End Copy.

Module Substitute.
Record t := {
  folder : option string;
  include : pyval;
  exclude : pyval
}.

(** [Substitute()], with the defaults [folder=None, include="*",
    exclude=None]. *)
Definition default : t :=
  {| folder := None; include := PStr "*"; exclude := PNone |}.

Definition run `{!Library} (self : t) : M unit :=
  folder ← match folder self with
           | None =>
               present ← contains "WORK_DIR";
               if negb present then raise (TaskError "WORK_DIR not defined")
               else dir ← getitem "WORK_DIR"; lift (as_str dir)
           | Some dir => mret dir
           end;
  st ← get_state;
  fs_call (utils_substitutetree folder (env st) (include self) (exclude self)).
End Substitute.

Module WriteFile.
Record t := {
  file : string;
  content : string
}.

Definition run `{!External} `{!Library} (self : t) : M unit :=
  folder ← getitem "WORK_DIR";
  absfile ← lift (path_join folder (file self));
  open_w absfile;;
  st ← get_state;
  text ← lift (utils_substitute (PStr (content self)) (env st));
  write_file absfile text.
End WriteFile.

Module WriteJSON.
Record t := {
  json : list (string * pyval);
  filename : string;
  conversions : gmap string conversion_fn
}.

(** The body of the loop over the items of [self.json]: the value that
    goes into [sub_map]. *)
Definition sub_value `{!External} (self : t) (env : gmap string pyval)
    (key : string) (value : pyval) : outcome pyval :=
  if is_str value then
    value ← utils_substitute value env;
    match conversions self !! key with
    | Some conversion => conversion (PStr value)
    | None => Ok (PStr value)
    end
  else Ok value.

Fixpoint sub_items `{!External} (self : t) (env : gmap string pyval)
    (items : list (string * pyval)) (sub_map : gmap string pyval)
    : outcome (gmap string pyval) :=
  match items with
  | [] => Ok sub_map
  | (key, value) :: items' =>
      value ← sub_value self env key value;
      sub_items self env items' (<[key := value]> sub_map)
  end.

Definition run `{!External} `{!Library} (self : t) : M unit :=
  st ← get_state;
  sub_map ← lift (sub_items self (env st) (json self) ∅);
  open_w (filename self);;
  let '(text, error) := json_dump sub_map in
  write_file (filename self) text;;
  match error with
  | Some e => raise e
  | None => mret tt
  end.
End WriteJSON.

Module ParseLine.
(** [name]: one name, or a list of names. *)
Inductive names :=
  | Name (name : string)
  | Names (names : list string).

Record t := {
  name : names;
  delimiters : option string;
  type : conversion_fn
}.

(** [ParseLine()], with the defaults [name="output", delimiters=None,
    type=str]. *)
Definition default `{!External} : t :=
  {| name := Name "output"; delimiters := None;
     type := λ v, Ok (PStr (py_str v)) |}.

Definition mismatch `{!External} (values names : nat) : string :=
  "Number of parsed values (" +:+ py_str (PInt (Z.of_nat values))
  +:+ ") does not match number of names (" +:+ py_str (PInt (Z.of_nat names))
  +:+ ")".

(** [map(self.type, ...)] is a list, as in Python 2, which the module is
    written for ([iteritems] in [WriteJSON]).  In the loop over the names
    the lengths of [self.name] and [values] are equal, so that
    [values[i]] is the value beside the [i]-th name. *)
Definition run `{!External} (self : t) : M unit :=
  stdout ← getitem "STDOUT";
  line ← file_readline stdout;
  values ← lift (parts ← method_split (delimiters self) line;
                 py_map (type self) (PStr <$> parts));
  match name self with
  | Names names =>
      if negb (length names =? length values)%nat then
        raise (TaskError (mismatch (length values) (length names)))
      else
        for_each (zip names values) (λ '(name, value), setitem name value)
  | Name name => setitem name (PList values)
  end.
End ParseLine.

Module Format.
(** [format]: a callable, or a format string. *)
Inductive formatter :=
  | Callable (f : conversion_fn)
  | Template (template : string).

Record t := {
  name : string;
  format : formatter;
  rename : option string
}.

Definition run `{!Library} (self : t) : M unit :=
  present ← contains (name self);
  if negb present then
    raise (TaskError (name self +:+ " is not set in environment"))
  else
    let new_name := match rename self with
                    | None => name self
                    | Some new_name => new_name
                    end in
    old_val ← getitem (name self);
    match format self with
    | Callable f =>
        x ← lift (f old_val);
        setitem new_name x
    | Template template =>
        x ← lift (str_format template old_val);
        setitem new_name (PStr x)
    end.
End Format.

(** ** [salib.py] *)

(** [l[i]]: a negative index counts from the end. *)
Definition py_index {A} (l : list A) (i : Z) : option A :=
  if (0 <=? i)%Z then l !! Z.to_nat i
  else if (- Z.of_nat (length l) <=? i)%Z
       then l !! Z.to_nat (Z.of_nat (length l) + i)
       else None.

Module SALib.
(** What a call of this module returns or raises. *)
Inductive raised :=
  | StopIteration
  | IndexError
  | KeyError (key : string)
  | ValueError
  | TypeError.

Inductive result (B : Type) :=
  | Return (b : B)
  | Raised (e : raised).
Arguments Return {B} b.
Arguments Raised {B} e.

(** The loop of [convert_to_numpy], which sets [result[i]] for each map
    of [output] in turn; [to_float] is the conversion that storing into
    the array applies. *)
Fixpoint fill_array {F} (to_float : pyval → result F)
    (output : list (gmap string pyval)) (field : string) (index : Z)
    : result (list F) :=
  match output with
  | [] => Return []
  | map :: output' =>
      match map !! field with
      | None => Raised (KeyError field)
      | Some value =>
          let item := match value with
                      | PList l =>
                          match py_index l index with
                          | Some x => Return x
                          | None => Raised IndexError
                          end
                      | _ => Return value
                      end in
          match item with
          | Raised e => Raised e
          | Return x =>
              match to_float x with
              | Raised e => Raised e
              | Return y =>
                  match fill_array to_float output' field index with
                  | Return ys => Return (y :: ys)
                  | Raised e => Raised e
                  end
              end
          end
      end
  end.

Definition convert_to_numpy {F} (to_float : pyval → result F)
    (output : list (gmap string pyval)) (field : string) (index : Z)
    : result (list F) :=
  if (length output =? 0)%nat then Return []
  else fill_array to_float output field index.

(** The first argument of [SALibSamples]: the problem map, or the list
    of the names. *)
Inductive problem :=
  | Problem (fields : gmap string (list string))
  | NameList (names : list string).

(** [SALibSamples], over samples of any type [A]. *)
Record samples (A : Type) := {
  index : Z;
  names : list string;
  values : list (list A)
}.
Arguments index {A} _.
Arguments names {A} _.
Arguments values {A} _.

Definition init {A} (names : problem) (values : list (list A)) : result (samples A) :=
  match names with
  | Problem fields =>
      match fields !! "names" with
      | Some names => Return {| index := -1; names := names; values := values |}
      | None => Raised (KeyError "names")
      end
  | NameList names => Return {| index := -1; names := names; values := values |}
  end.

(** [for i in range(len(self.names)): result[self.names[i]] =
    self.values[self.index][i]], from the [i]-th name on. *)
Fixpoint fill {A} (self : samples A) (rest : list string) (i : nat)
    (result : gmap string A) : SALib.result (gmap string A) :=
  match rest with
  | [] => Return result
  | name :: rest' =>
      match py_index (values self) (index self) with
      | None => Raised IndexError
      | Some row =>
          match row !! i with
          | None => Raised IndexError
          | Some v => fill self rest' (S i) (<[name := v]> result)
          end
      end
  end.

(** [self.next()]: what it returns or raises, and the iterator after
    the call. *)
Definition next {A} (self : samples A) : result (gmap string A) * samples A :=
  if (Z.of_nat (length (values self)) - 1 <=? index self)%Z then
    (Raised StopIteration, self)
  else
    let self' := {| index := index self + 1; names := names self;
                    values := values self |} in
    (fill self' (names self') 0 ∅, self').

(** [list(self)]: the items until [StopIteration]; another exception
    ends the loop.  [fuel] bounds the number of calls of [next]; [None]
    when it does not suffice. *)
Fixpoint collect {A} (fuel : nat) (self : samples A)
    : option (result (list (gmap string A))) :=
  match fuel with
  | O => None
  | S fuel' =>
      match next self with
      | (Raised StopIteration, _) => Some (Return [])
      | (Raised e, _) => Some (Raised e)
      | (Return item, self') =>
          match collect fuel' self' with
          | Some (Return items) => Some (Return (item :: items))
          | other => other
          end
      end
  end.
End SALib.

(** ** Vocabulary of the further properties *)

(** The state after [Disconnect] closed the socket [s], whose record
    was [sk]. *)
Definition disconnected (s : nat) (sk : socket) (st : state) : state :=
  {| env := delete "SOCKET" (env st);
     procs := procs st;
     socks := <[s := {| incoming := incoming sk; wr_shutdown := true;
                        closed := true |}]> (socks st);
     bufs := bufs st;
     files := files st;
     trace := trace st ++ [EvShutdown s 1; EvClose s] |}.

(** The map of one sample: each name with the value at its place in the
    row; of a name that occurs twice the last place counts. *)
Definition sample_map {A} (names : list string) (row : list A) : gmap string A :=
  list_to_map (reverse (zip names row)).

(** The value of a field that goes into the array: the item at [index]
    of a list, the value itself otherwise. *)
Definition selected (index : Z) (value : pyval) : option pyval :=
  match value with
  | PList l => py_index l index
  | _ => Some value
  end.

(** ** A second concrete setting

    For the further properties: placeholders that are resolved from the
    environment, a file system given by the paths of its files, and
    samples of integers. *)
Module Sample.
(** Where the scan of a text for placeholders stands: in plain text,
    after a dollar sign, or inside the braces of a placeholder. *)
Inductive scan :=
  | Text
  | Dollar
  | Name (name : string).

(** [utils.substitute]: every [${name}] is replaced by the text of the
    field [name]; a name that is not set is an error. *)
Fixpoint resolve (s : string) (at_ : scan) (env : gmap string pyval) : outcome string :=
  match s with
  | EmptyString =>
      match at_ with
      | Text => Ok EmptyString
      | Dollar => Ok "$"
      | Name _ => Raise ValueError
      end
  | String c s' =>
      match at_ with
      | Text =>
          if Ascii.eqb c "$" then resolve s' Dollar env
          else r ← resolve s' Text env; Ok (String c r)
      | Dollar =>
          if Ascii.eqb c "{" then resolve s' (Name EmptyString) env
          else if Ascii.eqb c "$" then r ← resolve s' Dollar env; Ok (String "$" r)
          else r ← resolve s' Text env; Ok (String "$" (String c r))
      | Name name =>
          if Ascii.eqb c "}" then
            match env !! name with
            | Some v => r ← resolve s' Text env; Ok (Demo.str v +:+ r)
            | None => Raise (KeyError name)
            end
          else resolve s' (Name (name +:+ String c EmptyString)) env
      end
  end.

Definition substitute (text : pyval) (env : gmap string pyval) : outcome string :=
  match text with
  | PStr s => resolve s Text env
  | _ => Raise TypeError
  end.

#[export] Instance external : External := {|
  py_str := Demo.str;
  py_int := Demo.int;
  py_eval := Demo.eval;
  utils_substitute := substitute;
  shlex_split := λ command, Ok (String.words command);
  os_popen := Demo.popen;
  os_returncode := Demo.returncode;
  net_connect := λ server port, Ok ("3 4" +:+ Demo.nl +:+ "5 6" +:+ Demo.nl);
  xml_doc := list (string * list pyval);
  etree_parse := Demo.parse Demo.xml_text Demo.xml_table;
  etree_xpath := λ tree xpath, Ok (Demo.find_matches tree xpath);
  json_doc := list (string * list pyval);
  json_load := Demo.parse Demo.json_text Demo.json_table;
  jsonpath_find := λ xpath content, Ok (Demo.find_matches content xpath);
  csv_DictReader := Demo.csv_rows
|}.

(** [template.format(v)] for a template with at most one [{}]. *)
Definition format (template : string) (v : pyval) : outcome string :=
  match split_sep "{}" template 0 with
  | [text] => Ok text
  | [before; after] => Ok (before +:+ Demo.str v +:+ after)
  | _ => Raise ValueError
  end.

(** Removing a path removes the files below it. *)
Definition remove (path : string) (fs : gmap string string)
    : outcome unit * gmap string string :=
  (Ok tt, filter (λ kv, String.prefix path kv.1 = false) fs).

(** Copying a directory copies the files below it. *)
Definition copytree (fromDir toDir : string) (fs : gmap string string)
    : outcome unit * gmap string string :=
  (Ok tt,
   list_to_map
     ((λ kv : string * string,
         (toDir +:+ substring (String.length fromDir)
                      (String.length kv.1 - String.length fromDir) kv.1, kv.2))
        <$> filter (λ kv : string * string, String.prefix fromDir kv.1 = true)
              (map_to_list fs))
   ∪ fs).

(** The text of a map, field by field. *)
Definition dump (obj : gmap string pyval) : string * option exn :=
  (foldr (λ kv text, kv.1 +:+ "=" +:+ Demo.str kv.2 +:+ ";" +:+ text) EmptyString
     (map_to_list obj), None).

#[export] Instance library : Library := {|
  str_format := format;
  tempfile_mkdtemp := λ fs, Ok "/tmp/run0";
  utils_remove := remove;
  utils_copytree := copytree;
  utils_substitutetree := λ folder env include exclude fs, (Ok tt, fs);
  fs_open_w := λ path fs, Ok tt;
  json_dump := dump
|}.

(** A conversion that accepts nothing. *)
Definition reject : conversion_fn := λ _, Raise ValueError.

(** A context with a working directory that holds one file. *)
Definition workspace : state :=
  {| env := {[ "x" := PStr "42"; "WORK_DIR" := PStr "/tmp/run0" ]};
     procs := [];
     socks := [];
     bufs := [];
     files := {[ "/tmp/run0/in.txt" := "old"; "/model/a.cfg" := "k=${x}" ]};
     trace := [] |}.

(** A context whose captured output holds one line that is not read
    yet. *)
Definition captured : state :=
  {| env := {[ "STDOUT" := PStringIO 0 ]};
     procs := [];
     socks := [];
     bufs := [{| buf := "3 4" +:+ Demo.nl; pos := 0 |}];
     files := ∅;
     trace := [] |}.

(** [ParseLine(["a", "b"], type=int)] *)
Definition two_names : ParseLine.t :=
  {| ParseLine.name := ParseLine.Names ["a"; "b"];
     ParseLine.delimiters := None;
     ParseLine.type := Demo.conv_int |}.

(** [ParseLine("output", type=int)] *)
Definition one_name : ParseLine.t :=
  {| ParseLine.name := ParseLine.Name "output";
     ParseLine.delimiters := None;
     ParseLine.type := Demo.conv_int |}.

(** [Connect("localhost:8000")], as its constructor leaves it. *)
Definition connect : Connect.t :=
  {| Connect.server := PStr "localhost"; Connect.port := PStr "8000" |}.

(** [WriteJSON({"n": 3, "s": "${x}"}, "in.json", {"n": str, "s": int})] *)
Definition write_json : WriteJSON.t :=
  {| WriteJSON.json := [("n", PInt 3); ("s", PStr "${x}")];
     WriteJSON.filename := "in.json";
     WriteJSON.conversions := {[ "n" := Demo.conv_str; "s" := Demo.conv_int ]} |}.

(** The sample matrix of two parameters and two runs. *)
Definition matrix : list (list Z) := [[1; 2]; [3; 4]]%Z.
End Sample.

(** ** Properties *)

(** Two states with the same object store, files and trace: they differ
    in the environment at most. *)
Definition same_store (st st' : state) : Prop :=
  procs st' = procs st ∧ socks st' = socks st ∧ bufs st' = bufs st
  ∧ files st' = files st ∧ trace st' = trace st.

Lemma same_store_refl st : same_store st st.
Proof. by repeat split. Qed.

Lemma same_store_with_env f st : same_store st (with_env f st).
Proof. by repeat split. Qed.

Lemma same_store_trans st1 st2 st3 :
  same_store st1 st2 → same_store st2 st3 → same_store st1 st3.
Proof.
  intros (?&?&?&?&?) (?&?&?&?&?). repeat split; congruence.
Qed.

(** Deleting a list of distinct keys that are all present succeeds and
    removes exactly those keys. *)
Lemma for_each_delitem (keys : list string) (st : state) :
  NoDup keys →
  (∀ k, k ∈ keys → is_Some (env st !! k)) →
  ∃ st', for_each keys delitem st = (Ok tt, st')
         ∧ same_store st st'
         ∧ ∀ k, env st' !! k = if decide (k ∈ keys) then None else env st !! k.
Proof.
  revert st. induction keys as [|key keys IH]; intros st Hnd Hin.
  - exists st. split; [done|]. split; [apply same_store_refl|].
    intros k. case_decide as Hk; [|done]. by apply elem_of_nil in Hk.
  - apply NoDup_cons in Hnd as [Hkey Hnd].
    destruct (Hin key) as [v Hv]; [by left|].
    destruct (IH (with_env (delete key) st) Hnd) as (st' & Hrun & Hsame & Hlook).
    { intros k Hk. cbn. rewrite lookup_delete_ne; [|by intros ->].
      apply Hin. by right. }
    exists st'. split; [|split].
    + cbn. unfold mbind, M_bind, delitem at 1. rewrite Hv. exact Hrun.
    + eapply same_store_trans; [apply (same_store_with_env (delete key))|done].
    + intros k. rewrite Hlook. cbn.
      destruct (decide (k = key)) as [->|Hne].
      * rewrite lookup_delete_eq.
        rewrite (decide_True (P := key ∈ key :: keys)); [|by left].
        by case_decide.
      * rewrite lookup_delete_ne; [|done].
        case_decide as Hk.
        -- rewrite decide_True; [done|by right].
        -- rewrite decide_False; [done|]. intros Hk'.
           apply elem_of_cons in Hk' as [?|?]; done.
Qed.

(** C8: running the pruning task [Return] never raises; a key
    of the environment survives exactly when it is among [fields], with
    the value it had; every other key is deleted, and nothing but the
    environment changes. *)
Theorem Return_run_prunes (self : Return.t) (st : state) :
  ∃ st', Return.run self st = (Ok tt, st')
         ∧ same_store st st'
         ∧ ∀ k, env st' !! k
                = if decide (k ∈ Return.fields self) then env st !! k else None.
Proof.
  destruct (for_each_delitem
              (elements (dom (env st) ∖ list_to_set (Return.fields self) : gset string)) st)
    as (st' & Hrun & Hsame & Hlook).
  { apply NoDup_elements. }
  { intros k Hk. apply elem_of_elements, elem_of_difference in Hk as [Hk _].
    by apply elem_of_dom in Hk. }
  exists st'. split; [exact Hrun|]. split; [done|].
  intros k. rewrite Hlook.
  case_decide as Hk.
  - apply elem_of_elements, elem_of_difference in Hk as [_ Hk].
    rewrite decide_False; [done|]. intros Hk'. apply Hk.
    by apply elem_of_list_to_set.
  - case_decide as Hf; [done|].
    destruct (env st !! k) as [v|] eqn:Hv; [|done].
    exfalso. apply Hk. apply elem_of_elements, elem_of_difference. split.
    + apply elem_of_dom. by exists v.
    + intros Hk'. apply Hf. by apply elem_of_list_to_set in Hk'.
Qed.

(** Membership of an integer in a list of integers, as [in] decides it. *)
Lemma py_in_ints (code : Z) (codes : list Z) :
  py_in (PInt code) (PInt <$> codes) = true ↔ code ∈ codes.
Proof.
  unfold py_in. induction codes as [|c codes IH]; cbn.
  - split; [done|]. intros H. by apply elem_of_nil in H.
  - rewrite orb_true_iff, IH, elem_of_cons, Z.eqb_eq. done.
Qed.

(** C4: in a context without the [PROCESS] key the exit-code check raises
    the task error of the missing prerequisite and leaves the whole state
    as it was: the environment is not changed and nothing is waited on
    (the trace of external calls is the same). *)
Theorem CheckExitCode_without_process `{!External}
    (self : CheckExitCode.t) (st : state) :
  env st !! "PROCESS" = None →
  CheckExitCode.run self st
  = (Raise (TaskError "PROCESS not set, call Execute before CheckExitCode"), st).
Proof.
  intros Hp. unfold CheckExitCode.run, mbind, M_bind, contains.
  rewrite Hp. rewrite bool_decide_eq_false_2; [done|]. by intros [? ?].
Qed.

(** C3: with a process handle under [PROCESS], the exit-code check waits
    for that process, stores its exit code under [EXIT_CODE], and raises a
    task error exactly when the code is not among the accepted ones;
    nothing else changes.  By default the accepted codes are exactly [0],
    and an accepted value that is not a list stands for the list holding
    it alone. *)
Theorem CheckExitCode_run_spec `{!External}
    (self : CheckExitCode.t) (st : state) (p : nat) (pr : process) :
  env st !! "PROCESS" = Some (PProcess p) →
  procs st !! p = Some pr →
  (∃ o, CheckExitCode.run self st
        = (o, with_env <["EXIT_CODE" := PInt (os_returncode pr)]>
                (log_event (EvWait p) st))
        ∧ (py_in (PInt (os_returncode pr)) (CheckExitCode.ok self) = true → o = Ok tt)
        ∧ (py_in (PInt (os_returncode pr)) (CheckExitCode.ok self) = false
           → ∃ msg, o = Raise (TaskError msg)))
  ∧ CheckExitCode.ok CheckExitCode.default = [PInt 0]
  ∧ (py_in (PInt (os_returncode pr)) [PInt 0] = true ↔ os_returncode pr = 0%Z)
  ∧ (∀ codes : list Z,
       py_in (PInt (os_returncode pr)) (PInt <$> codes) = true
       ↔ os_returncode pr ∈ codes)
  ∧ (∀ v, is_list v = false → CheckExitCode.ok (CheckExitCode.init v) = [v]).
Proof.
  intros Hp Hpr. repeat split.
  - unfold CheckExitCode.run, mbind, M_bind, contains, getitem.
    rewrite Hp. rewrite bool_decide_eq_true_2; [|by eexists]. cbn.
    rewrite Hp. unfold Popen_wait. rewrite Hpr. cbn. rewrite lookup_insert_eq.
    destruct (py_in _ _) eqn:Hin; cbn.
    + eexists. split; [reflexivity|]. split; [done|]. discriminate.
    + eexists. split; [reflexivity|]. split; [discriminate|]. by eexists.
  - cbn. rewrite orb_false_r. apply Z.eqb_eq.
  - cbn. rewrite orb_false_r. intros ->. apply Z.eqb_refl.
  - apply py_in_ints.
  - apply py_in_ints.
  - intros v Hv. unfold CheckExitCode.init. by rewrite Hv.
Qed.

(** *** Sequencing *)

Lemma bind_Ok {A B} (m : M A) (f : A → M B) st a st' :
  m st = (Ok a, st') → (m ≫= f) st = f a st'.
Proof. intros H. unfold mbind, M_bind. by rewrite H. Qed.

Lemma contains_Some key v st :
  env st !! key = Some v → contains key st = (Ok true, st).
Proof.
  intros H. unfold contains. rewrite bool_decide_eq_true_2; [done|by eexists].
Qed.

Lemma contains_None key st :
  env st !! key = None → contains key st = (Ok false, st).
Proof.
  intros H. unfold contains. rewrite bool_decide_eq_false_2; [done|].
  rewrite H. by intros [? ?].
Qed.

Lemma getitem_Some key v st :
  env st !! key = Some v → getitem key st = (Ok v, st).
Proof. intros H. unfold getitem. by rewrite H. Qed.

(** C5: when the [SOCKET] key is present, [Connect.run] raises the task
    error of the open connection and leaves the whole state as it was:
    the socket, reader and buffer entries of the environment, the
    objects they denote, and the trace of external calls. *)
Theorem Connect_run_already_open `{!External} (self : Connect.t) (st : state) :
  is_Some (env st !! "SOCKET") →
  Connect.run self st
  = (Raise (TaskError "SOCKET already defined, close prior connection first"), st).
Proof.
  intros [v Hv]. unfold Connect.run.
  by rewrite (bind_Ok _ _ _ _ _ (contains_Some _ _ _ Hv)).
Qed.

(** C6: without the [SOCKET] key, [Disconnect.run] returns at once and
    changes nothing.  With an open socket under [SOCKET] it shuts the
    socket down for writing, closes it and deletes the key, after which
    a second call changes nothing: neither call raises. *)
Theorem Disconnect_idempotent (st : state) :
  (env st !! "SOCKET" = None → Disconnect.run st = (Ok tt, st))
  ∧ (∀ s sk,
       env st !! "SOCKET" = Some (PSocket s) →
       socks st !! s = Some sk →
       closed sk = false →
       let st' :=
         {| env := delete "SOCKET" (env st);
            procs := procs st;
            socks := <[s := {| incoming := incoming sk; wr_shutdown := true;
                               closed := true |}]> (socks st);
            bufs := bufs st;
            files := files st;
            trace := trace st ++ [EvShutdown s 1; EvClose s] |} in
       Disconnect.run st = (Ok tt, st')
       ∧ Disconnect.run st' = (Ok tt, st')
       ∧ (Disconnect.run;; Disconnect.run) st = (Ok tt, st')).
Proof.
  assert (Hnone : ∀ st0, env st0 !! "SOCKET" = None → Disconnect.run st0 = (Ok tt, st0)).
  { intros st0 H0. unfold Disconnect.run.
    by rewrite (bind_Ok _ _ _ _ _ (contains_None _ _ H0)). }
  split; [apply Hnone|].
  intros s sk Hs Hsk Hopen st'.
  assert (Hrun : Disconnect.run st = (Ok tt, st')).
  { unfold Disconnect.run.
    rewrite (bind_Ok _ _ _ _ _ (contains_Some _ _ _ Hs)). cbn.
    rewrite (bind_Ok _ _ _ _ _ (getitem_Some _ _ _ Hs)).
    unfold mbind, M_bind, socket_shutdown, socket_close, delitem. cbn.
    rewrite Hsk, Hopen. cbn.
    assert (Hlen : s < length (socks st)) by (by eapply lookup_lt_Some).
    rewrite list_lookup_insert_eq by done. cbn.
    rewrite Hs. unfold st', with_env, log_event. cbn.
    rewrite list_insert_insert_eq, <- app_assoc.
    rewrite orb_true_r. done. }
  assert (Hagain : Disconnect.run st' = (Ok tt, st')).
  { apply Hnone. unfold st'. cbn. apply lookup_delete_eq. }
  split; [done|]. split; [done|].
  by rewrite (bind_Ok _ _ _ _ _ Hrun).
Qed.

(** C7: a run of [Execute] that spawns its process stores the new
    process handle under [PROCESS] and its input pipe under [STDIN],
    whatever these keys held; it sets [STDOUT] to the output pipe exactly
    when the output is captured and [STDERR] to the error pipe exactly
    when the errors are captured, and otherwise leaves these keys as
    they were; every other key keeps its value.  The process is created
    with the corresponding pipes.  A run that raises changes nothing. *)
Theorem Execute_run_keys `{!External} (self : Execute.t) (st : state) :
  (∀ st', Execute.run self st = (Ok tt, st') →
     env st' !! "PROCESS" = Some (PProcess (length (procs st)))
     ∧ env st' !! "STDIN" = Some (PPipe (length (procs st)) PipeIn)
     ∧ env st' !! "STDOUT"
       = (if Execute.ignore_stdout self then env st !! "STDOUT"
          else Some (PPipe (length (procs st)) PipeOut))
     ∧ env st' !! "STDERR"
       = (if Execute.ignore_stderr self then env st !! "STDERR"
          else Some (PPipe (length (procs st)) PipeErr))
     ∧ (∀ k, k ≠ "PROCESS" → k ≠ "STDIN" → k ≠ "STDOUT" → k ≠ "STDERR" →
          env st' !! k = env st !! k)
     ∧ (∃ pr, procs st' !! length (procs st) = Some pr
              ∧ (is_Some (stdout_pipe pr) ↔ Execute.ignore_stdout self = false)
              ∧ (is_Some (stderr_pipe pr) ↔ Execute.ignore_stderr self = false)))
  ∧ (∀ e st', Execute.run self st = (Raise e, st') → st' = st).
Proof.
  unfold Execute.run, mbind, M_bind, get_state, lift, Popen,
    start_monitor, setitem, modify. cbn.
  destruct (utils_substitute _ _) as [command|e1]; cbn;
    [|split; intros; simplify_eq; done].
  destruct (shlex_split command) as [args|e2]; cbn;
    [|split; intros; simplify_eq; done].
  destruct (os_popen args) as [[out err]|e3]; cbn;
    [|split; intros; simplify_eq; done].
  split; [|by destruct (Execute.ignore_stdout self), (Execute.ignore_stderr self)].
  intros st' Hrun.
  destruct (Execute.ignore_stdout self), (Execute.ignore_stderr self);
    cbn in Hrun; simplify_eq; cbn;
    (repeat split;
     [ by simplify_map_eq
     | by simplify_map_eq
     | by simplify_map_eq
     | by simplify_map_eq
     | intros; by simplify_map_eq
     | eexists; split;
       [ rewrite list_lookup_alter_eq, lookup_app_r, Nat.sub_diag by done;
         reflexivity
       | cbn; split; split; first [done | by eexists | by intros [? ?]] ] ]).
Qed.

(** *** Strings *)

Lemma append_cons (c : ascii) (s t : string) : String c s +:+ t = String c (s +:+ t).
Proof. reflexivity. Qed.

Lemma append_empty_r (s : string) : s +:+ "" = s.
Proof. induction s as [|c s IH]; [done|by rewrite append_cons, IH]. Qed.

Lemma append_assoc (s1 s2 s3 : string) : (s1 +:+ s2) +:+ s3 = s1 +:+ (s2 +:+ s3).
Proof. induction s1 as [|c s1 IH]; [done|by rewrite !append_cons, IH]. Qed.

Lemma length_append (s1 s2 : string) :
  String.length (s1 +:+ s2) = String.length s1 + String.length s2.
Proof. induction s1 as [|c s1 IH]; [done|rewrite append_cons; cbn; by rewrite IH]. Qed.

(** Writing at the end of a [StringIO] appends and keeps the cursor at
    the end. *)
Lemma StringIO_write_at_end (s : string) (sb : stringio) :
  pos sb = String.length (buf sb) →
  StringIO_write s sb
  = {| buf := buf sb +:+ s; pos := String.length (buf sb +:+ s) |}.
Proof.
  intros Hpos. unfold StringIO_write.
  destruct (String.eqb_spec s "") as [->|Hs].
  - rewrite append_empty_r, <- Hpos. by destruct sb.
  - rewrite Hpos, Nat.eqb_refl. by rewrite length_append.
Qed.

(** As long as the data holds a newline, [readline()] returns a
    newline-terminated line. *)
Lemma take_line_is_line (data : string) :
  0 < count_newlines data →
  is_line (take_line data).1
  ∧ count_newlines data = S (count_newlines (take_line data).2).
Proof.
  induction data as [|c data IH]; cbn; [lia|].
  destruct (Ascii.eqb_spec c newline) as [->|Hc]; cbn.
  - intros _. split; [|done]. exists "". done.
  - intros Hn. destruct (IH Hn) as [(body & Hbody & Hline) Hcount].
    destruct (take_line data) as [l r]. cbn in *. split; [|done].
    exists (String c body). split.
    + change (Ascii.eqb newline c || has_char newline body = false).
      rewrite Hbody, (proj2 (Ascii.eqb_neq newline c)); [done|congruence].
    + by rewrite Hline.
Qed.

Lemma read_lines_length (n : nat) (data : string) :
  length (read_lines n data).1 = n.
Proof.
  revert data. induction n as [|n IH]; intros data; cbn; [done|].
  destruct (take_line data) as [l r]. specialize (IH r).
  destruct (read_lines n r) as [ls r']. cbn in *. by rewrite IH.
Qed.

Lemma read_lines_are_lines (n : nat) (data : string) :
  n ≤ count_newlines data → Forall is_line (read_lines n data).1.
Proof.
  revert data. induction n as [|n IH]; intros data Hn; cbn; [by constructor|].
  destruct (take_line_is_line data) as [Hline Hcount]; [lia|].
  destruct (take_line data) as [l r]. cbn in *.
  specialize (IH r). destruct (read_lines n r) as [ls r']. cbn in *.
  constructor; [done|]. apply IH. lia.
Qed.

(** *** Receiving *)

(** The loop of [Receive.run], started with the cursor of the buffer at
    its end. *)
Lemma receive_loop (b s : nat) (ixs : list nat) (st : state)
    (sb : stringio) (sk : socket) :
  bufs st !! b = Some sb →
  socks st !! s = Some sk →
  pos sb = String.length (buf sb) →
  for_each ixs (λ _,
    line ← file_readline (PSockFile s);
    file_write (PStringIO b) line) st
  = (Ok tt,
     received b s sb sk (length ixs)
       (String.length (buf sb +:+ join (read_lines (length ixs) (incoming sk)).1)) st).
Proof.
  revert st sb sk. induction ixs as [|i ixs IH]; intros st sb sk Hb Hs Hpos.
  - cbn. f_equal. unfold received. cbn.
    rewrite append_empty_r, <- Hpos, app_nil_r.
    rewrite !list_insert_id; [by destruct st|by destruct sb|by destruct sk].
  - cbn [for_each length read_lines].
    destruct (take_line (incoming sk)) as [line rest] eqn:Hline.
    destruct (read_lines (length ixs) rest) as [lines rest'] eqn:Hlines.
    unfold mbind at 1. unfold M_bind at 1.
    unfold mbind at 1. unfold M_bind at 1.
    unfold file_readline at 1. rewrite Hs, Hline.
    unfold file_write at 1. cbn [bufs log_event with_socks].
    rewrite Hb. rewrite StringIO_write_at_end by done.
    erewrite IH; cycle 1.
    + cbn. apply list_lookup_insert_eq. by eapply lookup_lt_Some.
    + cbn. apply list_lookup_insert_eq. by eapply lookup_lt_Some.
    + done.
    + f_equal. unfold received. cbn. rewrite Hlines. cbn.
      rewrite !list_insert_insert_eq, append_assoc, <- app_assoc.
      rewrite Hline, Hlines. done.
Qed.

(** A run of [Receive] on an open channel: the [SOCKET] key is set,
    [SOCKET_FILE] holds the reader of a socket and [STDOUT] a buffer. *)
Lemma Receive_run_open (self : Receive.t) (st : state) (v : pyval)
    (b s : nat) (sb : stringio) (sk : socket) :
  env st !! "SOCKET" = Some v →
  env st !! "STDOUT" = Some (PStringIO b) →
  env st !! "SOCKET_FILE" = Some (PSockFile s) →
  bufs st !! b = Some sb →
  socks st !! s = Some sk →
  Receive.run self st
  = (Ok tt, received b s sb sk (Z.to_nat (Receive.numlines self)) (pos sb) st).
Proof.
  intros Hsock Hout Hfile Hb Hs. unfold Receive.run.
  rewrite (bind_Ok _ _ _ _ _ (contains_Some _ _ _ Hsock)). cbn [negb].
  rewrite (bind_Ok _ _ _ _ _ (getitem_Some _ _ _ Hout)).
  rewrite (bind_Ok _ _ _ _ _ (getitem_Some _ _ _ Hfile)).
  assert (Hlen : b < length (bufs st)) by (by eapply lookup_lt_Some).
  unfold mbind at 1. unfold M_bind at 1. unfold file_tell at 1. rewrite Hb.
  unfold mbind at 1. unfold M_bind at 1. unfold file_seek_end at 1. rewrite Hb.
  unfold mbind at 1. unfold M_bind at 1. unfold Receive.range.
  erewrite receive_loop; cycle 1.
  - cbn. by apply list_lookup_insert_eq.
  - done.
  - done.
  - unfold file_seek, received. cbn.
    rewrite list_lookup_insert_eq
      by (by rewrite length_insert).
    cbn. rewrite !list_insert_insert_eq, length_seq.
    unfold with_bufs. cbn. by rewrite list_insert_insert_eq.
Qed.

(** C2: on an open channel, [Receive.run] reads [numlines] times a line
    from the reader of the socket, appends what it read to the end of
    the buffer under [STDOUT] and leaves the cursor of the buffer where
    it was; the environment is not changed.  When the unread data of the
    socket holds at least [numlines] newlines, what is appended is
    exactly [numlines] newline-terminated lines. *)
Theorem Receive_run_appends (self : Receive.t) (st : state) (v : pyval)
    (b s : nat) (sb : stringio) (sk : socket) :
  env st !! "SOCKET" = Some v →
  env st !! "STDOUT" = Some (PStringIO b) →
  env st !! "SOCKET_FILE" = Some (PSockFile s) →
  bufs st !! b = Some sb →
  socks st !! s = Some sk →
  ∃ st' lines,
    Receive.run self st = (Ok tt, st')
    ∧ lines = (read_lines (Z.to_nat (Receive.numlines self)) (incoming sk)).1
    ∧ length lines = Z.to_nat (Receive.numlines self)
    ∧ bufs st' !! b = Some {| buf := buf sb +:+ join lines; pos := pos sb |}
    ∧ env st' = env st
    ∧ (Z.to_nat (Receive.numlines self) ≤ count_newlines (incoming sk) →
       Forall is_line lines).
Proof.
  intros Hsock Hout Hfile Hb Hs.
  eexists _, _. split; [by eapply Receive_run_open|].
  split; [reflexivity|]. split; [apply read_lines_length|].
  split; [|split; [done|apply read_lines_are_lines]].
  cbn. apply list_lookup_insert_eq. by eapply lookup_lt_Some.
Qed.

(** C9: the outcome and the final state of [Receive.run] do not depend
    on the [name] of the task.  On an open channel the lines are appended
    to the buffer that the [STDOUT] key refers to; the environment, and
    with it the field called [name], stays as it was, and so does every
    other buffer. *)
Theorem Receive_ignores_name (name1 name2 : string) (n : Z) (st : state) :
  Receive.run {| Receive.name := name1; Receive.numlines := n |} st
  = Receive.run {| Receive.name := name2; Receive.numlines := n |} st
  ∧ (∀ v b s sb sk,
       env st !! "SOCKET" = Some v →
       env st !! "STDOUT" = Some (PStringIO b) →
       env st !! "SOCKET_FILE" = Some (PSockFile s) →
       bufs st !! b = Some sb →
       socks st !! s = Some sk →
       ∃ st',
         Receive.run {| Receive.name := name1; Receive.numlines := n |} st = (Ok tt, st')
         ∧ env st' = env st
         ∧ bufs st' !! b
           = Some {| buf := buf sb +:+ join (read_lines (Z.to_nat n) (incoming sk)).1;
                     pos := pos sb |}
         ∧ ∀ b', b' ≠ b → bufs st' !! b' = bufs st !! b').
Proof.
  split; [reflexivity|].
  intros v b s sb sk Hsock Hout Hfile Hb Hs.
  eexists. split; [by eapply Receive_run_open|]. split; [done|]. split.
  - cbn. apply list_lookup_insert_eq. by eapply lookup_lt_Some.
  - intros b' Hb'. cbn. by apply list_lookup_insert_ne.
Qed.

(** *** Loops that store one field per item *)

Lemma for_each_store {A} (items : list A) (key : A → string)
    (val : A → outcome pyval) (body : A → M unit) :
  (∀ a st, body a st = match val a with
                       | Ok x => (Ok tt, with_env <[key a := x]> st)
                       | Raise e => (Raise e, st)
                       end) →
  ∀ st st', for_each items body st = (Ok tt, st') →
    same_store st st'
    ∧ (∀ k, k ∉ key <$> items → env st' !! k = env st !! k)
    ∧ (∀ l1 a l2, items = l1 ++ a :: l2 → key a ∉ key <$> l2 →
         ∃ x, val a = Ok x ∧ env st' !! key a = Some x).
Proof.
  intros Hbody. induction items as [|a0 items IH]; intros st st' Hrun.
  - cbn in Hrun. unfold mret, M_ret in Hrun. simplify_eq.
    split; [apply same_store_refl|]. split; [done|].
    intros [|??] ??; discriminate.
  - cbn in Hrun. unfold mbind, M_bind in Hrun. rewrite Hbody in Hrun.
    destruct (val a0) as [x0|e] eqn:Hval; [|discriminate].
    destruct (IH _ _ Hrun) as (Hsame & Hframe & Hlast).
    split; [|split].
    + eapply same_store_trans; [apply (same_store_with_env <[key a0 := x0]>)|done].
    + intros k Hk. rewrite fmap_cons, not_elem_of_cons in Hk. destruct Hk as [Hne Hk].
      rewrite (Hframe k Hk). cbn. by rewrite lookup_insert_ne.
    + intros l1 a l2 Hsplit Hlater. destruct l1 as [|a1 l1]; cbn in Hsplit; simplify_eq.
      * exists x0. split; [done|]. rewrite (Hframe _ Hlater). cbn.
        apply lookup_insert_eq.
      * by apply (Hlast l1 a l2).
Qed.

(** [store_matches] stores [stored_value], which is the collapse rule on
    the texts of the matches. *)
Lemma store_matches_eq key conversion values st :
  store_matches key conversion values st
  = match stored_value conversion values with
    | Ok x => (Ok tt, with_env <[key := x]> st)
    | Raise e => (Raise e, st)
    end.
Proof.
  unfold store_matches, stored_value, mbind, M_bind, lift, setitem, modify,
    fmap, outcome_fmap, outcome_bind.
  destruct values as [|v [|v' values]]; cbn.
  - done.
  - destruct (text_of v) as [t|]; cbn; [|done]. by destruct (conversion t).
  - destruct (text_of v) as [t|]; cbn; [|done].
    destruct (text_of v') as [t'|]; cbn; [|done].
    destruct (py_map text_of values) as [ts|]; cbn; [|done].
    destruct (conversion t) as [x|]; cbn; [|done].
    destruct (conversion t') as [x'|]; cbn; [|done].
    destruct (py_map conversion ts); reflexivity.
Qed.

Lemma stored_value_collapsed conversion values x :
  stored_value conversion values = Ok x →
  ∃ texts, py_map text_of values = Ok texts
           ∧ collapsed conversion texts (Some x).
Proof.
  unfold stored_value. destruct values as [|v [|v' values]]; cbn.
  - intros ?; simplify_eq. exists []. split; [done|]. by exists [].
  - destruct (text_of v) as [t|]; cbn; [|discriminate]. intros Hx.
    exists [t]. split; [done|]. by exists x.
  - destruct (text_of v) as [t|]; cbn; [|discriminate].
    destruct (text_of v') as [t'|]; cbn; [|discriminate].
    destruct (py_map text_of values) as [ts|]; cbn; [|discriminate].
    intros Hx. exists (t :: t' :: ts). split; [done|]. cbn.
    destruct (conversion t) as [y|]; cbn in *; [|discriminate].
    destruct (conversion t') as [y'|]; cbn in *; [|discriminate].
    destruct (py_map conversion ts) as [ys|]; cbn in *; [|discriminate].
    simplify_eq. by eexists.
Qed.

Lemma ParseJSON_store_eq key conversion values st :
  ParseJSON.store key conversion values st
  = match json_stored_value conversion values with
    | Ok x => (Ok tt, with_env <[key := x]> st)
    | Raise e => (Raise e, st)
    end.
Proof.
  unfold ParseJSON.store, mbind, M_bind, lift, setitem, modify.
  destruct values as [|v [|v' values]].
  - reflexivity.
  - destruct v; cbn; try (destruct (conversion _); reflexivity).
    destruct (py_map conversion l); reflexivity.
  - assert (Hj : json_stored_value conversion (v :: v' :: values)
                 = PList <$> py_map conversion (v :: v' :: values))
      by (by destruct v).
    rewrite Hj. destruct (py_map conversion (v :: v' :: values)); reflexivity.
Qed.

(** *** The accumulation of the row-filter results *)

(** The dictionary [results] keeps an invariant: its keys are distinct
    and no key holds an empty list.  Under it, [result_of] reads the
    dictionary. *)

(** Adding a result appends it to the list of its key. *)
Lemma result_of_add (key key' : string) (result : pyval)
    (results : list (string * list pyval)) :
  result_of key' (ParseCSV.add_result key result results)
  = if String.eqb key key' then result_of key' results ++ [result]
    else result_of key' results.
Proof.
  induction results as [|[k values] rest IH]; cbn.
  - by destruct (String.eqb key key').
  - destruct (String.eqb_spec k key) as [->|Hk]; cbn.
    + by destruct (String.eqb key key').
    + rewrite IH. destruct (String.eqb_spec k key') as [->|Hk']; [|done].
      destruct (String.eqb_spec key key') as [->|]; done.
Qed.

Lemma add_result_keys (key : string) (result : pyval)
    (results : list (string * list pyval)) :
  (ParseCSV.add_result key result results).*1
  = if decide (key ∈ results.*1) then results.*1 else results.*1 ++ [key].
Proof.
  induction results as [|[k values] rest IH]; cbn.
  - rewrite decide_False; [done|]. apply not_elem_of_nil.
  - destruct (String.eqb_spec k key) as [->|Hk]; cbn.
    + rewrite decide_True; [done|]. left.
    + rewrite IH. destruct (decide (key ∈ rest.*1)) as [Hin|Hin].
      * rewrite decide_True; [done|]. by right.
      * rewrite decide_False; [done|]. rewrite not_elem_of_cons. by split.
Qed.

Lemma add_result_inv (key : string) (result : pyval)
    (results : list (string * list pyval)) :
  NoDup results.*1 ∧ Forall (λ e, e.2 ≠ []) results →
  NoDup (ParseCSV.add_result key result results).*1
  ∧ Forall (λ e, e.2 ≠ []) (ParseCSV.add_result key result results).
Proof.
  intros [Hnd Hne]. split.
  - rewrite add_result_keys. case_decide as Hin; [done|].
    apply NoDup_app. split; [done|]. split.
    + intros k Hk Hk'. apply list_elem_of_singleton in Hk'. by subst.
    + apply NoDup_singleton.
  - clear Hnd. induction results as [|[k values] rest IH]; cbn.
    + by repeat constructor.
    + apply Forall_cons in Hne as [Hv Hrest].
      destruct (String.eqb k key); constructor; cbn in *; auto.
      by destruct values.
Qed.

Lemma result_of_empty (key : string) (results : list (string * list pyval)) :
  Forall (λ e, e.2 ≠ []) results →
  result_of key results = [] → key ∉ results.*1.
Proof.
  induction results as [|[k values] rest IH]; cbn; intros Hne Hr.
  - apply not_elem_of_nil.
  - apply Forall_cons in Hne as [Hv Hrest]. cbn in Hv.
    destruct (String.eqb_spec k key) as [->|Hk]; [done|].
    rewrite not_elem_of_cons. split; [done|]. by apply IH.
Qed.

Lemma result_of_split (key : string) (results : list (string * list pyval)) :
  NoDup results.*1 →
  result_of key results ≠ [] →
  ∃ l1 l2, results = l1 ++ (key, result_of key results) :: l2 ∧ key ∉ l2.*1.
Proof.
  induction results as [|[k values] rest IH]; cbn; intros Hnd Hr; [done|].
  apply NoDup_cons in Hnd as [Hk Hnd].
  destruct (String.eqb_spec k key) as [->|Hne].
  - by exists [], rest.
  - destruct (IH Hnd Hr) as (l1 & l2 & Hsplit & Hl2).
    exists ((k, values) :: l1), l2. split; [|done]. cbn. by rewrite <- Hsplit.
Qed.

Lemma eval_bindings_spec `{!External} (row : gmap string pyval)
    (bindings : list (string * string * conversion_fn)) (l l' : ParseCSV.locals) :
  ParseCSV.eval_bindings row bindings l = Ok l' →
  NoDup (ParseCSV.results l).*1 ∧ Forall (λ e, e.2 ≠ []) (ParseCSV.results l) →
  (NoDup (ParseCSV.results l').*1 ∧ Forall (λ e, e.2 ≠ []) (ParseCSV.results l'))
  ∧ (∀ key, result_of key (ParseCSV.results l')
            = result_of key (ParseCSV.results l) ++ binding_matches row key bindings)
  ∧ ParseCSV.conversion l'
    = match last bindings with
      | Some b => Some b.2
      | None => ParseCSV.conversion l
      end.
Proof.
  revert l. induction bindings as [|[[expr k] conv] bindings IH]; intros l Hrun Hinv.
  - cbn in Hrun. simplify_eq. split; [done|]. split; [|done].
    intros key. cbn. by rewrite app_nil_r.
  - cbn in Hrun. fold (query expr) in Hrun.
    destruct (py_eval (query expr) row) as [result|e] eqn:Heval;
      cbn in Hrun; [|discriminate].
    apply IH in Hrun as (Hinv' & Hres & Hconv).
    + split; [done|]. split.
      * intros key. rewrite Hres. cbn.
        rewrite Heval, app_assoc. f_equal.
        destruct result; cbn;
          rewrite ?result_of_add;
          destruct (String.eqb k key); cbn; by rewrite ?app_nil_r.
      * rewrite Hconv. cbn. destruct bindings as [|b bs]; [reflexivity|].
        change (last ((expr, k, conv) :: b :: bs)) with (last (b :: bs)).
        destruct (last_is_Some (b :: bs)) as [_ [x Hx]]; [done|]. by rewrite Hx.
    + cbn. destruct result; try done; by apply add_result_inv.
Qed.

Lemma scan_spec `{!External} (rows : list (list (pyval * pyval)))
    (bindings : list (string * string * conversion_fn)) (l l' : ParseCSV.locals) :
  ParseCSV.scan rows bindings l = Ok l' →
  NoDup (ParseCSV.results l).*1 ∧ Forall (λ e, e.2 ≠ []) (ParseCSV.results l) →
  ∃ cleaned,
    py_map (λ row, ParseCSV.cleanup row ∅) rows = Ok cleaned
    ∧ (NoDup (ParseCSV.results l').*1 ∧ Forall (λ e, e.2 ≠ []) (ParseCSV.results l'))
    ∧ (∀ key, result_of key (ParseCSV.results l')
              = result_of key (ParseCSV.results l) ++ row_matches cleaned key bindings)
    ∧ ParseCSV.conversion l'
      = match rows, last bindings with
        | _ :: _, Some b => Some b.2
        | _, _ => ParseCSV.conversion l
        end.
Proof.
  revert l. induction rows as [|row rows IH]; intros l Hrun Hinv.
  - cbn in Hrun. simplify_eq. exists []. split; [done|]. split; [done|].
    split; [|done]. intros key. cbn. by rewrite app_nil_r.
  - cbn in Hrun.
    destruct (ParseCSV.cleanup row ∅) as [cleanup_row|] eqn:Hclean;
      cbn in Hrun; [|discriminate].
    destruct (ParseCSV.eval_bindings cleanup_row bindings l) as [l1|] eqn:Hrow;
      cbn in Hrun; [|discriminate].
    destruct (eval_bindings_spec _ _ _ _ Hrow Hinv) as (Hinv1 & Hres1 & Hconv1).
    destruct (IH _ Hrun Hinv1) as (cleaned & Hcleaned & Hinv' & Hres & Hconv).
    exists (cleanup_row :: cleaned). split.
    { cbn. rewrite Hclean. cbn. by rewrite Hcleaned. }
    split; [done|]. split.
    + intros key. rewrite Hres, Hres1. cbn. by rewrite app_assoc.
    + rewrite Hconv, Hconv1. destruct rows, (last bindings); done.
Qed.

(** *** The three extraction tasks *)

(** [ParseXML.run]: after a run that does not raise, the field of each
    binding that is the last one for its key holds [stored_value] of the
    matches of its query; keys of no binding are untouched. *)
Lemma ParseXML_run_fields `{!External} (self : ParseXML.t) (st st' : state) :
  ParseXML.run self st = (Ok tt, st') →
  ∃ content tree,
    files st !! ParseXML.file self = Some content
    ∧ etree_parse content = Ok tree
    ∧ same_store st st'
    ∧ (∀ k, k ∉ binding_keys (ParseXML.fields self) → env st' !! k = env st !! k)
    ∧ (∀ l1 xpath key conversion l2,
         ParseXML.fields self = l1 ++ (xpath, key, conversion) :: l2 →
         key ∉ binding_keys l2 →
         ∃ values x,
           etree_xpath tree xpath = Ok values
           ∧ stored_value conversion values = Ok x
           ∧ env st' !! key = Some x).
Proof.
  unfold ParseXML.run. intros Hrun.
  unfold mbind at 1 in Hrun. unfold M_bind at 1, read_file at 1 in Hrun.
  destruct (files st !! ParseXML.file self) as [content|] eqn:Hfile; [|discriminate].
  unfold mbind at 1 in Hrun. unfold M_bind at 1, lift at 1 in Hrun.
  destruct (etree_parse content) as [tree|] eqn:Htree; [|discriminate].
  exists content, tree. split; [done|]. split; [done|].
  eapply (for_each_store _ (λ b, b.1.2)
            (λ b, values ← etree_xpath tree b.1.1; stored_value b.2 values))
    in Hrun as (Hsame & Hframe & Hlast).
  - split; [done|]. split; [done|].
    intros l1 xpath key conversion l2 Hsplit Hkey.
    destruct (Hlast l1 (xpath, key, conversion) l2 Hsplit Hkey) as (x & Hval & Hx).
    cbn in Hval. destruct (etree_xpath tree xpath) as [values|]; [|discriminate].
    by exists values, x.
  - intros [[xpath key] conversion] st0. cbn.
    unfold mbind at 1. unfold M_bind at 1, lift at 1.
    destruct (etree_xpath tree xpath) as [values|]; [|done].
    apply store_matches_eq.
Qed.

Lemma ParseJSON_run_fields `{!External} (self : ParseJSON.t) (st st' : state) :
  ParseJSON.run self st = (Ok tt, st') →
  ∃ f content,
    files st !! ParseJSON.file self = Some f
    ∧ json_load f = Ok content
    ∧ same_store st st'
    ∧ (∀ k, k ∉ binding_keys (ParseJSON.fields self) → env st' !! k = env st !! k)
    ∧ (∀ l1 xpath key conversion l2,
         ParseJSON.fields self = l1 ++ (xpath, key, conversion) :: l2 →
         key ∉ binding_keys l2 →
         ∃ values x,
           jsonpath_find xpath content = Ok values
           ∧ json_stored_value conversion values = Ok x
           ∧ env st' !! key = Some x).
Proof.
  unfold ParseJSON.run. intros Hrun.
  unfold mbind at 1 in Hrun. unfold M_bind at 1, read_file at 1 in Hrun.
  destruct (files st !! ParseJSON.file self) as [f|] eqn:Hfile; [|discriminate].
  unfold mbind at 1 in Hrun. unfold M_bind at 1, lift at 1 in Hrun.
  destruct (json_load f) as [content|] eqn:Hload; [|discriminate].
  exists f, content. split; [done|]. split; [done|].
  eapply (for_each_store _ (λ b, b.1.2)
            (λ b, values ← jsonpath_find b.1.1 content; json_stored_value b.2 values))
    in Hrun as (Hsame & Hframe & Hlast).
  - split; [done|]. split; [done|].
    intros l1 xpath key conversion l2 Hsplit Hkey.
    destruct (Hlast l1 (xpath, key, conversion) l2 Hsplit Hkey) as (x & Hval & Hx).
    cbn in Hval. destruct (jsonpath_find xpath content) as [values|]; [|discriminate].
    by exists values, x.
  - intros [[xpath key] conversion] st0. cbn.
    unfold mbind at 1. unfold M_bind at 1, lift at 1.
    destruct (jsonpath_find xpath content) as [values|]; [|done].
    apply ParseJSON_store_eq.
Qed.

(** [ParseCSV.run]: after a run that does not raise, a key for which the
    queries gave no result is untouched, and a key with results holds
    [stored_value] of them, computed with the conversion of the last
    binding of the task. *)
Lemma ParseCSV_run_fields `{!External} (self : ParseCSV.t) (st st' : state) :
  ParseCSV.run self st = (Ok tt, st') →
  ∃ f rows cleaned,
    files st !! ParseCSV.file self = Some f
    ∧ csv_DictReader f (ParseCSV.kwargs self) = Ok rows
    ∧ py_map (λ row, ParseCSV.cleanup row ∅) rows = Ok cleaned
    ∧ same_store st st'
    ∧ ∀ key,
        (row_matches cleaned key (ParseCSV.fields self) = [] →
         env st' !! key = env st !! key)
        ∧ (row_matches cleaned key (ParseCSV.fields self) ≠ [] →
           ∃ b x,
             last (ParseCSV.fields self) = Some b
             ∧ stored_value b.2 (row_matches cleaned key (ParseCSV.fields self)) = Ok x
             ∧ env st' !! key = Some x).
Proof.
  unfold ParseCSV.run. intros Hrun.
  unfold mbind at 1 in Hrun. unfold M_bind at 1, read_file at 1 in Hrun.
  destruct (files st !! ParseCSV.file self) as [f|] eqn:Hfile; [|discriminate].
  unfold mbind at 1 in Hrun. unfold M_bind at 1, lift at 1 in Hrun.
  destruct (csv_DictReader f (ParseCSV.kwargs self)) as [rows|] eqn:Hrows;
    [|discriminate].
  unfold mbind at 1 in Hrun. unfold M_bind at 1, lift at 1 in Hrun.
  destruct (ParseCSV.scan rows (ParseCSV.fields self) _) as [l|] eqn:Hscan;
    [|discriminate].
  apply scan_spec in Hscan as (cleaned & Hcleaned & [Hnd Hne] & Hres & Hconv);
    [|split; [apply NoDup_nil_2|constructor]].
  cbn in Hres, Hconv.
  exists f, rows, cleaned. do 3 (split; [done|]).
  eapply (for_each_store _ fst
            (λ e, match ParseCSV.conversion l with
                  | Some c => stored_value c e.2
                  | None => Raise (NameError "conversion")
                  end))
    in Hrun as (Hsame & Hframe & Hlast).
  - split; [done|]. intros key. rewrite <- Hres. split.
    + intros Hempty. apply Hframe. by apply result_of_empty.
    + intros Hsome.
      destruct (result_of_split key _ Hnd Hsome) as (l1 & l2 & Hsplit & Hl2).
      destruct (Hlast l1 _ l2 Hsplit Hl2) as (x & Hval & Hx). cbn in Hval, Hx.
      rewrite Hconv in Hval.
      destruct rows as [|row rows].
      { cbn in Hval. discriminate. }
      destruct (last (ParseCSV.fields self)) as [b|] eqn:Hb.
      * by exists b, x.
      * cbn in Hval. discriminate.
  - intros [key values] st0. unfold ParseCSV.collapse. cbn.
    destruct (ParseCSV.conversion l); [|done]. apply store_matches_eq.
Qed.

(** C1 (as amended): after a run that does not raise, for a binding that
    is the last one of its key:
    - tree-path: with [texts] the matches themselves where they are
      strings and their [.text] otherwise, the field obeys the collapse
      rule on [texts];
    - structure-path: a single match that is a list gives the field the
      list of its converted items; any other result obeys the collapse
      rule on the matched values;
    - row-filter, for a task whose bindings share one conversion: per
      destination key, a key without result keeps what it held (it is not
      set), and a key with results obeys the collapse rule on them
      (strings are converted as they are). *)
Theorem collapse_rule `{!External} (st st' : state) :
  (∀ self l1 xpath key conversion l2,
     ParseXML.run self st = (Ok tt, st') →
     ParseXML.fields self = l1 ++ (xpath, key, conversion) :: l2 →
     key ∉ binding_keys l2 →
     ∃ content tree values texts,
       files st !! ParseXML.file self = Some content
       ∧ etree_parse content = Ok tree
       ∧ etree_xpath tree xpath = Ok values
       ∧ py_map text_of values = Ok texts
       ∧ collapsed conversion texts (env st' !! key))
  ∧ (∀ self l1 xpath key conversion l2,
       ParseJSON.run self st = (Ok tt, st') →
       ParseJSON.fields self = l1 ++ (xpath, key, conversion) :: l2 →
       key ∉ binding_keys l2 →
       ∃ f content values,
         files st !! ParseJSON.file self = Some f
         ∧ json_load f = Ok content
         ∧ jsonpath_find xpath content = Ok values
         ∧ match values with
           | [PList items] =>
               ∃ xs, py_map conversion items = Ok xs
                     ∧ env st' !! key = Some (PList xs)
           | _ => collapsed conversion values (env st' !! key)
           end)
  ∧ (∀ self conversion,
       ParseCSV.run self st = (Ok tt, st') →
       (∀ b, b ∈ ParseCSV.fields self → b.2 = conversion) →
       ∃ f rows cleaned,
         files st !! ParseCSV.file self = Some f
         ∧ csv_DictReader f (ParseCSV.kwargs self) = Ok rows
         ∧ py_map (λ row, ParseCSV.cleanup row ∅) rows = Ok cleaned
         ∧ ∀ key,
             (row_matches cleaned key (ParseCSV.fields self) = [] →
              env st' !! key = env st !! key)
             ∧ (row_matches cleaned key (ParseCSV.fields self) ≠ [] →
                ∃ texts,
                  py_map text_of (row_matches cleaned key (ParseCSV.fields self))
                  = Ok texts
                  ∧ collapsed conversion texts (env st' !! key))).
Proof.
  split; [|split].
  - intros self l1 xpath key conversion l2 Hrun Hsplit Hkey.
    destruct (ParseXML_run_fields _ _ _ Hrun)
      as (content & tree & Hfile & Htree & _ & _ & Hlast).
    destruct (Hlast _ _ _ _ _ Hsplit Hkey) as (values & x & Hvalues & Hx & Henv).
    destruct (stored_value_collapsed _ _ _ Hx) as (texts & Htexts & Hcol).
    exists content, tree, values, texts. rewrite Henv. done.
  - intros self l1 xpath key conversion l2 Hrun Hsplit Hkey.
    destruct (ParseJSON_run_fields _ _ _ Hrun)
      as (f & content & Hfile & Hload & _ & _ & Hlast).
    destruct (Hlast _ _ _ _ _ Hsplit Hkey) as (values & x & Hvalues & Hx & Henv).
    exists f, content, values. do 3 (split; [done|]). rewrite Henv.
    unfold json_stored_value, fmap, outcome_fmap in Hx.
    destruct values as [|v [|v' values]].
    + cbn in *. simplify_eq. by exists [].
    + destruct v; cbn; try by exists x.
      destruct (py_map conversion l) as [xs|]; [|discriminate].
      simplify_eq. by exists xs.
    + assert (Hl : ∃ xs, py_map conversion (v :: v' :: values) = Ok xs
                         ∧ x = PList xs).
      { destruct v; destruct (py_map conversion _) as [xs|];
          simplify_eq; by exists xs. }
      destruct Hl as (xs & Hxs & ->). destruct v; by exists xs.
  - intros self conversion Hrun Hconv.
    destruct (ParseCSV_run_fields _ _ _ Hrun)
      as (f & rows & cleaned & Hfile & Hrows & Hcleaned & _ & Hkeys).
    exists f, rows, cleaned. do 3 (split; [done|]).
    intros key. destruct (Hkeys key) as [Hnone Hsome]. split; [done|].
    intros Hne. destruct (Hsome Hne) as (b & x & Hb & Hx & Henv).
    rewrite (Hconv b) in Hx by (by eapply last_Some_elem_of).
    destruct (stored_value_collapsed _ _ _ Hx) as (texts & Htexts & Hcol).
    exists texts. by rewrite Henv.
Qed.

(** C10: in [ParseCSV.run], the conversion of the last registered binding
    is the one applied to every destination field: after a run that does
    not raise, each key with results holds what [store_matches] computes
    from them with that conversion, whatever conversion the binding that
    produced them was registered with. *)
Theorem ParseCSV_last_conversion `{!External} (self : ParseCSV.t) (st st' : state)
    (bindings : list (string * string * conversion_fn))
    (expr key0 : string) (conversion : conversion_fn) :
  ParseCSV.fields self = bindings ++ [(expr, key0, conversion)] →
  ParseCSV.run self st = (Ok tt, st') →
  ∃ f rows cleaned,
    files st !! ParseCSV.file self = Some f
    ∧ csv_DictReader f (ParseCSV.kwargs self) = Ok rows
    ∧ py_map (λ row, ParseCSV.cleanup row ∅) rows = Ok cleaned
    ∧ ∀ key,
        row_matches cleaned key (ParseCSV.fields self) ≠ [] →
        ∃ x, stored_value conversion (row_matches cleaned key (ParseCSV.fields self))
             = Ok x
             ∧ env st' !! key = Some x.
Proof.
  intros Hfields Hrun.
  destruct (ParseCSV_run_fields _ _ _ Hrun)
    as (f & rows & cleaned & Hfile & Hrows & Hcleaned & _ & Hkeys).
  exists f, rows, cleaned. do 3 (split; [done|]).
  intros key Hne. destruct (Hkeys key) as [_ Hsome].
  destruct (Hsome Hne) as (b & x & Hb & Hx & Henv).
  rewrite Hfields, last_snoc in Hb. simplify_eq. by exists x.
Qed.

(** *** Lines and newlines *)

Lemma count_newlines_append (s1 s2 : string) :
  count_newlines (s1 +:+ s2) = count_newlines s1 + count_newlines s2.
Proof.
  induction s1 as [|c s1 IH]; [done|].
  rewrite append_cons. cbn [count_newlines]. rewrite IH. lia.
Qed.

Lemma is_line_count (l : string) : is_line l → 1 ≤ count_newlines l.
Proof.
  intros (body & _ & ->). rewrite count_newlines_append.
  cbn [count_newlines]. rewrite Ascii.eqb_refl. lia.
Qed.

(** *** The properties at work in the concrete setting *)

#[local] Existing Instance Demo.external.

Lemma CheckExitCode_without_process_witness :
  env Demo.start !! "PROCESS" = None
  ∧ CheckExitCode.run CheckExitCode.default Demo.start
    = (Raise (TaskError "PROCESS not set, call Execute before CheckExitCode"),
       Demo.start).
Proof.
  split; [reflexivity|].
  apply (CheckExitCode_without_process CheckExitCode.default Demo.start).
  reflexivity.
Defined.

Lemma CheckExitCode_run_spec_witness :
  env Demo.executed !! "PROCESS" = Some (PProcess 0)
  ∧ procs Demo.executed !! 0
    = Some {| argv := ["false"]; stdout_pipe := Some EmptyString;
              stderr_pipe := Some EmptyString; monitor := Some PNone |}
  ∧ ∃ msg,
      CheckExitCode.run CheckExitCode.default Demo.executed
      = (Raise (TaskError msg),
         with_env <["EXIT_CODE" := PInt 1]> (log_event (EvWait 0) Demo.executed)).
Proof.
  split; [reflexivity|]. split; [reflexivity|].
  destruct (CheckExitCode_run_spec CheckExitCode.default Demo.executed 0 _
              eq_refl eq_refl) as [(o & Hrun & _ & Hbad) _].
  destruct (Hbad eq_refl) as [msg ->]. exists msg. exact Hrun.
Defined.

Lemma Connect_run_already_open_witness :
  is_Some (env Demo.connected !! "SOCKET")
  ∧ Connect.run {| Connect.server := PStr "localhost"; Connect.port := PInt 8000 |}
      Demo.connected
    = (Raise (TaskError "SOCKET already defined, close prior connection first"),
       Demo.connected).
Proof.
  assert (H : is_Some (env Demo.connected !! "SOCKET")) by (by eexists).
  split; [exact H|].
  exact (Connect_run_already_open _ Demo.connected H).
Defined.

Lemma Disconnect_idempotent_witness :
  env Demo.start !! "SOCKET" = None
  ∧ Disconnect.run Demo.start = (Ok tt, Demo.start)
  ∧ env Demo.connected !! "SOCKET" = Some (PSocket 0)
  ∧ ∃ st', (Disconnect.run;; Disconnect.run) Demo.connected = (Ok tt, st')
           ∧ env st' !! "SOCKET" = None
           ∧ socks st' = [{| incoming := "ok" +:+ Demo.nl; wr_shutdown := true;
                             closed := true |}].
Proof.
  split; [reflexivity|].
  split; [exact (proj1 (Disconnect_idempotent Demo.start) eq_refl)|].
  split; [reflexivity|].
  destruct (proj2 (Disconnect_idempotent Demo.connected) 0 _ eq_refl eq_refl eq_refl)
    as (_ & _ & Htwice).
  eexists. split; [exact Htwice|]. split; reflexivity.
Defined.

Lemma Execute_run_keys_witness :
  Execute.run (Execute.init "false") Demo.start = (Ok tt, Demo.executed)
  ∧ env Demo.executed !! "PROCESS" = Some (PProcess 0)
  ∧ env Demo.executed !! "STDIN" = Some (PPipe 0 PipeIn)
  ∧ env Demo.executed !! "STDOUT" = Some (PPipe 0 PipeOut)
  ∧ env Demo.executed !! "STDERR" = Some (PPipe 0 PipeErr)
  ∧ env Demo.executed !! "x" = env Demo.start !! "x".
Proof.
  assert (Hrun : Execute.run (Execute.init "false") Demo.start
                 = (Ok tt, Demo.executed)) by (vm_compute; reflexivity).
  split; [exact Hrun|].
  destruct (proj1 (Execute_run_keys (Execute.init "false") Demo.start) _ Hrun)
    as (Hp & Hin & Hout & Herr & Hframe & _).
  split; [exact Hp|]. split; [exact Hin|]. split; [exact Hout|].
  split; [exact Herr|]. by apply Hframe.
Defined.

Lemma Receive_run_appends_witness :
  env Demo.connected !! "SOCKET" = Some (PSocket 0)
  ∧ env Demo.connected !! "STDOUT" = Some (PStringIO 0)
  ∧ env Demo.connected !! "SOCKET_FILE" = Some (PSockFile 0)
  ∧ bufs Demo.connected !! 0 = Some {| buf := EmptyString; pos := 0 |}
  ∧ socks Demo.connected !! 0
    = Some {| incoming := "ok" +:+ Demo.nl; wr_shutdown := false; closed := false |}
  ∧ ∃ st', Receive.run Receive.default Demo.connected = (Ok tt, st')
           ∧ bufs st' !! 0 = Some {| buf := "ok" +:+ Demo.nl; pos := 0 |}
           ∧ Forall is_line ["ok" +:+ Demo.nl].
Proof.
  do 5 (split; [reflexivity|]).
  destruct (Receive_run_appends Receive.default Demo.connected _ 0 0 _ _
              eq_refl eq_refl eq_refl eq_refl eq_refl)
    as (st' & lines & Hrun & -> & _ & Hbuf & _ & Hlines).
  exists st'. split; [exact Hrun|]. split; [exact Hbuf|].
  apply Hlines. vm_compute. lia.
Defined.

Lemma Receive_ignores_name_witness :
  Receive.run {| Receive.name := "answer"; Receive.numlines := 1 |} Demo.connected
  = Receive.run Receive.default Demo.connected
  ∧ ∃ st', Receive.run {| Receive.name := "answer"; Receive.numlines := 1 |}
             Demo.connected = (Ok tt, st')
           ∧ env st' !! "answer" = None
           ∧ bufs st' !! 0 = Some {| buf := "ok" +:+ Demo.nl; pos := 0 |}.
Proof.
  destruct (Receive_ignores_name "answer" "STDOUT" 1 Demo.connected) as [Hsame Hopen].
  split; [exact Hsame|].
  destruct (Hopen _ 0 0 _ _ eq_refl eq_refl eq_refl eq_refl eq_refl)
    as (st' & Hrun & Henv & Hbuf & _).
  exists st'. split; [exact Hrun|]. split; [by rewrite Henv|exact Hbuf].
Defined.

(** The states of the concrete setting are the ones the tasks build. *)
Example Connect_run_demo :
  (self ← lift (Connect.init (PStr "localhost:8000") PNone PNone);
   Connect.run self) Demo.start
  = (Ok tt, Demo.connected).
Proof. vm_compute. reflexivity. Qed.

Example Return_run_demo :
  env (Return.run {| Return.fields := ["STDOUT"; "y"] |} Demo.connected).2
  = {[ "STDOUT" := PStringIO 0 ]}.
Proof. vm_compute. reflexivity. Qed.

Example ParseCSV_run_demo :
  env (ParseCSV.run
         (ParseCSV.get (Demo.query_text ("a", "b", "yes")) "ys" Demo.conv_int
            (ParseCSV.init "out.csv" []))
         Demo.start).2 !! "ys"
  = Some (PList [PInt 1; PInt 3]).
Proof. vm_compute. reflexivity. Qed.

Lemma ParseCSV_last_conversion_witness :
  ParseCSV.fields Demo.csv_mixed
  = [(Demo.query_text ("a", "b", "yes"), "ys", Demo.conv_int)]
    ++ [(Demo.query_text ("b", "b", "no"), "nos", Demo.conv_str)]
  ∧ ∃ st', ParseCSV.run Demo.csv_mixed Demo.start = (Ok tt, st')
           ∧ row_matches Demo.csv_cleaned "ys" (ParseCSV.fields Demo.csv_mixed)
             = [PStr "1"; PStr "3"]
           ∧ env st' !! "ys" = Some (PList [PStr "1"; PStr "3"])
           ∧ py_map Demo.conv_int [PStr "1"; PStr "3"] = Ok [PInt 1; PInt 3].
Proof.
  split; [reflexivity|].
  exists (ParseCSV.run Demo.csv_mixed Demo.start).2.
  assert (Hrun : ParseCSV.run Demo.csv_mixed Demo.start
                 = (Ok tt, (ParseCSV.run Demo.csv_mixed Demo.start).2))
    by (vm_compute; reflexivity).
  split; [exact Hrun|]. split; [vm_compute; reflexivity|].
  split; [|vm_compute; reflexivity].
  destruct (ParseCSV_last_conversion Demo.csv_mixed Demo.start _ _ _ _ _
              eq_refl Hrun) as (f & rows & cleaned & Hf & Hrows & Hcl & Hkeys).
  vm_compute in Hf. injection Hf as <-.
  vm_compute in Hrows. injection Hrows as <-.
  vm_compute in Hcl. injection Hcl as <-.
  destruct (Hkeys "ys") as (x & Hx & Henv); [vm_compute; discriminate|].
  vm_compute in Hx. injection Hx as <-. exact Henv.
Defined.

(** The claim C2 fails when the stream ends early: the peer has sent one
    line and closed, two lines are asked for, and the run appends the one
    line without raising; what it appended is not two newline-terminated
    lines. *)
Lemma Receive_run_short_stream :
  env Demo.connected !! "SOCKET" = Some (PSocket 0)
  ∧ env Demo.connected !! "STDOUT" = Some (PStringIO 0)
  ∧ env Demo.connected !! "SOCKET_FILE" = Some (PSockFile 0)
  ∧ bufs Demo.connected !! 0 = Some {| buf := EmptyString; pos := 0 |}
  ∧ socks Demo.connected !! 0
    = Some {| incoming := "ok" +:+ Demo.nl; wr_shutdown := false; closed := false |}
  ∧ ∃ st', Receive.run {| Receive.name := "STDOUT"; Receive.numlines := 2 |}
             Demo.connected = (Ok tt, st')
           ∧ bufs st' !! 0 = Some {| buf := "ok" +:+ Demo.nl; pos := 0 |}
           ∧ ¬ ∃ lines, length lines = 2 ∧ Forall is_line lines
                        ∧ "ok" +:+ Demo.nl = EmptyString +:+ join lines.
Proof.
  do 5 (split; [reflexivity|]).
  eexists. split; [vm_compute; reflexivity|]. split; [reflexivity|].
  intros (lines & Hlen & Hlines & Heq).
  destruct lines as [|l1 [|l2 [|]]]; try discriminate.
  apply Forall_cons in Hlines as [H1 Hlines].
  apply Forall_cons in Hlines as [H2 _].
  apply is_line_count in H1, H2.
  apply (f_equal count_newlines) in Heq.
  change (count_newlines ("ok" +:+ Demo.nl)) with 1 in Heq.
  cbn [join foldr] in Heq.
  rewrite !count_newlines_append in Heq.
  change (count_newlines EmptyString) with 0 in Heq. lia.
Qed.

Lemma collapse_rule_witness :
  (∃ st', ParseXML.run Demo.xml_task Demo.start = (Ok tt, st')
          ∧ collapsed Demo.conv_int [PStr "3"] (env st' !! "w")
          ∧ collapsed Demo.conv_int [PStr "1"; PStr "2"] (env st' !! "vs"))
  ∧ (∃ st', ParseJSON.run Demo.json_task Demo.start = (Ok tt, st')
            ∧ collapsed Demo.conv_int [PInt 3] (env st' !! "n")
            ∧ env st' !! "flags" = Some (PList [PBool false; PBool false]))
  ∧ (∃ st', ParseCSV.run Demo.csv_task Demo.start = (Ok tt, st')
            ∧ collapsed Demo.conv_str [PStr "1"; PStr "3"] (env st' !! "ys")
            ∧ env st' !! "none" = env Demo.start !! "none").
Proof.
  split; [|split].
  - exists (ParseXML.run Demo.xml_task Demo.start).2.
    assert (Hrun : ParseXML.run Demo.xml_task Demo.start
                   = (Ok tt, (ParseXML.run Demo.xml_task Demo.start).2))
      by (vm_compute; reflexivity).
    split; [exact Hrun|].
    pose proof (proj1 (collapse_rule Demo.start
                         (ParseXML.run Demo.xml_task Demo.start).2)
                  Demo.xml_task) as Hxml.
    split.
    + destruct (Hxml [("//v", "vs", Demo.conv_int)] "//w" "w" Demo.conv_int []
                  Hrun eq_refl (not_elem_of_nil _))
        as (content & tree & values & texts & Hf & Ht & Hv & Htx & Hcol).
      vm_compute in Hf. injection Hf as <-.
      vm_compute in Ht. injection Ht as <-.
      vm_compute in Hv. injection Hv as <-.
      vm_compute in Htx. injection Htx as <-. exact Hcol.
    + destruct (Hxml [] "//v" "vs" Demo.conv_int [("//w", "w", Demo.conv_int)]
                  Hrun eq_refl)
        as (content & tree & values & texts & Hf & Ht & Hv & Htx & Hcol).
      { intros Hin. apply list_elem_of_singleton in Hin. discriminate. }
      vm_compute in Hf. injection Hf as <-.
      vm_compute in Ht. injection Ht as <-.
      vm_compute in Hv. injection Hv as <-.
      vm_compute in Htx. injection Htx as <-. exact Hcol.
  - exists (ParseJSON.run Demo.json_task Demo.start).2.
    assert (Hrun : ParseJSON.run Demo.json_task Demo.start
                   = (Ok tt, (ParseJSON.run Demo.json_task Demo.start).2))
      by (vm_compute; reflexivity).
    split; [exact Hrun|].
    pose proof (proj1 (proj2 (collapse_rule Demo.start
                                (ParseJSON.run Demo.json_task Demo.start).2))
                  Demo.json_task) as Hjson.
    split.
    + destruct (Hjson [] "$.n" "n" Demo.conv_int [("$.flags", "flags", Demo.conv_bool)]
                  Hrun eq_refl)
        as (f & content & values & Hf & Hc & Hv & Hcol).
      { intros Hin. apply list_elem_of_singleton in Hin. discriminate. }
      vm_compute in Hf. injection Hf as <-.
      vm_compute in Hc. injection Hc as <-.
      vm_compute in Hv. injection Hv as <-. exact Hcol.
    + destruct (Hjson [("$.n", "n", Demo.conv_int)] "$.flags" "flags" Demo.conv_bool []
                  Hrun eq_refl (not_elem_of_nil _))
        as (f & content & values & Hf & Hc & Hv & Hcol).
      vm_compute in Hf. injection Hf as <-.
      vm_compute in Hc. injection Hc as <-.
      vm_compute in Hv. injection Hv as <-.
      destruct Hcol as (xs & Hxs & Henv).
      vm_compute in Hxs. injection Hxs as <-. exact Henv.
  - exists (ParseCSV.run Demo.csv_task Demo.start).2.
    assert (Hrun : ParseCSV.run Demo.csv_task Demo.start
                   = (Ok tt, (ParseCSV.run Demo.csv_task Demo.start).2))
      by (vm_compute; reflexivity).
    split; [exact Hrun|].
    destruct (proj2 (proj2 (collapse_rule Demo.start
                              (ParseCSV.run Demo.csv_task Demo.start).2))
                Demo.csv_task Demo.conv_str Hrun)
      as (f & rows & cleaned & Hf & Hrows & Hcl & Hkeys).
    { intros b Hb. cbn in Hb.
      apply elem_of_cons in Hb as [->|Hb]; [reflexivity|].
      apply list_elem_of_singleton in Hb as ->. reflexivity. }
    vm_compute in Hf. injection Hf as <-.
    vm_compute in Hrows. injection Hrows as <-.
    vm_compute in Hcl. injection Hcl as <-.
    split.
    + destruct (proj2 (Hkeys "ys")) as (texts & Htx & Hcol);
        [vm_compute; discriminate|].
      vm_compute in Htx. injection Htx as <-. exact Hcol.
    + apply (proj1 (Hkeys "none")). vm_compute. reflexivity.
Defined.

(** The claim C1 fails in two places.  Structure-path: the query
    [$.flags] has exactly one match, the list [[0, 0]], whose conversion
    with [bool] is [True]; the field is set to [[False, False]].
    Row-filter: the query bound to [none] matches no row, and the field
    is not set at all, where the claim has the empty list. *)
Lemma collapse_rule_counterexample :
  (∃ st', ParseJSON.run Demo.json_task Demo.start = (Ok tt, st')
          ∧ jsonpath_find "$.flags" Demo.json_table = Ok [PList [PInt 0; PInt 0]]
          ∧ Demo.conv_bool (PList [PInt 0; PInt 0]) = Ok (PBool true)
          ∧ env st' !! "flags" = Some (PList [PBool false; PBool false])
          ∧ ¬ collapsed Demo.conv_bool [PList [PInt 0; PInt 0]] (env st' !! "flags"))
  ∧ (∃ st', ParseCSV.run Demo.csv_task Demo.start = (Ok tt, st')
            ∧ row_matches Demo.csv_cleaned "none" (ParseCSV.fields Demo.csv_task) = []
            ∧ env st' !! "none" = None
            ∧ ¬ collapsed Demo.conv_str [] (env st' !! "none")).
Proof.
  split.
  - eexists. split; [vm_compute; reflexivity|].
    do 3 (split; [vm_compute; reflexivity|]).
    intros (x & Hx & Henv). vm_compute in Hx, Henv. congruence.
  - eexists. split; [vm_compute; reflexivity|].
    do 2 (split; [vm_compute; reflexivity|]).
    intros (xs & _ & Henv). vm_compute in Henv. discriminate.
Qed.

(** ** Further properties *)

(** *** Pruning *)

(** Two states are equal when their environments and their stores are. *)
Lemma state_eq (st st' : state) :
  same_store st st' → env st' = env st → st' = st.
Proof.
  intros (?&?&?&?&?) ?. destruct st, st'; cbn in *. congruence.
Qed.

(** [Return.run] filters the environment. *)
Lemma Return_run_eq (self : Return.t) (st : state) :
  Return.run self st
  = (Ok tt, with_env (filter (λ kv, kv.1 ∈ Return.fields self)) st).
Proof.
  destruct (for_each_delitem
              (elements (dom (env st) ∖ list_to_set (Return.fields self) : gset string)) st)
    as (st' & Hrun & Hsame & Hlook).
  { apply NoDup_elements. }
  { intros k Hk. apply elem_of_elements, elem_of_difference in Hk as [Hk _].
    by apply elem_of_dom in Hk. }
  unfold Return.run, mbind, M_bind, get_state. rewrite Hrun. f_equal.
  apply state_eq.
  - eapply same_store_trans; [|exact Hsame].
    destruct (same_store_with_env (filter (λ kv, kv.1 ∈ Return.fields self)) st)
      as (?&?&?&?&?). by repeat split.
  - apply map_eq. intros k. rewrite Hlook. cbn.
    apply option_eq. intros v. rewrite map_lookup_filter_Some. cbn.
    case_decide as Hk.
    + apply elem_of_elements, elem_of_difference in Hk as [_ Hk].
      rewrite elem_of_list_to_set in Hk. naive_solver.
    + split; [|naive_solver]. intros Hv. split; [done|].
      destruct (decide (k ∈ Return.fields self)) as [|Hn]; [done|].
      exfalso. apply Hk. apply elem_of_elements, elem_of_difference. split.
      * apply elem_of_dom. by exists v.
      * by rewrite elem_of_list_to_set.
Qed.

(** X1: two pruning tasks in a row keep exactly the keys that both
    allow, as one pruning task with the common fields does; pruning twice
    with the same fields is pruning once. *)
Theorem Return_run_twice (self1 self2 : Return.t) (st : state) :
  (Return.run self1;; Return.run self2) st
  = Return.run {| Return.fields :=
                    filter (λ k, k ∈ Return.fields self2) (Return.fields self1) |} st
  ∧ (Return.run self1;; Return.run self1) st = Return.run self1 st.
Proof.
  assert (Hcomp : ∀ s1 s2 fs,
            (∀ k, k ∈ fs ↔ k ∈ Return.fields s1 ∧ k ∈ Return.fields s2) →
            (Return.run s1;; Return.run s2) st
            = Return.run {| Return.fields := fs |} st).
  { intros s1 s2 fs Hfs.
    rewrite (bind_Ok _ _ _ _ _ (Return_run_eq s1 st)), !Return_run_eq.
    f_equal. unfold with_env. cbn. f_equal.
    rewrite map_filter_filter. apply map_filter_ext.
    intros k v _. cbn. rewrite Hfs. naive_solver. }
  split.
  - apply Hcomp. intros k. rewrite list_elem_of_filter. naive_solver.
  - destruct self1 as [fs]. apply Hcomp. cbn. naive_solver.
Qed.

(** *** Channels *)

(** X2: in a context without [SOCKET], a run of [Connect] that connects
    registers a new open socket under [SOCKET], its reader under
    [SOCKET_FILE] and a new empty buffer, cursor at the start, under
    [STDOUT], replacing what these keys held; every other key, the
    processes, the older sockets and buffers and the files stay as they
    were.  A run that raises changes nothing. *)
Theorem Connect_run_fresh `{!External} (self : Connect.t) (st : state) :
  env st !! "SOCKET" = None →
  (∀ st', Connect.run self st = (Ok tt, st') →
     env st' = <["STDOUT" := PStringIO (length (bufs st))]>
                 (<["SOCKET_FILE" := PSockFile (length (socks st))]>
                    (<["SOCKET" := PSocket (length (socks st))]> (env st)))
     ∧ (∃ data, socks st' = socks st ++ [{| incoming := data; wr_shutdown := false;
                                            closed := false |}])
     ∧ bufs st' = bufs st ++ [{| buf := EmptyString; pos := 0 |}]
     ∧ procs st' = procs st
     ∧ files st' = files st)
  ∧ (∀ e st', Connect.run self st = (Raise e, st') → st' = st).
Proof.
  intros Hs. unfold Connect.run.
  rewrite (bind_Ok _ _ _ _ _ (contains_None _ _ Hs)).
  unfold mbind, M_bind, get_state, lift, socket_connect, StringIO_new,
    setitem, modify, fmap, outcome_fmap. cbn.
  destruct (utils_substitute (Connect.server self) (env st)) as [server|e1]; cbn;
    [|split; intros; simplify_eq; done].
  destruct (is_str (Connect.port self)); cbn;
    [destruct (utils_substitute (Connect.port self) (env st)) as [p|e2]; cbn;
       [|split; intros; simplify_eq; done]|];
    (destruct (py_int _) as [port0|e3]; cbn;
       [|split; intros; simplify_eq; done];
     destruct (net_connect server port0) as [data|e4]; cbn;
       [|split; intros; simplify_eq; done];
     split; [|intros; simplify_eq];
     intros st' Hrun; simplify_eq; cbn;
     split; [done|]; split; [by exists data|done]).
Qed.

(** Splitting on a character: the pieces are one more than the
    occurrences of the character, none of them holds it, and joining
    them with it gives the string back. *)
Lemma split_on_spec (sep : ascii) (s : string) :
  length (split_on sep s) = S (count_char sep s)
  ∧ Forall (λ p, has_char sep p = false) (split_on sep s)
  ∧ join_with sep (split_on sep s) = s.
Proof.
  induction s as [|c s (Hlen & Hall & Hjoin)]; [by repeat constructor|].
  cbn [split_on count_char].
  destruct (Ascii.eqb_spec c sep) as [->|Hc].
  - split; [cbn; by rewrite Hlen|]. split; [by constructor|].
    destruct (split_on sep s) as [|w ws]; [discriminate|].
    change (join_with sep (EmptyString :: w :: ws))
      with (EmptyString +:+ String sep (join_with sep (w :: ws))).
    by rewrite Hjoin.
  - destruct (split_on sep s) as [|w ws]; [discriminate|].
    split; [done|]. apply Forall_cons in Hall as [Hw Hws]. split.
    + constructor; [|done].
      change (Ascii.eqb sep c || has_char sep w = false).
      rewrite Hw, (proj2 (Ascii.eqb_neq sep c)); [done|congruence].
    + rewrite <- Hjoin. by destruct ws.
Qed.

Lemma has_char_count (c : ascii) (s : string) :
  has_char c s = negb (count_char c s =? 0)%nat.
Proof.
  induction s as [|d s IH]; [done|].
  change (Ascii.eqb c d || has_char c s
          = negb ((if Ascii.eqb d c then 1 else 0) + count_char c s =? 0)%nat).
  rewrite IH, (Ascii.eqb_sym c d). by destruct (Ascii.eqb d c).
Qed.

(** X3: what [Connect(address, server, port)] accepts.  An address that
    is not empty decides alone: without a colon it is refused with a
    task error, with exactly one colon it is cut at the colon into the
    server and the port, and with more than one colon the constructor
    raises [ValueError].  Without address, the server and the port must
    both be true values (a port [0] counts as missing). *)
Theorem Connect_init_spec (server port : pyval) :
  (∀ a, a ≠ EmptyString →
     match count_char ":" a with
     | 0 => Connect.init (PStr a) server port
            = Raise (TaskError "Address missing port number")
     | 1 => ∃ host p,
              a = host +:+ ":" +:+ p
              ∧ has_char ":" host = false ∧ has_char ":" p = false
              ∧ Connect.init (PStr a) server port
                = Ok {| Connect.server := PStr host; Connect.port := PStr p |}
     | _ => Connect.init (PStr a) server port = Raise ValueError
     end)
  ∧ (∀ address, truthy address = false →
       Connect.init address server port
       = if truthy server && truthy port
         then Ok {| Connect.server := server; Connect.port := port |}
         else Raise (TaskError "Connect must define an address or (server, port) pair")).
Proof.
  split.
  - intros a Ha.
    assert (Ht : truthy (PStr a) = true).
    { cbn. by destruct (String.eqb_spec a EmptyString). }
    unfold Connect.init. rewrite Ht. cbn [negb andb].
    unfold mbind, outcome_bind, Connect.has_colon, Connect.method_split.
    rewrite has_char_count.
    destruct (split_on_spec ":" a) as (Hlen & Hall & Hjoin).
    destruct (count_char ":" a) as [|[|n]]; cbn [Nat.eqb negb].
    + done.
    + destruct (split_on ":" a) as [|host [|p [|]]]; try discriminate.
      apply Forall_cons in Hall as [Hh Hall].
      apply Forall_cons in Hall as [Hp _].
      exists host, p. by rewrite <- Hjoin.
    + by destruct (split_on ":" a) as [|? [|? [|]]].
  - intros address Ha. unfold Connect.init. rewrite Ha. cbn [negb andb].
    by destruct (truthy server), (truthy port).
Qed.

Lemma Disconnect_run_open (st : state) (s : nat) (sk : socket) :
  env st !! "SOCKET" = Some (PSocket s) →
  socks st !! s = Some sk →
  closed sk = false →
  Disconnect.run st = (Ok tt, disconnected s sk st).
Proof.
  intros Hs Hsk Hopen. unfold Disconnect.run.
  rewrite (bind_Ok _ _ _ _ _ (contains_Some _ _ _ Hs)). cbn.
  rewrite (bind_Ok _ _ _ _ _ (getitem_Some _ _ _ Hs)).
  unfold mbind, M_bind, socket_shutdown, socket_close, delitem. cbn.
  rewrite Hsk, Hopen. cbn.
  assert (Hlen : s < length (socks st)) by (by eapply lookup_lt_Some).
  rewrite list_lookup_insert_eq by done. cbn.
  rewrite Hs. unfold disconnected, with_env, log_event. cbn.
  rewrite list_insert_insert_eq, <- app_assoc.
  by rewrite orb_true_r.
Qed.

(** X4: [Receive] needs the [SOCKET] key: without it the run raises the
    task error and changes nothing.  This is the case after
    [Disconnect], although the reader and the capture buffer stay in the
    context with what was captured. *)
Theorem Receive_requires_socket (self : Receive.t) (st : state) :
  (env st !! "SOCKET" = None →
   Receive.run self st
   = (Raise (TaskError "SOCKET not defined, call Connect first"), st))
  ∧ (∀ s sk,
       env st !! "SOCKET" = Some (PSocket s) →
       socks st !! s = Some sk →
       closed sk = false →
       (Disconnect.run;; Receive.run self) st
       = (Raise (TaskError "SOCKET not defined, call Connect first"),
          disconnected s sk st)
       ∧ env (disconnected s sk st) !! "SOCKET_FILE" = env st !! "SOCKET_FILE"
       ∧ env (disconnected s sk st) !! "STDOUT" = env st !! "STDOUT"
       ∧ bufs (disconnected s sk st) = bufs st).
Proof.
  assert (Hnone : ∀ st0, env st0 !! "SOCKET" = None →
            Receive.run self st0
            = (Raise (TaskError "SOCKET not defined, call Connect first"), st0)).
  { intros st0 H0. unfold Receive.run.
    by rewrite (bind_Ok _ _ _ _ _ (contains_None _ _ H0)). }
  split; [apply Hnone|].
  intros s sk Hs Hsk Hopen.
  rewrite (bind_Ok _ _ _ _ _ (Disconnect_run_open _ _ _ Hs Hsk Hopen)).
  split; [apply Hnone; apply lookup_delete_eq|].
  cbn. by rewrite !lookup_delete_ne.
Qed.

(** *** What [Receive] reads *)

Lemma take_line_join (data : string) :
  (take_line data).1 +:+ (take_line data).2 = data.
Proof.
  induction data as [|c data IH]; [done|]. cbn [take_line].
  destruct (Ascii.eqb c newline); [done|].
  destruct (take_line data) as [l r]. cbn in *. by rewrite append_cons, IH.
Qed.

Lemma join_app (l1 l2 : list string) : join (l1 ++ l2) = join l1 +:+ join l2.
Proof.
  induction l1 as [|x l1 IH]; [done|].
  change (x +:+ join (l1 ++ l2) = (x +:+ join l1) +:+ join l2).
  by rewrite IH, append_assoc.
Qed.

Lemma read_lines_join (n : nat) (data : string) :
  join (read_lines n data).1 +:+ (read_lines n data).2 = data.
Proof.
  revert data. induction n as [|n IH]; intros data; [done|].
  cbn [read_lines]. pose proof (take_line_join data) as Hd.
  destruct (take_line data) as [l r]. specialize (IH r).
  destruct (read_lines n r) as [ls r']. cbn [fst snd] in *.
  change (join (l :: ls)) with (l +:+ join ls).
  by rewrite append_assoc, IH.
Qed.

Lemma read_lines_add (n m : nat) (data : string) :
  read_lines (n + m) data
  = ((read_lines n data).1 ++ (read_lines m (read_lines n data).2).1,
     (read_lines m (read_lines n data).2).2).
Proof.
  revert data. induction n as [|n IH]; intros data.
  - cbn. by destruct (read_lines m data).
  - cbn [Nat.add read_lines]. destruct (take_line data) as [l r].
    rewrite IH. destruct (read_lines n r) as [ls r']. cbn.
    by destruct (read_lines m r').
Qed.

(** X5: [Receive] loses no data: what it appends to the capture buffer,
    followed by what it leaves unread on the socket, is what was unread
    on the socket before. *)
Theorem Receive_conserves_data (self : Receive.t) (st : state) (v : pyval)
    (b s : nat) (sb : stringio) (sk : socket) :
  env st !! "SOCKET" = Some v →
  env st !! "STDOUT" = Some (PStringIO b) →
  env st !! "SOCKET_FILE" = Some (PSockFile s) →
  bufs st !! b = Some sb →
  socks st !! s = Some sk →
  ∃ st' appended sb' sk',
    Receive.run self st = (Ok tt, st')
    ∧ bufs st' !! b = Some sb'
    ∧ socks st' !! s = Some sk'
    ∧ buf sb' = buf sb +:+ appended
    ∧ appended +:+ incoming sk' = incoming sk.
Proof.
  intros Hsock Hout Hfile Hb Hs.
  eexists _, _, _, _. split; [by eapply Receive_run_open|].
  split; [cbn; apply list_lookup_insert_eq; by eapply lookup_lt_Some|].
  split; [cbn; apply list_lookup_insert_eq; by eapply lookup_lt_Some|].
  split; [reflexivity|]. cbn. apply read_lines_join.
Qed.

(** X6: receiving [n] lines and then [m] lines is receiving [n + m]
    lines. *)
Theorem Receive_twice (name1 name2 name3 : string) (n m : Z) (st : state)
    (v : pyval) (b s : nat) (sb : stringio) (sk : socket) :
  env st !! "SOCKET" = Some v →
  env st !! "STDOUT" = Some (PStringIO b) →
  env st !! "SOCKET_FILE" = Some (PSockFile s) →
  bufs st !! b = Some sb →
  socks st !! s = Some sk →
  (0 ≤ n)%Z → (0 ≤ m)%Z →
  (Receive.run {| Receive.name := name1; Receive.numlines := n |};;
   Receive.run {| Receive.name := name2; Receive.numlines := m |}) st
  = Receive.run {| Receive.name := name3; Receive.numlines := n + m |} st.
Proof.
  intros Hsock Hout Hfile Hb Hs Hn Hm.
  assert (Hlb : b < length (bufs st)) by (by eapply lookup_lt_Some).
  assert (Hls : s < length (socks st)) by (by eapply lookup_lt_Some).
  rewrite (bind_Ok _ _ _ _ _
             (Receive_run_open _ _ _ _ _ _ _ Hsock Hout Hfile Hb Hs)).
  erewrite !Receive_run_open; try done; cycle 1.
  - cbn. by apply list_lookup_insert_eq.
  - cbn. by apply list_lookup_insert_eq.
  - f_equal. unfold received. cbn.
    rewrite Z2Nat.inj_add by done.
    rewrite read_lines_add. cbn.
    rewrite !list_insert_insert_eq, join_app, append_assoc.
    by rewrite replicate_add, app_assoc.
Qed.

(** X7: asking for no line, or for a negative number of lines, reads
    nothing and leaves the state as it was. *)
Theorem Receive_nothing (self : Receive.t) (st : state) (v : pyval)
    (b s : nat) (sb : stringio) (sk : socket) :
  env st !! "SOCKET" = Some v →
  env st !! "STDOUT" = Some (PStringIO b) →
  env st !! "SOCKET_FILE" = Some (PSockFile s) →
  bufs st !! b = Some sb →
  socks st !! s = Some sk →
  (Receive.numlines self ≤ 0)%Z →
  Receive.run self st = (Ok tt, st).
Proof.
  intros Hsock Hout Hfile Hb Hs Hn.
  rewrite (Receive_run_open _ _ _ _ _ _ _ Hsock Hout Hfile Hb Hs).
  f_equal. replace (Z.to_nat (Receive.numlines self)) with 0 by lia.
  unfold received. cbn. rewrite append_empty_r, app_nil_r.
  rewrite !list_insert_id; [by destruct st|by destruct sb|by destruct sk].
Qed.

(** *** Processes *)

(** The state that a run of [Execute] leaves when it spawns. *)
Lemma Execute_run_Ok `{!External} (self : Execute.t) (st st' : state) :
  Execute.run self st = (Ok tt, st') →
  ∃ command args out err,
    utils_substitute (PStr (Execute.command self)) (env st) = Ok command
    ∧ shlex_split command = Ok args
    ∧ os_popen args = Ok (out, err)
    ∧ procs st'
      = procs st
        ++ [{| argv := args;
               stdout_pipe := if Execute.ignore_stdout self then None else Some out;
               stderr_pipe := if Execute.ignore_stderr self then None else Some err;
               monitor := Some (Execute.timeout self) |}]
    ∧ env st' !! "PROCESS" = Some (PProcess (length (procs st)))
    ∧ trace st'
      = trace st ++ [EvSpawn (length (procs st));
                     EvMonitor (length (procs st)) (Execute.timeout self)]
    ∧ socks st' = socks st ∧ bufs st' = bufs st ∧ files st' = files st.
Proof.
  unfold Execute.run, mbind, M_bind, get_state, lift, Popen,
    start_monitor, setitem, modify. cbn.
  destruct (utils_substitute _ _) as [command|e1] eqn:Hsub; cbn; [|discriminate].
  destruct (shlex_split command) as [args|e2] eqn:Hsplit; cbn; [|discriminate].
  destruct (os_popen args) as [[out err]|e3] eqn:Hpopen; cbn; [|discriminate].
  intros Hrun. exists command, args, out, err. do 3 (split; [done|]).
  assert (Halter : ∀ (ps : list process) pr f,
            alter f (length ps) (ps ++ [pr]) = ps ++ [f pr]).
  { intros ps pr f. induction ps as [|p ps IH]; [done|]. cbn. by rewrite <- IH. }
  destruct (Execute.ignore_stdout self), (Execute.ignore_stderr self);
    cbn in Hrun; simplify_eq; cbn; rewrite Halter, <- app_assoc;
    (repeat split; by simplify_map_eq).
Qed.

(** The outcome of the exit-code check on a process of the store. *)
Lemma CheckExitCode_run_present `{!External} (self : CheckExitCode.t)
    (st : state) (p : nat) (pr : process) :
  env st !! "PROCESS" = Some (PProcess p) →
  procs st !! p = Some pr →
  CheckExitCode.run self st
  = (if py_in (PInt (os_returncode pr)) (CheckExitCode.ok self) then Ok tt
     else Raise (TaskError ("Execute failed, expected exit code "
                            +:+ py_str (PList (CheckExitCode.ok self))
                            +:+ ", received " +:+ py_str (PInt (os_returncode pr)))),
     with_env <["EXIT_CODE" := PInt (os_returncode pr)]> (log_event (EvWait p) st)).
Proof.
  intros Hp Hpr. unfold CheckExitCode.run.
  rewrite (bind_Ok _ _ _ _ _ (contains_Some _ _ _ Hp)). cbn [negb].
  rewrite (bind_Ok _ _ _ _ _ (getitem_Some _ _ _ Hp)).
  unfold mbind, M_bind, Popen_wait, setitem, modify, getitem. rewrite Hpr. cbn.
  rewrite lookup_insert_eq. by destruct (py_in _ _).
Qed.

(** X8: [Execute] followed by the exit-code check waits for the process
    that was just spawned, not for an older one: the trace of external
    calls grows by the spawn, the start of the monitor with the timeout
    of the task, and the wait, all on the new process, and [EXIT_CODE]
    is the code of that process; the check raises exactly when the code
    is not accepted. *)
Theorem Execute_then_check `{!External} (self : Execute.t)
    (check : CheckExitCode.t) (st st1 : state) :
  Execute.run self st = (Ok tt, st1) →
  ∃ pr o st2,
    procs st1 !! length (procs st) = Some pr
    ∧ monitor pr = Some (Execute.timeout self)
    ∧ (Execute.run self;; CheckExitCode.run check) st = (o, st2)
    ∧ env st2 !! "EXIT_CODE" = Some (PInt (os_returncode pr))
    ∧ trace st2 = trace st ++ [EvSpawn (length (procs st));
                               EvMonitor (length (procs st)) (Execute.timeout self);
                               EvWait (length (procs st))]
    ∧ (o = Ok tt ↔ py_in (PInt (os_returncode pr)) (CheckExitCode.ok check) = true)
    ∧ (o = Ok tt ∨ ∃ msg, o = Raise (TaskError msg)).
Proof.
  intros Hrun.
  destruct (Execute_run_Ok _ _ _ Hrun)
    as (command & args & out & err & _ & _ & _ & Hprocs & Hp & Htrace & _).
  eexists _, _, _. split.
  { rewrite Hprocs. by rewrite lookup_app_r, Nat.sub_diag. }
  split; [done|]. split.
  { rewrite (bind_Ok _ _ _ _ _ Hrun).
    eapply CheckExitCode_run_present; [exact Hp|].
    rewrite Hprocs. by rewrite lookup_app_r, Nat.sub_diag. }
  split; [cbn; apply lookup_insert_eq|]. split.
  { cbn. rewrite Htrace, <- app_assoc. done. }
  destruct (py_in _ _); split; try done; try (by left); by right; eexists.
Qed.

(** X9: the exit-code check does not release the process: it leaves
    [PROCESS] in the context, and a second check waits again, finds the
    same code and ends in the same way, changing nothing but the trace. *)
Theorem CheckExitCode_twice `{!External} (self : CheckExitCode.t)
    (st st1 : state) (p : nat) (pr : process) (o : outcome unit) :
  env st !! "PROCESS" = Some (PProcess p) →
  procs st !! p = Some pr →
  CheckExitCode.run self st = (o, st1) →
  env st1 !! "PROCESS" = Some (PProcess p)
  ∧ CheckExitCode.run self st1 = (o, log_event (EvWait p) st1).
Proof.
  intros Hp Hpr Hrun.
  rewrite (CheckExitCode_run_present _ _ _ _ Hp Hpr) in Hrun.
  injection Hrun as <- <-.
  assert (Hp1 : env (with_env <["EXIT_CODE" := PInt (os_returncode pr)]>
                       (log_event (EvWait p) st)) !! "PROCESS"
                = Some (PProcess p)).
  { cbn. by rewrite lookup_insert_ne. }
  split; [exact Hp1|].
  rewrite (CheckExitCode_run_present _ _ _ _ Hp1 Hpr). f_equal.
  unfold with_env, log_event. cbn. by rewrite insert_insert_eq.
Qed.

(** *** Extraction *)

Lemma binding_matches_other `{!External} (row : gmap string pyval) (key : string)
    (bindings : list (string * string * conversion_fn)) :
  key ∉ binding_keys bindings → binding_matches row key bindings = [].
Proof.
  induction bindings as [|[[expr k] conv] bindings IH]; [done|].
  unfold binding_keys. rewrite fmap_cons, not_elem_of_cons. cbn.
  intros [Hk Hrest]. rewrite (proj2 (String.eqb_neq k key)) by done.
  by apply IH.
Qed.

Lemma row_matches_other `{!External} (rows : list (gmap string pyval)) (key : string)
    (bindings : list (string * string * conversion_fn)) :
  key ∉ binding_keys bindings → row_matches rows key bindings = [].
Proof.
  intros Hk. unfold row_matches. induction rows as [|row rows IH]; [done|].
  cbn. by rewrite binding_matches_other, IH.
Qed.

(** X10: an extraction task that does not raise changes nothing but
    the fields that its bindings name: every other key of the context
    keeps its value, and the processes, sockets, buffers, files and the
    trace of external calls are as before. *)
Theorem extraction_frame `{!External} (st st' : state) :
  (∀ self, ParseXML.run self st = (Ok tt, st') →
     same_store st st'
     ∧ ∀ k, k ∉ binding_keys (ParseXML.fields self) → env st' !! k = env st !! k)
  ∧ (∀ self, ParseJSON.run self st = (Ok tt, st') →
       same_store st st'
       ∧ ∀ k, k ∉ binding_keys (ParseJSON.fields self) → env st' !! k = env st !! k)
  ∧ (∀ self, ParseCSV.run self st = (Ok tt, st') →
       same_store st st'
       ∧ ∀ k, k ∉ binding_keys (ParseCSV.fields self) → env st' !! k = env st !! k).
Proof.
  split; [|split]; intros self Hrun.
  - destruct (ParseXML_run_fields _ _ _ Hrun) as (? & ? & _ & _ & Hs & Hf & _).
    by split.
  - destruct (ParseJSON_run_fields _ _ _ Hrun) as (? & ? & _ & _ & Hs & Hf & _).
    by split.
  - destruct (ParseCSV_run_fields _ _ _ Hrun)
      as (f & rows & cleaned & _ & _ & _ & Hs & Hkeys).
    split; [done|]. intros k Hk.
    apply (proj1 (Hkeys k)). by apply row_matches_other.
Qed.

(** *** Strings of the row-filter queries *)

Lemma substring_all (s : string) : substring 0 (String.length s) s = s.
Proof. induction s as [|c s IH]; [done|]. cbn. by rewrite IH. Qed.

Lemma substring_append (a b : string) :
  substring (String.length a) (String.length b) (a +:+ b) = b.
Proof.
  induction a as [|c a IH]; [apply substring_all|].
  rewrite append_cons. cbn. exact IH.
Qed.

Lemma endswith_append (a b : string) : endswith (a +:+ b) b = true.
Proof.
  unfold endswith. rewrite length_append.
  replace (String.length a + String.length b - String.length b)
    with (String.length a) by lia.
  rewrite substring_append, String.eqb_refl, andb_true_r.
  apply Nat.leb_le. lia.
Qed.

Lemma query_normal (expr : string) :
  endswith (query expr) " else None" = true
  ∧ query (query expr) = query expr.
Proof.
  assert (Hends : endswith (query expr) " else None" = true).
  { unfold query. destruct (endswith expr " else None") eqn:He; cbn; [done|].
    apply endswith_append. }
  split; [done|]. unfold query at 1. by rewrite Hends.
Qed.

Lemma eval_binding_query `{!External} (row : gmap string pyval)
    (l : ParseCSV.locals) (b : string * string * conversion_fn) :
  ParseCSV.eval_binding row l (query b.1.1, b.1.2, b.2)
  = ParseCSV.eval_binding row l b.
Proof.
  destruct b as [[expr key] conversion]. cbn [fst snd].
  unfold ParseCSV.eval_binding.
  change (if negb (endswith (query expr) " else None")
          then query expr +:+ " else None" else query expr)
    with (query (query expr)).
  change (if negb (endswith expr " else None")
          then expr +:+ " else None" else expr)
    with (query expr).
  by rewrite (proj2 (query_normal expr)).
Qed.

Lemma eval_bindings_query `{!External} (row : gmap string pyval)
    (bindings : list (string * string * conversion_fn)) (l : ParseCSV.locals) :
  ParseCSV.eval_bindings row ((λ b, (query b.1.1, b.1.2, b.2)) <$> bindings) l
  = ParseCSV.eval_bindings row bindings l.
Proof.
  revert l. induction bindings as [|b bindings IH]; intros l; [done|].
  cbn [fmap list_fmap ParseCSV.eval_bindings].
  rewrite eval_binding_query.
  destruct (ParseCSV.eval_binding row l b) as [l'|e]; cbn; [apply IH|done].
Qed.

Lemma scan_query `{!External} (rows : list (list (pyval * pyval)))
    (bindings : list (string * string * conversion_fn)) (l : ParseCSV.locals) :
  ParseCSV.scan rows ((λ b, (query b.1.1, b.1.2, b.2)) <$> bindings) l
  = ParseCSV.scan rows bindings l.
Proof.
  revert l. induction rows as [|row rows IH]; intros l; [done|].
  cbn [ParseCSV.scan].
  destruct (ParseCSV.cleanup row ∅) as [cleanup_row|e]; cbn; [|done].
  rewrite eval_bindings_query.
  destruct (ParseCSV.eval_bindings cleanup_row bindings l) as [l'|e]; cbn;
    [apply IH|done].
Qed.

(** X11: the suffix [" else None"] of a row-filter expression is
    optional.  [ParseCSV] adds it to an expression that lacks it, also to
    one without condition, and evaluates an expression that has it as it
    is: the task whose expressions are all written with the suffix runs
    as the task itself, and every expression that is evaluated ends with
    the suffix. *)
Theorem ParseCSV_suffix_optional `{!External} (self : ParseCSV.t) (st : state) :
  ParseCSV.run {| ParseCSV.file := ParseCSV.file self;
                  ParseCSV.kwargs := ParseCSV.kwargs self;
                  ParseCSV.fields := (λ b, (query b.1.1, b.1.2, b.2))
                                     <$> ParseCSV.fields self |} st
  = ParseCSV.run self st
  ∧ Forall (λ b : string * string * conversion_fn,
              endswith b.1.1 " else None" = true)
      ((λ b, (query b.1.1, b.1.2, b.2)) <$> ParseCSV.fields self)
  ∧ (∀ expr, query expr = if endswith expr " else None" then expr
                          else expr +:+ " else None").
Proof.
  split; [|split].
  - unfold ParseCSV.run. cbn [ParseCSV.file ParseCSV.kwargs ParseCSV.fields].
    unfold mbind, M_bind.
    destruct (read_file (ParseCSV.file self) st) as [[f|e] st1]; [|done].
    unfold lift.
    destruct (csv_DictReader f (ParseCSV.kwargs self)) as [rows|e]; [|done].
    by rewrite scan_query.
  - apply Forall_fmap, Forall_forall. intros b _. cbn.
    apply (proj1 (query_normal b.1.1)).
  - intros expr. unfold query. by destruct (endswith expr " else None").
Qed.

(** *** Cleaning the rows *)

Lemma lstrip_head (s : string) :
  lstrip s = EmptyString
  ∨ ∃ c t, lstrip s = String c t ∧ is_space c = false.
Proof.
  induction s as [|c s IH]; [by left|]. cbn [lstrip].
  destruct (is_space c) eqn:Hc; [done|]. right. by exists c, s.
Qed.

Lemma rstrip_cons (c : ascii) (s : string) :
  rstrip (String c s)
  = if is_space c && String.eqb (rstrip s) EmptyString then EmptyString
    else String c (rstrip s).
Proof. reflexivity. Qed.

Lemma rstrip_idem (s : string) : rstrip (rstrip s) = rstrip s.
Proof.
  induction s as [|c s IH]; [done|]. rewrite rstrip_cons.
  destruct (is_space c && String.eqb (rstrip s) EmptyString) eqn:Hc; [done|].
  by rewrite rstrip_cons, IH, Hc.
Qed.

Lemma strip_idem (s : string) : strip (strip s) = strip s.
Proof.
  unfold strip. destruct (lstrip_head s) as [->|(c & t & -> & Hc)]; [done|].
  rewrite rstrip_cons, Hc. cbn [andb lstrip]. rewrite Hc.
  rewrite rstrip_cons, Hc. cbn [andb]. by rewrite rstrip_idem.
Qed.

Lemma cleanup_inv (items : list (pyval * pyval))
    (acc row : gmap string pyval) :
  ParseCSV.cleanup items acc = Ok row →
  (∀ k v, acc !! k = Some v →
     strip k = k ∧ ∀ s, v = PStr s → strip s = s) →
  Forall (λ kv, is_str kv.1 = true) items
  ∧ ∀ k v, row !! k = Some v → strip k = k ∧ ∀ s, v = PStr s → strip s = s.
Proof.
  revert acc. induction items as [|[key value] items IH]; intros acc Hrun Hacc.
  - cbn in Hrun. simplify_eq. by split.
  - cbn in Hrun. destruct key as [| | |k| | | | | | |]; try discriminate.
    cbn in Hrun. apply IH in Hrun as [Hall Hrow].
    + split; [by constructor|done].
    + intros k' v'. rewrite lookup_insert. case_decide as Hk; [|apply Hacc].
      intros ?; simplify_eq. split; [apply strip_idem|].
      intros s Hs. destruct value; simplify_eq. apply strip_idem.
Qed.

(** X12: in a row as the queries see it, every column name is stripped
    of surrounding whitespace and so is every value that is a string;
    cleaning a row raises exactly when the reader gave it a column name
    that is not a string. *)
Theorem cleanup_stripped (items : list (pyval * pyval)) :
  (∀ row, ParseCSV.cleanup items ∅ = Ok row →
     ∀ k v, row !! k = Some v →
       strip k = k ∧ ∀ s, v = PStr s → strip s = s)
  ∧ ((∃ row, ParseCSV.cleanup items ∅ = Ok row)
     ↔ Forall (λ kv, is_str kv.1 = true) items).
Proof.
  split.
  - intros row Hrun. eapply cleanup_inv; [exact Hrun|]. intros k v Hk.
    by rewrite lookup_empty in Hk.
  - split.
    + intros [row Hrun]. eapply cleanup_inv; [exact Hrun|]. intros k v Hk.
      by rewrite lookup_empty in Hk.
    + generalize (∅ : gmap string pyval).
      induction items as [|[key value] items IH]; intros acc Hall.
      * by exists acc.
      * apply Forall_cons in Hall as [Hkey Hall].
        destruct key; try discriminate. cbn. apply IH. exact Hall.
Qed.

(** *** Parsing a line of the captured output *)

(** Reading a line does not touch the environment. *)
Lemma file_readline_env (f : pyval) (st st' : state) (o : outcome string) :
  file_readline f st = (o, st') → env st' = env st.
Proof.
  unfold file_readline. intros H.
  destruct f; simplify_eq; try done.
  - destruct (procs st !! p) as [pr|]; [|by simplify_eq].
    destruct e, (stdout_pipe pr), (stderr_pipe pr); simplify_eq; try done;
      destruct (take_line _); by simplify_eq.
  - destruct (socks st !! s) as [sk|]; [|by simplify_eq].
    destruct (take_line _). by simplify_eq.
  - destruct (bufs st !! b) as [sb|]; [|by simplify_eq].
    destruct (take_line _). by simplify_eq.
Qed.

(** Storing a list of fields does not raise. *)
Lemma for_each_setitem_Ok (l : list (string * pyval)) (st st' : state)
    (o : outcome unit) :
  for_each l (λ '(name, value), setitem name value) st = (o, st') → o = Ok tt.
Proof.
  revert st. induction l as [|[n v] l IH]; intros st Hloop.
  - cbn in Hloop. unfold mret, M_ret in Hloop. by simplify_eq.
  - cbn in Hloop. unfold mbind, M_bind, setitem, modify in Hloop.
    by eapply IH.
Qed.

(** X13: [ParseLine] with a list of names reads one line of the stream
    under [STDOUT], splits it and converts the pieces.  When there are
    as many values as names, each name gets the value at its place (for
    a name that occurs twice, the one of its last place) and every other
    key is kept.  Otherwise the task raises a task error and sets
    nothing, but the line is consumed. *)
Theorem ParseLine_run_names `{!External} (self : ParseLine.t) (ns : list string)
    (st st1 : state) (stdout : pyval) (line : string) (parts : list string)
    (values : list pyval) :
  ParseLine.name self = ParseLine.Names ns →
  env st !! "STDOUT" = Some stdout →
  file_readline stdout st = (Ok line, st1) →
  method_split (ParseLine.delimiters self) line = Ok parts →
  py_map (ParseLine.type self) (PStr <$> parts) = Ok values →
  (length ns ≠ length values →
   ParseLine.run self st
   = (Raise (TaskError (ParseLine.mismatch (length values) (length ns))), st1)
   ∧ env st1 = env st)
  ∧ (length ns = length values →
     ∃ st', ParseLine.run self st = (Ok tt, st')
            ∧ same_store st1 st'
            ∧ (∀ k, k ∉ ns → env st' !! k = env st !! k)
            ∧ (∀ i n, ns !! i = Some n → n ∉ drop (S i) ns →
                 env st' !! n = values !! i)).
Proof.
  intros Hname Hout Hline Hparts Hvalues.
  pose proof (file_readline_env _ _ _ _ Hline) as Henv.
  assert (Hrun : ParseLine.run self st
                 = (if negb (length ns =? length values)%nat
                    then raise (TaskError (ParseLine.mismatch (length values)
                                             (length ns)))
                    else for_each (zip ns values)
                           (λ '(name, value), setitem name value)) st1).
  { unfold ParseLine.run.
    rewrite (bind_Ok _ _ _ _ _ (getitem_Some _ _ _ Hout)).
    rewrite (bind_Ok _ _ _ _ _ Hline).
    unfold mbind at 1. unfold M_bind at 1, lift at 1.
    unfold mbind at 1. unfold outcome_bind at 1. rewrite Hparts, Hvalues.
    by rewrite Hname. }
  split.
  - intros Hlen. rewrite Hrun.
    by rewrite (proj2 (Nat.eqb_neq _ _) Hlen).
  - intros Hlen. rewrite Hrun, (proj2 (Nat.eqb_eq _ _) Hlen). cbn [negb].
    destruct (for_each (zip ns values) (λ '(name, value), setitem name value) st1)
      as [o st'] eqn:Hloop.
    assert (Hbody : ∀ (a : string * pyval) st0,
              (λ '(name, value), setitem name value) a st0
              = match Ok a.2 with
                | Ok x => (Ok tt, with_env <[a.1 := x]> st0)
                | Raise e => (Raise e, st0)
                end) by (by intros [??] ?).
    assert (o = Ok tt) as -> by (by eapply for_each_setitem_Ok).
    destruct (for_each_store _ fst (λ a, Ok a.2) _ Hbody _ _ Hloop)
      as (Hsame & Hframe & Hlast).
    exists st'. split; [done|]. split; [done|].
    rewrite fst_zip in Hframe by lia. split.
    + intros k Hk. rewrite <- Henv. by apply Hframe.
    + intros i n Hi Hn.
      destruct (lookup_lt_is_Some_2 values i) as [v Hv].
      { rewrite <- Hlen. by eapply lookup_lt_Some. }
      rewrite Hv.
      assert (Hz : zip ns values !! i = Some (n, v)).
      { apply lookup_zip_with_Some. by exists n, v. }
      destruct (Hlast (take i (zip ns values)) (n, v) (drop (S i) (zip ns values)))
        as (x & Hx & Hlook).
      * by rewrite take_drop_middle.
      * cbn. rewrite fmap_drop, fst_zip by lia. done.
      * cbn in Hx, Hlook. by simplify_eq.
Qed.

Lemma take_line_no_newline (s : string) :
  has_char newline s = false → take_line s = (s, EmptyString).
Proof.
  induction s as [|c s IH]; [done|].
  change (has_char newline (String c s))
    with (Ascii.eqb newline c || has_char newline s).
  intros [Hc Hs]%orb_false_elim. cbn [take_line].
  rewrite Ascii.eqb_sym, Hc. by rewrite IH.
Qed.

Lemma take_line_fst (d : string) :
  (has_char newline (take_line d).1 = true
   ∧ ∀ x, take_line ((take_line d).1 +:+ x) = ((take_line d).1, x))
  ∨ (has_char newline (take_line d).1 = false ∧ (take_line d).2 = EmptyString).
Proof.
  induction d as [|c d IH]; [by right|]. cbn [take_line].
  destruct (Ascii.eqb c newline) eqn:Hc.
  - left. cbn [fst]. apply Ascii.eqb_eq in Hc as ->. split; [done|].
    intros x. rewrite append_cons. cbn [take_line]. by rewrite Ascii.eqb_refl.
  - destruct (take_line d) as [l r]. cbn [fst snd] in *.
    change (has_char newline (String c l))
      with (Ascii.eqb newline c || has_char newline l).
    rewrite (Ascii.eqb_sym newline c), Hc. cbn [orb].
    destruct IH as [[Hl Hx]|[Hl Hr]]; [left|by right].
    split; [done|]. intros x. rewrite append_cons. cbn [take_line].
    by rewrite Hc, Hx.
Qed.

Lemma read_lines_at_end (n : nat) : join (read_lines n EmptyString).1 = EmptyString.
Proof.
  induction n as [|n IH]; [done|]. cbn [read_lines take_line].
  destruct (read_lines n EmptyString) as [ls r]. cbn [fst] in *.
  change (join (EmptyString :: ls)) with (EmptyString +:+ join ls). by rewrite IH.
Qed.

(** The first line of what [n + 1] calls of [readline()] return is what
    the first call returns. *)
Lemma first_line_join (n : nat) (d : string) :
  (take_line (join (read_lines (S n) d).1)).1 = (take_line d).1.
Proof.
  cbn [read_lines]. destruct (take_line_fst d) as [[Hl Hx]|[Hl Hr]];
    destruct (take_line d) as [l r]; cbn [fst snd] in *.
  - destruct (read_lines n r) as [ls r']. cbn [fst].
    change (join (l :: ls)) with (l +:+ join ls). by rewrite Hx.
  - subst r. pose proof (read_lines_at_end n) as He.
    destruct (read_lines n EmptyString) as [ls r']. cbn [fst] in *.
    change (join (l :: ls)) with (l +:+ join ls).
    by rewrite He, append_empty_r, take_line_no_newline.
Qed.

(** X14: after a [Receive] of at least one line on a channel whose
    captured output was read to its end, [ParseLine] parses the first
    line that was received: the field of its name is set to the list of
    the converted pieces of that line, always a list, and nothing else
    of the environment changes. *)
Theorem Receive_then_ParseLine `{!External} (recv : Receive.t) (self : ParseLine.t)
    (nm : string) (st : state) (v : pyval) (b s : nat) (sb : stringio) (sk : socket)
    (parts : list string) (values : list pyval) :
  env st !! "SOCKET" = Some v →
  env st !! "STDOUT" = Some (PStringIO b) →
  env st !! "SOCKET_FILE" = Some (PSockFile s) →
  bufs st !! b = Some sb →
  socks st !! s = Some sk →
  pos sb = String.length (buf sb) →
  (1 ≤ Receive.numlines recv)%Z →
  ParseLine.name self = ParseLine.Name nm →
  method_split (ParseLine.delimiters self) (take_line (incoming sk)).1 = Ok parts →
  py_map (ParseLine.type self) (PStr <$> parts) = Ok values →
  ∃ st', (Receive.run recv;; ParseLine.run self) st = (Ok tt, st')
         ∧ env st' = <[nm := PList values]> (env st)
         ∧ procs st' = procs st ∧ files st' = files st.
Proof.
  intros Hsock Hout Hfile Hb Hs Hpos Hn Hname Hparts Hvalues.
  rewrite (bind_Ok _ _ _ _ _
             (Receive_run_open _ _ _ _ _ _ _ Hsock Hout Hfile Hb Hs)).
  destruct (Z.to_nat (Receive.numlines recv)) as [|n] eqn:Hnat; [lia|].
  unfold ParseLine.run.
  erewrite bind_Ok; [|by apply getitem_Some].
  unfold mbind at 1. unfold M_bind at 1, file_readline at 1.
  assert (Hlen : b < length (bufs st)) by (by eapply lookup_lt_Some).
  cbn [bufs received]. rewrite list_lookup_insert_eq by done. cbn [buf pos].
  rewrite Hpos, length_append, Nat.add_comm, Nat.add_sub, substring_append.
  pose proof (first_line_join n (incoming sk)) as Hfirst.
  destruct (take_line (join (read_lines (S n) (incoming sk)).1)) as [line rest].
  cbn [fst] in Hfirst. subst line.
  unfold mbind at 1. unfold M_bind at 1, lift at 1.
  unfold mbind at 1. unfold outcome_bind at 1. rewrite Hparts, Hvalues.
  rewrite Hname. eexists. split; [reflexivity|]. done.
Qed.

(** *** Formatting a field *)

(** X15: [Format] needs its field: without it the run raises a task
    error.  Otherwise the formatted value is stored under the new name,
    or under the name of the field when there is none; with a new name
    the field itself is kept as it was, so that renaming copies.  A run
    that raises changes nothing. *)
Theorem Format_run_spec `{!Library} (self : Format.t) (st : state) :
  (env st !! Format.name self = None →
   Format.run self st
   = (Raise (TaskError (Format.name self +:+ " is not set in environment")), st))
  ∧ (∀ old st',
       env st !! Format.name self = Some old →
       Format.run self st = (Ok tt, st') →
       ∃ x,
         match Format.format self with
         | Format.Callable f => f old = Ok x
         | Format.Template template => PStr <$> str_format template old = Ok x
         end
         ∧ st' = with_env <[default (Format.name self) (Format.rename self) := x]> st
         ∧ (∀ new_name, Format.rename self = Some new_name →
              new_name ≠ Format.name self →
              env st' !! Format.name self = Some old))
  ∧ (∀ e st', Format.run self st = (Raise e, st') → st' = st).
Proof.
  split; [|split].
  - intros Hn. unfold Format.run.
    by rewrite (bind_Ok _ _ _ _ _ (contains_None _ _ Hn)).
  - intros old st' Hold. unfold Format.run.
    rewrite (bind_Ok _ _ _ _ _ (contains_Some _ _ _ Hold)). cbn [negb].
    rewrite (bind_Ok _ _ _ _ _ (getitem_Some _ _ _ Hold)).
    unfold mbind, M_bind, lift, setitem, modify, fmap, outcome_fmap.
    destruct (Format.format self) as [f|template];
      [destruct (f old) as [x|]|destruct (str_format template old) as [x|]];
      intros Hrun; simplify_eq;
      (eexists; split; [reflexivity|]; split;
       [by destruct (Format.rename self)|];
       intros new_name -> Hne; cbn; by rewrite lookup_insert_ne).
  - intros e st'. unfold Format.run.
    destruct (env st !! Format.name self) as [old|] eqn:Hold.
    + rewrite (bind_Ok _ _ _ _ _ (contains_Some _ _ _ Hold)). cbn [negb].
      rewrite (bind_Ok _ _ _ _ _ (getitem_Some _ _ _ Hold)).
      unfold mbind, M_bind, lift, setitem, modify.
      destruct (Format.format self) as [f|template];
        [destruct (f old)|destruct (str_format template old)];
        intros Hrun; by simplify_eq.
    + rewrite (bind_Ok _ _ _ _ _ (contains_None _ _ Hold)). cbn [negb].
      unfold raise. intros Hrun. by simplify_eq.
Qed.

(** *** The working directory and the files *)

Lemma for_each_app {A} (l1 l2 : list A) (body : A → M unit) (st : state) :
  for_each (l1 ++ l2) body st = (for_each l1 body;; for_each l2 body) st.
Proof.
  revert st. induction l1 as [|x l1 IH]; intros st; [done|].
  cbn [app for_each]. unfold mbind, M_bind in *.
  destruct (body x st) as [[[]|e] st1]; [apply IH|done].
Qed.

(** X16: [DeleteTempDir] needs [WORK_DIR], removes the directory that
    the key names and keeps the key: after [CreateTempDir] and
    [DeleteTempDir] the context still names the directory that was
    created and removed. *)
Theorem DeleteTempDir_keeps_key `{!Library} (st : state) :
  (env st !! "WORK_DIR" = None →
   DeleteTempDir.run st = (Raise (TaskError "WORK_DIR not defined"), st))
  ∧ (∀ o st', DeleteTempDir.run st = (o, st') → env st' = env st)
  ∧ (∀ dir, tempfile_mkdtemp (files st) = Ok dir →
       ∃ st', (CreateTempDir.run;; DeleteTempDir.run) st
              = ((utils_remove dir (files st)).1, st')
              ∧ env st' = <["WORK_DIR" := PStr dir]> (env st)
              ∧ files st' = (utils_remove dir (files st)).2).
Proof.
  split; [|split].
  - intros Hn. unfold DeleteTempDir.run.
    by rewrite (bind_Ok _ _ _ _ _ (contains_None _ _ Hn)).
  - intros o st'. unfold DeleteTempDir.run.
    destruct (env st !! "WORK_DIR") as [d|] eqn:Hd.
    + rewrite (bind_Ok _ _ _ _ _ (contains_Some _ _ _ Hd)). cbn [negb].
      rewrite (bind_Ok _ _ _ _ _ (getitem_Some _ _ _ Hd)).
      unfold mbind, M_bind, lift, fs_call.
      destruct (as_str d) as [dir|]; [|by intros ?; simplify_eq].
      destruct (utils_remove dir (files st)). by intros ?; simplify_eq.
    + rewrite (bind_Ok _ _ _ _ _ (contains_None _ _ Hd)). cbn [negb].
      unfold raise. by intros ?; simplify_eq.
  - intros dir Hdir.
    assert (Hc : CreateTempDir.run st
                 = (Ok tt, with_env <["WORK_DIR" := PStr dir]> st)).
    { unfold CreateTempDir.run, mbind, M_bind, get_state, lift. by rewrite Hdir. }
    rewrite (bind_Ok _ _ _ _ _ Hc). unfold DeleteTempDir.run.
    erewrite bind_Ok; [|apply contains_Some with (v := PStr dir);
                        apply lookup_insert_eq]. cbn [negb].
    erewrite bind_Ok; [|apply getitem_Some; apply lookup_insert_eq].
    unfold mbind, M_bind, lift, fs_call. cbn.
    destruct (utils_remove dir (files st)) as [o fs]. by eexists.
Qed.

(** X17: [Copy] and [Substitute] without a directory of their own work
    on the directory that [WORK_DIR] names, as if it had been given to
    them; they raise a task error when the key is missing, and do not
    look at the key when a directory is given. *)
Theorem work_dir_default `{!Library} (st : state) :
  (∀ from dir, env st !! "WORK_DIR" = Some (PStr dir) →
     Copy.run {| Copy.fromDir := from; Copy.toDir := None |} st
     = Copy.run {| Copy.fromDir := from; Copy.toDir := Some dir |} st)
  ∧ (∀ inc exc dir, env st !! "WORK_DIR" = Some (PStr dir) →
       Substitute.run {| Substitute.folder := None; Substitute.include := inc;
                         Substitute.exclude := exc |} st
       = Substitute.run {| Substitute.folder := Some dir; Substitute.include := inc;
                           Substitute.exclude := exc |} st)
  ∧ (env st !! "WORK_DIR" = None →
     (∀ from, Copy.run {| Copy.fromDir := from; Copy.toDir := None |} st
              = (Raise (TaskError "WORK_DIR not defined"), st))
     ∧ (∀ inc exc,
          Substitute.run {| Substitute.folder := None; Substitute.include := inc;
                            Substitute.exclude := exc |} st
          = (Raise (TaskError "WORK_DIR not defined"), st)))
  ∧ (∀ from dir,
       Copy.run {| Copy.fromDir := from; Copy.toDir := Some dir |} st
       = ((utils_copytree from dir (files st)).1,
          with_files (λ _, (utils_copytree from dir (files st)).2) st)).
Proof.
  split; [|split; [|split]].
  - intros from dir Hd. unfold Copy.run. cbn.
    unfold mbind at 1. unfold M_bind at 1.
    rewrite (bind_Ok _ _ _ _ _ (contains_Some _ _ _ Hd)). cbn [negb].
    by rewrite (bind_Ok _ _ _ _ _ (getitem_Some _ _ _ Hd)).
  - intros inc exc dir Hd. unfold Substitute.run. cbn.
    unfold mbind at 1. unfold M_bind at 1.
    rewrite (bind_Ok _ _ _ _ _ (contains_Some _ _ _ Hd)). cbn [negb].
    by rewrite (bind_Ok _ _ _ _ _ (getitem_Some _ _ _ Hd)).
  - intros Hn. split; intros; [unfold Copy.run|unfold Substitute.run]; cbn;
      unfold mbind at 1; unfold M_bind at 1;
      by rewrite (bind_Ok _ _ _ _ _ (contains_None _ _ Hn)).
  - intros from dir. unfold Copy.run, mbind, M_bind, fs_call. cbn.
    by destruct (utils_copytree from dir (files st)).
Qed.

(** X18: [Delete] with a list of paths removes them in turn and stops
    at the first removal that fails: a list of one path is that path,
    two lists in a row are the concatenated list, the empty list is
    nothing; the environment is never touched. *)
Theorem Delete_run_paths `{!Library} (st : state) :
  (∀ p, Delete.run {| Delete.path := Delete.Paths [p] |} st
        = Delete.run {| Delete.path := Delete.Path p |} st)
  ∧ (∀ ps1 ps2,
       Delete.run {| Delete.path := Delete.Paths (ps1 ++ ps2) |} st
       = (Delete.run {| Delete.path := Delete.Paths ps1 |};;
          Delete.run {| Delete.path := Delete.Paths ps2 |}) st)
  ∧ Delete.run {| Delete.path := Delete.Paths [] |} st = (Ok tt, st)
  ∧ (∀ self o st', Delete.run self st = (o, st') → env st' = env st).
Proof.
  split; [|split; [|split]].
  - intros p. unfold Delete.run. cbn. unfold mbind, M_bind, fs_call.
    destruct (utils_remove p (files st)) as [[[]|e] fs]; done.
  - intros ps1 ps2. unfold Delete.run. cbn. apply for_each_app.
  - done.
  - intros [[p|ps]] o st'; unfold Delete.run; cbn.
    + unfold fs_call. destruct (utils_remove p (files st)). by intros ?; simplify_eq.
    + revert st. induction ps as [|p ps IH]; intros st Hrun.
      * cbn in Hrun. unfold mret, M_ret in Hrun. by simplify_eq.
      * cbn in Hrun. unfold mbind, M_bind, fs_call in Hrun.
        destruct (utils_remove p (files st)) as [[[]|e] fs] eqn:Hp.
        -- apply IH in Hrun. by rewrite Hrun.
        -- by simplify_eq.
Qed.

(** X19: [WriteFile] opens its file, which empties it, before it
    resolves the placeholders of the content.  When the resolution
    succeeds the file holds the resolved content and reading it gives
    that content back; when it raises, the file is left empty, whatever
    it held.  Without [WORK_DIR] the task raises [KeyError], not a task
    error, and changes nothing. *)
Theorem WriteFile_run_spec `{!External} `{!Library} (self : WriteFile.t)
    (st : state) :
  (env st !! "WORK_DIR" = None →
   WriteFile.run self st = (Raise (KeyError "WORK_DIR"), st))
  ∧ (∀ folder absfile,
       env st !! "WORK_DIR" = Some folder →
       path_join folder (WriteFile.file self) = Ok absfile →
       fs_open_w absfile (files st) = Ok tt →
       match utils_substitute (PStr (WriteFile.content self)) (env st) with
       | Ok text =>
           WriteFile.run self st = (Ok tt, with_files <[absfile := text]> st)
           ∧ (WriteFile.run self;; read_file absfile) st
             = (Ok text, with_files <[absfile := text]> st)
       | Raise e =>
           WriteFile.run self st
           = (Raise e, with_files <[absfile := EmptyString]> st)
       end).
Proof.
  split.
  - intros Hn. unfold WriteFile.run, mbind, M_bind, getitem. by rewrite Hn.
  - intros folder absfile Hf Hjoin Hopen.
    assert (Hrun : WriteFile.run self st
              = match utils_substitute (PStr (WriteFile.content self)) (env st) with
                | Ok text => (Ok tt, with_files <[absfile := text]> st)
                | Raise e => (Raise e, with_files <[absfile := EmptyString]> st)
                end).
    { unfold WriteFile.run.
      rewrite (bind_Ok _ _ _ _ _ (getitem_Some _ _ _ Hf)).
      unfold mbind, M_bind, lift, open_w, get_state, write_file, modify.
      rewrite Hjoin, Hopen. cbn.
      destruct (utils_substitute _ _) as [text|e]; [|done].
      unfold with_files. cbn. by rewrite insert_insert_eq. }
    destruct (utils_substitute _ _) as [text|e]; [|done].
    split; [done|]. rewrite (bind_Ok _ _ _ _ _ Hrun).
    unfold read_file. cbn. by rewrite lookup_insert_eq.
Qed.

(** What [WriteJSON] puts into the map it writes. *)
Lemma sub_items_spec `{!External} (self : WriteJSON.t) (env : gmap string pyval)
    (items : list (string * pyval)) (acc sub_map : gmap string pyval) :
  WriteJSON.sub_items self env items acc = Ok sub_map →
  (∀ k, k ∉ items.*1 → sub_map !! k = acc !! k)
  ∧ (∀ l1 key value l2,
       items = l1 ++ (key, value) :: l2 → key ∉ l2.*1 →
       ∃ x, WriteJSON.sub_value self env key value = Ok x
            ∧ sub_map !! key = Some x).
Proof.
  revert acc. induction items as [|[k v] items IH]; intros acc Hrun.
  - cbn in Hrun. simplify_eq. split; [done|]. intros [|??] ??; discriminate.
  - cbn in Hrun.
    destruct (WriteJSON.sub_value self env k v) as [x|] eqn:Hx;
      cbn in Hrun; [|discriminate].
    apply IH in Hrun as [Hframe Hlast]. split.
    + intros k' Hk'. rewrite fmap_cons, not_elem_of_cons in Hk'.
      destruct Hk' as [Hne Hk']. rewrite (Hframe _ Hk').
      by rewrite lookup_insert_ne.
    + intros l1 key value l2 Hsplit Hl2.
      destruct l1 as [|a l1]; cbn in Hsplit; simplify_eq.
      * exists x. split; [done|]. rewrite (Hframe _ Hl2).
        apply lookup_insert_eq.
      * by eapply Hlast.
Qed.

(** X20: in the map that [WriteJSON] writes, a value that is not a
    string is the value as it was given, also when a conversion is
    registered for its key; a string has its placeholders resolved, and
    then the conversion of its key applied when there is one. *)
Theorem WriteJSON_values `{!External} (self : WriteJSON.t) (env : gmap string pyval)
    (sub_map : gmap string pyval) (l1 l2 : list (string * pyval))
    (key : string) (value : pyval) :
  WriteJSON.sub_items self env (WriteJSON.json self) ∅ = Ok sub_map →
  WriteJSON.json self = l1 ++ (key, value) :: l2 →
  key ∉ l2.*1 →
  (is_str value = false → sub_map !! key = Some value)
  ∧ (is_str value = true →
     ∃ text, utils_substitute value env = Ok text
             ∧ match WriteJSON.conversions self !! key with
               | Some conversion =>
                   ∃ x, conversion (PStr text) = Ok x ∧ sub_map !! key = Some x
               | None => sub_map !! key = Some (PStr text)
               end).
Proof.
  intros Hrun Hsplit Hkey.
  destruct (proj2 (sub_items_spec _ _ _ _ _ Hrun) _ _ _ _ Hsplit Hkey)
    as (x & Hx & Hlook).
  unfold WriteJSON.sub_value in Hx. split; intros Hs; rewrite Hs in Hx.
  - by simplify_eq.
  - unfold mbind, outcome_bind in Hx.
    destruct (utils_substitute value env) as [text|]; [|discriminate].
    exists text. split; [done|].
    destruct (WriteJSON.conversions self !! key); [by exists x|by simplify_eq].
Qed.

(** X21: [WriteJSON] resolves and converts all values before it opens
    its file: when a placeholder cannot be resolved or a conversion
    raises, the file is not touched.  Otherwise the file is replaced by
    what [json.dump] wrote, also when the dump raises part of the way. *)
Theorem WriteJSON_run_spec `{!External} `{!Library} (self : WriteJSON.t)
    (st : state) :
  (∀ e, WriteJSON.sub_items self (env st) (WriteJSON.json self) ∅ = Raise e →
        WriteJSON.run self st = (Raise e, st))
  ∧ (∀ sub_map,
       WriteJSON.sub_items self (env st) (WriteJSON.json self) ∅ = Ok sub_map →
       fs_open_w (WriteJSON.filename self) (files st) = Ok tt →
       WriteJSON.run self st
       = (match (json_dump sub_map).2 with
          | Some e => Raise e
          | None => Ok tt
          end,
          with_files <[WriteJSON.filename self := (json_dump sub_map).1]> st)).
Proof.
  split.
  - intros e He. unfold WriteJSON.run, mbind, M_bind, get_state, lift.
    by rewrite He.
  - intros sub_map Hsub Hopen.
    unfold WriteJSON.run, mbind, M_bind, get_state, lift, open_w, write_file,
      modify.
    rewrite Hsub, Hopen. cbn.
    destruct (json_dump sub_map) as [text [e|]]; cbn;
      unfold with_files; cbn; by rewrite insert_insert_eq.
Qed.

(** *** The sample iterator of [salib.py] *)

Lemma foldl_insert_sample {A} (l : list (string * A)) :
  foldl (λ (m : gmap string A) p, <[p.1 := p.2]> m) ∅ l = list_to_map (reverse l).
Proof.
  induction l as [|x l IH] using rev_ind; [done|].
  by rewrite foldl_app, reverse_snoc, IH.
Qed.

Lemma fill_enough {A} (self : SALib.samples A) (row : list A)
    (rest : list string) (i : nat) (acc : gmap string A) :
  py_index (SALib.values self) (SALib.index self) = Some row →
  i + length rest ≤ length row →
  SALib.fill self rest i acc
  = SALib.Return (foldl (λ (m : gmap string A) p, <[p.1 := p.2]> m) acc
                    (zip rest (drop i row))).
Proof.
  intros Hrow. revert i acc. induction rest as [|n rest IH]; intros i acc Hlen.
  - done.
  - cbn [SALib.fill]. rewrite Hrow. cbn [length] in Hlen.
    destruct (lookup_lt_is_Some_2 row i) as [v Hv]; [lia|].
    rewrite Hv, IH by lia. by rewrite (drop_S _ _ _ Hv).
Qed.

Lemma fill_short {A} (self : SALib.samples A) (row : list A)
    (rest : list string) (i : nat) (acc : gmap string A) :
  py_index (SALib.values self) (SALib.index self) = Some row →
  i ≤ length row → length row < i + length rest →
  SALib.fill self rest i acc = SALib.Raised SALib.IndexError.
Proof.
  intros Hrow. revert i acc. induction rest as [|n rest IH]; intros i acc Hi Hlen.
  - cbn in Hlen. lia.
  - cbn [SALib.fill]. rewrite Hrow. cbn [length] in Hlen.
    destruct (row !! i) as [v|] eqn:Hv; [|done].
    apply IH; [|lia]. apply lookup_lt_Some in Hv. lia.
Qed.

Lemma py_index_nat {A} (l : list A) (k : nat) : py_index l (Z.of_nat k) = l !! k.
Proof.
  unfold py_index. rewrite (proj2 (Z.leb_le 0 (Z.of_nat k))) by lia.
  by rewrite Nat2Z.id.
Qed.

Lemma foldl_insert_lookup {A} (l : list (string * A)) (acc : gmap string A) :
  (∀ k, k ∉ l.*1 →
     foldl (λ (m : gmap string A) p, <[p.1 := p.2]> m) acc l !! k = acc !! k)
  ∧ (∀ l1 p l2, l = l1 ++ p :: l2 → p.1 ∉ l2.*1 →
       foldl (λ (m : gmap string A) p, <[p.1 := p.2]> m) acc l !! p.1 = Some p.2).
Proof.
  revert acc. induction l as [|x l IH]; intros acc.
  - split; [done|]. intros [|??] ??; discriminate.
  - destruct (IH (<[x.1 := x.2]> acc)) as [Hframe Hlast]. split.
    + intros k Hk. rewrite fmap_cons, not_elem_of_cons in Hk.
      destruct Hk as [Hne Hk]. cbn [foldl]. rewrite (Hframe _ Hk).
      by rewrite lookup_insert_ne.
    + intros l1 p l2 Hsplit Hl2. cbn [foldl].
      destruct l1 as [|a l1]; cbn in Hsplit; simplify_eq.
      * rewrite (Hframe _ Hl2). apply lookup_insert_eq.
      * by eapply Hlast.
Qed.

(** The map of a sample, read name by name. *)
Lemma sample_map_lookup {A} (names : list string) (row : list A) :
  length names ≤ length row →
  (∀ i n, names !! i = Some n → n ∉ drop (S i) names →
     sample_map names row !! n = row !! i)
  ∧ (∀ n, n ∉ names → sample_map names row !! n = None).
Proof.
  intros Hlen. unfold sample_map. rewrite <- foldl_insert_sample.
  destruct (foldl_insert_lookup (zip names row) ∅) as [Hframe Hlast]. split.
  - intros i n Hi Hn.
    destruct (lookup_lt_is_Some_2 row i) as [v Hv].
    { apply lookup_lt_Some in Hi. lia. }
    rewrite Hv.
    assert (Hz : zip names row !! i = Some (n, v)).
    { apply lookup_zip_with_Some. by exists n, v. }
    apply (Hlast (take i (zip names row)) (n, v) (drop (S i) (zip names row))).
    + by rewrite take_drop_middle.
    + cbn. by rewrite fmap_drop, fst_zip.
  - intros n Hn. rewrite Hframe; [done|]. by rewrite fst_zip.
Qed.

(** One call of [next] on an iterator that has given [k] items. *)
Lemma next_at {A} (names : list string) (values : list (list A)) (k : nat)
    (row : list A) :
  values !! k = Some row →
  SALib.next {| SALib.index := Z.of_nat k - 1; SALib.names := names;
                SALib.values := values |}
  = (if decide (length names ≤ length row)
     then SALib.Return (sample_map names row)
     else SALib.Raised SALib.IndexError,
     {| SALib.index := Z.of_nat (S k) - 1; SALib.names := names;
        SALib.values := values |}).
Proof.
  intros Hrow. unfold SALib.next. cbn [SALib.index SALib.values SALib.names].
  apply lookup_lt_Some in Hrow as Hk.
  rewrite (proj2 (Z.leb_gt _ _)) by lia.
  replace (Z.of_nat k - 1 + 1)%Z with (Z.of_nat k) by lia.
  replace (Z.of_nat (S k) - 1)%Z with (Z.of_nat k) by lia.
  assert (Hp : py_index
                 (SALib.values {| SALib.index := Z.of_nat k; SALib.names := names;
                                  SALib.values := values |})
                 (SALib.index {| SALib.index := Z.of_nat k; SALib.names := names;
                                 SALib.values := values |}) = Some row).
  { cbn. by rewrite py_index_nat. }
  f_equal. case_decide as Hlen.
  - rewrite (fill_enough _ _ _ _ _ Hp) by (cbn; lia).
    rewrite drop_0. unfold sample_map. by rewrite foldl_insert_sample.
  - apply (fill_short _ _ _ _ _ Hp); [lia|cbn; lia].
Qed.

(** X22: one step of the sample iterator.  After [k] calls, with a
    [k]-th row that has a value for every name, the next call returns the
    map from each name to the value at its place in that row (the last
    place, for a name that occurs twice).  A row that is too short makes
    the call raise [IndexError], and the iterator has moved on all the
    same: the row is skipped, not tried again.  After the last row every
    call raises [StopIteration] and leaves the iterator as it is. *)
Theorem SALibSamples_next {A} (names : list string) (values : list (list A))
    (k : nat) :
  (∀ row, values !! k = Some row → length names ≤ length row →
     ∃ m, SALib.next {| SALib.index := Z.of_nat k - 1; SALib.names := names;
                        SALib.values := values |}
          = (SALib.Return m,
             {| SALib.index := Z.of_nat (S k) - 1; SALib.names := names;
                SALib.values := values |})
          ∧ (∀ i n, names !! i = Some n → n ∉ drop (S i) names → m !! n = row !! i)
          ∧ (∀ n, n ∉ names → m !! n = None))
  ∧ (∀ row, values !! k = Some row → length row < length names →
       SALib.next {| SALib.index := Z.of_nat k - 1; SALib.names := names;
                     SALib.values := values |}
       = (SALib.Raised SALib.IndexError,
          {| SALib.index := Z.of_nat (S k) - 1; SALib.names := names;
             SALib.values := values |}))
  ∧ (length values ≤ k →
     SALib.next {| SALib.index := Z.of_nat k - 1; SALib.names := names;
                   SALib.values := values |}
     = (SALib.Raised SALib.StopIteration,
        {| SALib.index := Z.of_nat k - 1; SALib.names := names;
           SALib.values := values |})).
Proof.
  split; [|split].
  - intros row Hrow Hlen. exists (sample_map names row).
    rewrite (next_at _ _ _ _ Hrow), decide_True by done.
    split; [done|]. by apply sample_map_lookup.
  - intros row Hrow Hlen.
    rewrite (next_at _ _ _ _ Hrow), decide_False by lia. done.
  - intros Hk. unfold SALib.next. cbn [SALib.index SALib.values].
    by rewrite (proj2 (Z.leb_le _ _)) by lia.
Qed.

(** The items that are left after [k] calls, when every row has a value
    for every name. *)
Lemma collect_from {A} (names : list string) (values : list (list A))
    (fuel k : nat) :
  Forall (λ row, length names ≤ length row) values →
  length values - k < fuel →
  SALib.collect fuel {| SALib.index := Z.of_nat k - 1; SALib.names := names;
                        SALib.values := values |}
  = Some (SALib.Return (sample_map names <$> drop k values)).
Proof.
  intros Hall. revert k. induction fuel as [|fuel IH]; intros k Hfuel.
  - lia.
  - cbn [SALib.collect].
    destruct (values !! k) as [row|] eqn:Hrow.
    + rewrite (next_at _ _ _ _ Hrow).
      rewrite decide_True by (by eapply (Forall_lookup_1 _ _ _ _ Hall)).
      apply lookup_lt_Some in Hrow as Hk.
      rewrite IH by lia. by rewrite (drop_S _ _ _ Hrow).
    + apply lookup_ge_None in Hrow.
      unfold SALib.next. cbn [SALib.index SALib.values].
      rewrite (proj2 (Z.leb_le _ _)) by lia. by rewrite drop_ge.
Qed.

(** X23: iterating over [SALibSamples(names, values)] gives one map per
    row of the values, in the order of the rows, each from the names to
    the values of its row, provided every row has a value for every
    name; there are as many items as rows, none for an empty matrix.
    The names may come as the list itself or under ["names"] in the
    problem map. *)
Theorem SALibSamples_collect {A} (problem : SALib.problem) (names : list string)
    (values : list (list A)) :
  (problem = SALib.NameList names
   ∨ ∃ fields, problem = SALib.Problem fields ∧ fields !! "names" = Some names) →
  Forall (λ row, length names ≤ length row) values →
  ∃ self, SALib.init problem values = SALib.Return self
          ∧ SALib.collect (S (length values)) self
            = Some (SALib.Return (sample_map names <$> values)).
Proof.
  intros Hp Hall.
  exists {| SALib.index := -1; SALib.names := names; SALib.values := values |}.
  split.
  - destruct Hp as [->|(fields & -> & Hf)]; [done|]. cbn. by rewrite Hf.
  - rewrite <- (drop_0 values) at 3.
    apply (collect_from names values (S (length values)) 0); [done|lia].
Qed.

(** X24: [convert_to_numpy] returns an array exactly when every map of
    the output has the field, with a value that is either a list that
    has an item at [index] or not a list, and that item, or the value,
    can be stored as a number; the array then has one number per map, in
    the order of the maps. *)
Theorem convert_to_numpy_spec {F} (to_float : pyval → SALib.result F)
    (output : list (gmap string pyval)) (field : string) (index : Z)
    (array : list F) :
  SALib.convert_to_numpy to_float output field index = SALib.Return array
  ↔ Forall2 (λ map y, ∃ value x, map !! field = Some value
                                 ∧ selected index value = Some x
                                 ∧ to_float x = SALib.Return y) output array.
Proof.
  unfold SALib.convert_to_numpy.
  assert (Hfill : ∀ arr,
            SALib.fill_array to_float output field index = SALib.Return arr
            ↔ Forall2 (λ map y, ∃ value x, map !! field = Some value
                                           ∧ selected index value = Some x
                                           ∧ to_float x = SALib.Return y) output arr).
  { induction output as [|map output IH]; intros arr.
    - cbn. split; [intros ?; simplify_eq; constructor|by intros ->%Forall2_nil_inv_l].
    - cbn [SALib.fill_array]. split.
      + destruct (map !! field) as [value|] eqn:Hv; [|discriminate].
        assert (Hsel : ∀ x, match value with
                            | PList l => match py_index l index with
                                         | Some x => SALib.Return x
                                         | None => SALib.Raised SALib.IndexError
                                         end
                            | _ => SALib.Return value
                            end = SALib.Return x → selected index value = Some x).
        { intros x. destruct value; cbn; try (intros ?; by simplify_eq).
          destruct (py_index l index); intros ?; by simplify_eq. }
        destruct (match value with PList _ => _ | _ => _ end) as [x|];
          [|discriminate].
        specialize (Hsel x eq_refl).
        destruct (to_float x) as [y|] eqn:Hy; [|discriminate].
        destruct (SALib.fill_array to_float output field index) as [ys|];
          [|discriminate].
        intros ?; simplify_eq. constructor; [by exists value, x|by apply IH].
      + intros (y & ys & (value & x & Hv & Hsel & Hy) & Hrest & ->)%Forall2_cons_inv_l.
        rewrite Hv.
        assert (match value with
                | PList l => match py_index l index with
                             | Some x => SALib.Return x
                             | None => SALib.Raised SALib.IndexError
                             end
                | _ => SALib.Return value
                end = SALib.Return x) as ->.
        { destruct value; cbn in Hsel; simplify_eq; try done. by rewrite Hsel. }
        rewrite Hy. apply IH in Hrest. by rewrite Hrest. }
  destruct output as [|map output]; [|apply Hfill].
  cbn. split; [intros ?; simplify_eq; constructor|by intros ->%Forall2_nil_inv_l].
Qed.

(** *** What a failing extraction leaves behind *)

(** X25: the tree-path and structure-path tasks store field after
    field, without rollback: when a binding fails, the run raises the
    exception of that binding and ends in the state that the bindings
    before it have built; the bindings after it are not looked at. *)
Theorem extraction_stops_at_failure `{!External} (file : string) (st st1 : state)
    (l1 l2 : list (string * string * conversion_fn))
    (xpath key : string) (conversion : conversion_fn) (e : exn) :
  (ParseXML.run {| ParseXML.file := file; ParseXML.fields := l1 |} st = (Ok tt, st1) →
   (∀ content tree, files st !! file = Some content →
      etree_parse content = Ok tree →
      (values ← etree_xpath tree xpath; stored_value conversion values) = Raise e) →
   ParseXML.run {| ParseXML.file := file;
                   ParseXML.fields := l1 ++ (xpath, key, conversion) :: l2 |} st
   = (Raise e, st1))
  ∧ (ParseJSON.run {| ParseJSON.file := file; ParseJSON.fields := l1 |} st
     = (Ok tt, st1) →
     (∀ f content, files st !! file = Some f →
        json_load f = Ok content →
        (values ← jsonpath_find xpath content; json_stored_value conversion values)
        = Raise e) →
     ParseJSON.run {| ParseJSON.file := file;
                      ParseJSON.fields := l1 ++ (xpath, key, conversion) :: l2 |} st
     = (Raise e, st1)).
Proof.
  split.
  - intros Hrun Hfail.
    assert (Hshape : ∀ fields,
              ParseXML.run {| ParseXML.file := file; ParseXML.fields := fields |} st
              = match files st !! file with
                | Some content =>
                    match etree_parse content with
                    | Ok tree =>
                        for_each fields (λ '(xpath, key, conversion),
                          values ← lift (etree_xpath tree xpath);
                          store_matches key conversion values) st
                    | Raise e => (Raise e, st)
                    end
                | None => (Raise IOError, st)
                end).
    { intros fields. unfold ParseXML.run, mbind, M_bind, read_file, lift. cbn.
      destruct (files st !! file) as [content|]; [|done].
      by destruct (etree_parse content). }
    rewrite Hshape in Hrun |- *.
    destruct (files st !! file) as [content|] eqn:Hfile; [|discriminate].
    destruct (etree_parse content) as [tree|] eqn:Htree; [|discriminate].
    specialize (Hfail _ _ eq_refl Htree).
    rewrite for_each_app, (bind_Ok _ _ _ _ _ Hrun). cbn [for_each].
    unfold mbind, M_bind, lift. unfold mbind, outcome_bind in Hfail.
    destruct (etree_xpath tree xpath) as [values|]; [|by simplify_eq].
    by rewrite store_matches_eq, Hfail.
  - intros Hrun Hfail.
    assert (Hshape : ∀ fields,
              ParseJSON.run {| ParseJSON.file := file; ParseJSON.fields := fields |} st
              = match files st !! file with
                | Some f =>
                    match json_load f with
                    | Ok content =>
                        for_each fields (λ '(xpath, key, conversion),
                          values ← lift (jsonpath_find xpath content);
                          ParseJSON.store key conversion values) st
                    | Raise e => (Raise e, st)
                    end
                | None => (Raise IOError, st)
                end).
    { intros fields. unfold ParseJSON.run, mbind, M_bind, read_file, lift. cbn.
      destruct (files st !! file) as [f|]; [|done].
      by destruct (json_load f). }
    rewrite Hshape in Hrun |- *.
    destruct (files st !! file) as [f|] eqn:Hfile; [|discriminate].
    destruct (json_load f) as [content|] eqn:Hload; [|discriminate].
    specialize (Hfail _ _ eq_refl Hload).
    rewrite for_each_app, (bind_Ok _ _ _ _ _ Hrun). cbn [for_each].
    unfold mbind, M_bind, lift. unfold mbind, outcome_bind in Hfail.
    destruct (jsonpath_find xpath content) as [values|]; [|by simplify_eq].
    by rewrite ParseJSON_store_eq, Hfail.
Qed.

(** X26: the row-filter task evaluates every query on every row before
    it stores anything: a run that raises has either changed nothing, or
    read and evaluated all rows and failed while converting the
    results. *)
Theorem ParseCSV_raises_late `{!External} (self : ParseCSV.t) (st st' : state)
    (e : exn) :
  ParseCSV.run self st = (Raise e, st') →
  st' = st
  ∨ ∃ f rows l,
      files st !! ParseCSV.file self = Some f
      ∧ csv_DictReader f (ParseCSV.kwargs self) = Ok rows
      ∧ ParseCSV.scan rows (ParseCSV.fields self)
          {| ParseCSV.results := []; ParseCSV.conversion := None |} = Ok l
      ∧ for_each (ParseCSV.results l) (ParseCSV.collapse l) st = (Raise e, st').
Proof.
  unfold ParseCSV.run, mbind, M_bind, read_file, lift.
  destruct (files st !! ParseCSV.file self) as [f|] eqn:Hfile;
    [|intros ?; simplify_eq; by left].
  destruct (csv_DictReader f (ParseCSV.kwargs self)) as [rows|] eqn:Hrows;
    [|intros ?; simplify_eq; by left].
  destruct (ParseCSV.scan rows (ParseCSV.fields self) _) as [l|] eqn:Hscan;
    [|intros ?; simplify_eq; by left].
  intros Hrun. right. by exists f, rows, l.
Qed.

(** *** A session on a channel *)

(** The state that [Connect] leaves when its collaborators play along. *)
Lemma Connect_run_connects `{!External} (self : Connect.t) (st : state)
    (server : string) (port : pyval) (p : Z) (data : string) :
  env st !! "SOCKET" = None →
  utils_substitute (Connect.server self) (env st) = Ok server →
  (if is_str (Connect.port self)
   then PStr <$> utils_substitute (Connect.port self) (env st)
   else Ok (Connect.port self)) = Ok port →
  py_int port = Ok p →
  net_connect server p = Ok data →
  Connect.run self st
  = (Ok tt,
     {| env := <["STDOUT" := PStringIO (length (bufs st))]>
                 (<["SOCKET_FILE" := PSockFile (length (socks st))]>
                    (<["SOCKET" := PSocket (length (socks st))]> (env st)));
        procs := procs st;
        socks := socks st ++ [{| incoming := data; wr_shutdown := false;
                                 closed := false |}];
        bufs := bufs st ++ [{| buf := EmptyString; pos := 0 |}];
        files := files st;
        trace := trace st ++ [EvConnect (length (socks st)) server p] |}).
Proof.
  intros Hs Hserver Hport Hint Hconn. unfold Connect.run.
  rewrite (bind_Ok _ _ _ _ _ (contains_None _ _ Hs)).
  unfold mbind, M_bind, get_state, lift, socket_connect, StringIO_new,
    setitem, modify, fmap, outcome_fmap in *. cbn.
  rewrite Hserver. cbn.
  destruct (is_str (Connect.port self)); cbn.
  - destruct (utils_substitute (Connect.port self) (env st)); simplify_eq. cbn.
    by rewrite Hint, Hconn.
  - simplify_eq. by rewrite Hint, Hconn.
Qed.

(** X27: a whole session on a channel.  From a context without channel,
    [Connect], then [Receive] of [n] lines, then [Disconnect] do not
    raise when the connection is made; afterwards the [SOCKET] key is
    gone and the socket is closed, while [STDOUT] still names the new
    capture buffer, which holds what the [n] reads returned of the data
    of the peer, its cursor at the start. *)
Theorem channel_session `{!External} (self : Connect.t) (recv : Receive.t)
    (st : state) (server : string) (port : pyval) (p : Z) (data : string) :
  env st !! "SOCKET" = None →
  utils_substitute (Connect.server self) (env st) = Ok server →
  (if is_str (Connect.port self)
   then PStr <$> utils_substitute (Connect.port self) (env st)
   else Ok (Connect.port self)) = Ok port →
  py_int port = Ok p →
  net_connect server p = Ok data →
  ∃ st', (Connect.run self;; Receive.run recv;; Disconnect.run) st = (Ok tt, st')
         ∧ env st' !! "SOCKET" = None
         ∧ env st' !! "STDOUT" = Some (PStringIO (length (bufs st)))
         ∧ bufs st' !! length (bufs st)
           = Some {| buf := join (read_lines (Z.to_nat (Receive.numlines recv)) data).1;
                     pos := 0 |}
         ∧ socks st' !! length (socks st)
           = Some {| incoming := (read_lines (Z.to_nat (Receive.numlines recv)) data).2;
                     wr_shutdown := true; closed := true |}.
Proof.
  intros Hs Hserver Hport Hint Hconn.
  rewrite (bind_Ok _ _ _ _ _
             (Connect_run_connects _ _ _ _ _ _ Hs Hserver Hport Hint Hconn)).
  erewrite bind_Ok; cycle 1.
  { eapply Receive_run_open with (b := length (bufs st)) (s := length (socks st)).
    - cbn. rewrite !lookup_insert_ne by done. apply lookup_insert_eq.
    - cbn. apply lookup_insert_eq.
    - cbn. rewrite lookup_insert_ne by done. apply lookup_insert_eq.
    - cbn. by rewrite lookup_app_r, Nat.sub_diag.
    - cbn. by rewrite lookup_app_r, Nat.sub_diag. }
  erewrite Disconnect_run_open; cycle 1.
  { cbn. rewrite !lookup_insert_ne by done. apply lookup_insert_eq. }
  { cbn. apply list_lookup_insert_eq. rewrite length_app. cbn. lia. }
  { done. }
  eexists. split; [reflexivity|]. cbn.
  split; [apply lookup_delete_eq|].
  split; [rewrite lookup_delete_ne by done; apply lookup_insert_eq|].
  split.
  - apply list_lookup_insert_eq. rewrite length_app. cbn. lia.
  - rewrite list_insert_insert_eq.
    apply list_lookup_insert_eq. rewrite length_app. cbn. lia.
Qed.

(** *** The further properties at work *)

#[local] Existing Instance Sample.library.

Lemma Connect_run_fresh_witness :
  env Demo.start !! "SOCKET" = None
  ∧ Connect.run Sample.connect Demo.start = (Ok tt, Demo.connected)
  ∧ env Demo.connected
    = <["STDOUT" := PStringIO 0]>
        (<["SOCKET_FILE" := PSockFile 0]> (<["SOCKET" := PSocket 0]> (env Demo.start)))
  ∧ bufs Demo.connected = [{| buf := EmptyString; pos := 0 |}].
Proof.
  split; [reflexivity|].
  assert (Hrun : Connect.run Sample.connect Demo.start = (Ok tt, Demo.connected))
    by (vm_compute; reflexivity).
  split; [exact Hrun|].
  destruct (proj1 (Connect_run_fresh Sample.connect Demo.start eq_refl) _ Hrun)
    as (Henv & _ & Hbufs & _).
  split; [exact Henv|exact Hbufs].
Defined.

Lemma Connect_init_spec_witness :
  "localhost:8000" ≠ EmptyString
  ∧ ∃ host p,
      "localhost:8000" = host +:+ ":" +:+ p
      ∧ has_char ":" host = false ∧ has_char ":" p = false
      ∧ Connect.init (PStr "localhost:8000") PNone (PInt 1)
        = Ok {| Connect.server := PStr host; Connect.port := PStr p |}.
Proof.
  assert (H : "localhost:8000" ≠ EmptyString) by discriminate.
  split; [exact H|].
  exact (proj1 (Connect_init_spec PNone (PInt 1)) "localhost:8000" H).
Defined.

Lemma Receive_requires_socket_witness :
  env Demo.start !! "SOCKET" = None
  ∧ Receive.run Receive.default Demo.start
    = (Raise (TaskError "SOCKET not defined, call Connect first"), Demo.start)
  ∧ env Demo.connected !! "SOCKET" = Some (PSocket 0)
  ∧ (∃ st', (Disconnect.run;; Receive.run Receive.default) Demo.connected
            = (Raise (TaskError "SOCKET not defined, call Connect first"), st')
            ∧ env st' !! "STDOUT" = Some (PStringIO 0)).
Proof.
  split; [reflexivity|].
  split; [exact (proj1 (Receive_requires_socket Receive.default Demo.start) eq_refl)|].
  split; [reflexivity|].
  destruct (proj2 (Receive_requires_socket Receive.default Demo.connected) 0 _
              eq_refl eq_refl eq_refl) as (Hrun & _ & Hout & _).
  eexists. split; [exact Hrun|]. rewrite Hout. reflexivity.
Defined.

Lemma Receive_conserves_data_witness :
  env Demo.connected !! "SOCKET" = Some (PSocket 0)
  ∧ env Demo.connected !! "STDOUT" = Some (PStringIO 0)
  ∧ env Demo.connected !! "SOCKET_FILE" = Some (PSockFile 0)
  ∧ bufs Demo.connected !! 0 = Some {| buf := EmptyString; pos := 0 |}
  ∧ socks Demo.connected !! 0
    = Some {| incoming := "ok" +:+ Demo.nl; wr_shutdown := false; closed := false |}
  ∧ ∃ st' appended sb' sk',
      Receive.run Receive.default Demo.connected = (Ok tt, st')
      ∧ bufs st' !! 0 = Some sb'
      ∧ socks st' !! 0 = Some sk'
      ∧ buf sb' = EmptyString +:+ appended
      ∧ appended +:+ incoming sk' = "ok" +:+ Demo.nl.
Proof.
  do 5 (split; [reflexivity|]).
  exact (Receive_conserves_data Receive.default Demo.connected _ 0 0 _ _
           eq_refl eq_refl eq_refl eq_refl eq_refl).
Defined.

Lemma Receive_twice_witness :
  env Demo.connected !! "SOCKET" = Some (PSocket 0)
  ∧ env Demo.connected !! "STDOUT" = Some (PStringIO 0)
  ∧ env Demo.connected !! "SOCKET_FILE" = Some (PSockFile 0)
  ∧ bufs Demo.connected !! 0 = Some {| buf := EmptyString; pos := 0 |}
  ∧ socks Demo.connected !! 0
    = Some {| incoming := "ok" +:+ Demo.nl; wr_shutdown := false; closed := false |}
  ∧ (0 ≤ 1)%Z
  ∧ (Receive.run {| Receive.name := "STDOUT"; Receive.numlines := 1 |};;
     Receive.run {| Receive.name := "STDOUT"; Receive.numlines := 1 |}) Demo.connected
    = Receive.run {| Receive.name := "STDOUT"; Receive.numlines := 1 + 1 |}
        Demo.connected.
Proof.
  do 5 (split; [reflexivity|]). split; [lia|].
  apply (Receive_twice "STDOUT" "STDOUT" "STDOUT" 1 1 Demo.connected _ 0 0 _ _
           eq_refl eq_refl eq_refl eq_refl eq_refl); lia.
Defined.

Lemma Receive_nothing_witness :
  env Demo.connected !! "SOCKET" = Some (PSocket 0)
  ∧ env Demo.connected !! "STDOUT" = Some (PStringIO 0)
  ∧ env Demo.connected !! "SOCKET_FILE" = Some (PSockFile 0)
  ∧ bufs Demo.connected !! 0 = Some {| buf := EmptyString; pos := 0 |}
  ∧ socks Demo.connected !! 0
    = Some {| incoming := "ok" +:+ Demo.nl; wr_shutdown := false; closed := false |}
  ∧ (-3 ≤ 0)%Z
  ∧ Receive.run {| Receive.name := "STDOUT"; Receive.numlines := -3 |} Demo.connected
    = (Ok tt, Demo.connected).
Proof.
  do 5 (split; [reflexivity|]). split; [lia|].
  apply (Receive_nothing {| Receive.name := "STDOUT"; Receive.numlines := -3 |}
           Demo.connected _ 0 0 _ _ eq_refl eq_refl eq_refl eq_refl eq_refl).
  cbn. lia.
Defined.

Lemma Execute_then_check_witness :
  Execute.run (Execute.init "false") Demo.start = (Ok tt, Demo.executed)
  ∧ ∃ o st2,
      (Execute.run (Execute.init "false");; CheckExitCode.run CheckExitCode.default)
        Demo.start = (o, st2)
      ∧ env st2 !! "EXIT_CODE" = Some (PInt 1)
      ∧ trace st2 = [EvSpawn 0; EvMonitor 0 PNone; EvWait 0]
      ∧ ∃ msg, o = Raise (TaskError msg).
Proof.
  assert (Hrun : Execute.run (Execute.init "false") Demo.start
                 = (Ok tt, Demo.executed)) by (vm_compute; reflexivity).
  split; [exact Hrun|].
  destruct (Execute_then_check (Execute.init "false") CheckExitCode.default
              Demo.start Demo.executed Hrun)
    as (pr & o & st2 & Hpr & _ & Hboth & Hcode & Htrace & Hiff & Hor).
  vm_compute in Hpr. injection Hpr as <-.
  exists o, st2. split; [exact Hboth|]. split; [exact Hcode|].
  split; [exact Htrace|].
  destruct Hor as [->|Hmsg]; [|exact Hmsg].
  apply proj1 in Hiff. specialize (Hiff eq_refl). vm_compute in Hiff. discriminate.
Defined.

Lemma CheckExitCode_twice_witness :
  env Demo.executed !! "PROCESS" = Some (PProcess 0)
  ∧ procs Demo.executed !! 0
    = Some {| argv := ["false"]; stdout_pipe := Some EmptyString;
              stderr_pipe := Some EmptyString; monitor := Some PNone |}
  ∧ ∃ o st1,
      CheckExitCode.run CheckExitCode.default Demo.executed = (o, st1)
      ∧ env st1 !! "PROCESS" = Some (PProcess 0)
      ∧ CheckExitCode.run CheckExitCode.default st1 = (o, log_event (EvWait 0) st1).
Proof.
  split; [reflexivity|]. split; [reflexivity|].
  destruct (CheckExitCode.run CheckExitCode.default Demo.executed) as [o st1] eqn:Hrun.
  exists o, st1. split; [reflexivity|].
  exact (CheckExitCode_twice CheckExitCode.default Demo.executed st1 0 _ o
           eq_refl eq_refl Hrun).
Defined.

Lemma extraction_frame_witness :
  ∃ st', ParseXML.run Demo.xml_task Demo.start = (Ok tt, st')
         ∧ "x" ∉ binding_keys (ParseXML.fields Demo.xml_task)
         ∧ env st' !! "x" = Some (PStr "42")
         ∧ trace st' = [].
Proof.
  exists (ParseXML.run Demo.xml_task Demo.start).2.
  assert (Hrun : ParseXML.run Demo.xml_task Demo.start
                 = (Ok tt, (ParseXML.run Demo.xml_task Demo.start).2))
    by (vm_compute; reflexivity).
  split; [exact Hrun|].
  assert (Hk : "x" ∉ binding_keys (ParseXML.fields Demo.xml_task)).
  { intros Hin. vm_compute in Hin.
    repeat (apply elem_of_cons in Hin as [Hin|Hin]; [discriminate|]).
    by apply elem_of_nil in Hin. }
  split; [exact Hk|].
  destruct (proj1 (extraction_frame Demo.start _) Demo.xml_task Hrun)
    as [Hsame Hkeys].
  split; [rewrite (Hkeys "x" Hk); reflexivity|].
  reflexivity.
Defined.

Lemma cleanup_stripped_witness :
  ParseCSV.cleanup [(PStr " a ", PStr " 1 "); (PStr "b", PInt 2)] ∅
  = Ok {[ "a" := PStr "1"; "b" := PInt 2 ]}
  ∧ strip "a" = "a"
  ∧ (∀ s, PStr "1" = PStr s → strip s = s)
  ∧ Forall (λ kv : pyval * pyval, is_str kv.1 = true)
      [(PStr " a ", PStr " 1 "); (PStr "b", PInt 2)].
Proof.
  assert (Hrow : ParseCSV.cleanup [(PStr " a ", PStr " 1 "); (PStr "b", PInt 2)] ∅
                 = Ok {[ "a" := PStr "1"; "b" := PInt 2 ]})
    by (vm_compute; reflexivity).
  split; [exact Hrow|].
  destruct (cleanup_stripped [(PStr " a ", PStr " 1 "); (PStr "b", PInt 2)])
    as [Hstrip Hiff].
  destruct (Hstrip _ Hrow "a" (PStr "1") eq_refl) as [Hk Hv].
  split; [exact Hk|]. split; [exact Hv|].
  apply Hiff. eexists. exact Hrow.
Defined.

Lemma ParseLine_run_names_witness :
  ParseLine.name Sample.two_names = ParseLine.Names ["a"; "b"]
  ∧ env Sample.captured !! "STDOUT" = Some (PStringIO 0)
  ∧ method_split None ("3 4" +:+ Demo.nl) = Ok ["3"; "4"]
  ∧ ∃ st', ParseLine.run Sample.two_names Sample.captured = (Ok tt, st')
           ∧ env st' !! "a" = Some (PInt 3)
           ∧ env st' !! "b" = Some (PInt 4)
           ∧ env st' !! "STDOUT" = Some (PStringIO 0).
Proof.
  split; [reflexivity|]. split; [reflexivity|]. split; [vm_compute; reflexivity|].
  destruct (ParseLine_run_names Sample.two_names ["a"; "b"] Sample.captured
              (file_readline (PStringIO 0) Sample.captured).2
              (PStringIO 0) ("3 4" +:+ Demo.nl) ["3"; "4"] [PInt 3; PInt 4]
              eq_refl eq_refl) as [_ Hsame];
    [vm_compute; reflexivity|vm_compute; reflexivity|vm_compute; reflexivity|].
  destruct (Hsame eq_refl) as (st' & Hrun & _ & Hother & Hnames).
  exists st'. split; [exact Hrun|].
  split.
  { apply (Hnames 0 "a" eq_refl). cbn.
    intros Hin. apply list_elem_of_singleton in Hin. discriminate. }
  split.
  { apply (Hnames 1 "b" eq_refl). cbn. apply not_elem_of_nil. }
  rewrite Hother; [reflexivity|].
  intros Hin. repeat (apply elem_of_cons in Hin as [Hin|Hin]; [discriminate|]).
  by apply elem_of_nil in Hin.
Defined.

Lemma Receive_then_ParseLine_witness :
  env Demo.connected !! "SOCKET" = Some (PSocket 0)
  ∧ env Demo.connected !! "STDOUT" = Some (PStringIO 0)
  ∧ env Demo.connected !! "SOCKET_FILE" = Some (PSockFile 0)
  ∧ (1 ≤ Receive.numlines Receive.default)%Z
  ∧ ∃ st',
      (Receive.run Receive.default;;
       ParseLine.run {| ParseLine.name := ParseLine.Name "output";
                        ParseLine.delimiters := None;
                        ParseLine.type := Demo.conv_str |}) Demo.connected
      = (Ok tt, st')
      ∧ env st' = <["output" := PList [PStr "ok"]]> (env Demo.connected).
Proof.
  do 3 (split; [reflexivity|]). split; [cbn; lia|].
  destruct (Receive_then_ParseLine Receive.default
               {| ParseLine.name := ParseLine.Name "output";
                  ParseLine.delimiters := None;
                  ParseLine.type := Demo.conv_str |}
               "output" Demo.connected (PSocket 0) 0 0
               {| buf := EmptyString; pos := 0 |}
               {| incoming := "ok" +:+ Demo.nl; wr_shutdown := false;
                  closed := false |}
               ["ok"] [PStr "ok"]
               eq_refl eq_refl eq_refl eq_refl eq_refl eq_refl)
    as (st' & Hrun & Henv & _);
    [cbn; lia|reflexivity|vm_compute; reflexivity|vm_compute; reflexivity|].
  exists st'. split; [exact Hrun|exact Henv].
Defined.

Lemma Format_run_spec_witness :
  env Sample.workspace !! "x" = Some (PStr "42")
  ∧ Format.run {| Format.name := "x"; Format.format := Format.Template "v={}";
                  Format.rename := Some "y" |} Sample.workspace
    = (Ok tt, with_env <["y" := PStr "v=42"]> Sample.workspace)
  ∧ env (with_env <["y" := PStr "v=42"]> Sample.workspace) !! "x" = Some (PStr "42")
  ∧ Format.run {| Format.name := "z"; Format.format := Format.Template "v={}";
                  Format.rename := None |} Sample.workspace
    = (Raise (TaskError "z is not set in environment"), Sample.workspace).
Proof.
  split; [reflexivity|].
  assert (Hrun : Format.run {| Format.name := "x";
                               Format.format := Format.Template "v={}";
                               Format.rename := Some "y" |} Sample.workspace
                 = (Ok tt, with_env <["y" := PStr "v=42"]> Sample.workspace))
    by (vm_compute; reflexivity).
  split; [exact Hrun|].
  destruct (Format_run_spec {| Format.name := "x";
                               Format.format := Format.Template "v={}";
                               Format.rename := Some "y" |} Sample.workspace)
    as (_ & Hset & _).
  destruct (Hset (PStr "42") _ eq_refl Hrun) as (x & _ & _ & Hkept).
  split; [apply (Hkept "y" eq_refl); discriminate|].
  exact (proj1 (Format_run_spec {| Format.name := "z";
                                   Format.format := Format.Template "v={}";
                                   Format.rename := None |} Sample.workspace)
           eq_refl).
Defined.

Lemma DeleteTempDir_keeps_key_witness :
  tempfile_mkdtemp (files Demo.start) = Ok "/tmp/run0"
  ∧ env Demo.start !! "WORK_DIR" = None
  ∧ DeleteTempDir.run Demo.start
    = (Raise (TaskError "WORK_DIR not defined"), Demo.start)
  ∧ ∃ st', (CreateTempDir.run;; DeleteTempDir.run) Demo.start = (Ok tt, st')
           ∧ env st' !! "WORK_DIR" = Some (PStr "/tmp/run0").
Proof.
  split; [reflexivity|]. split; [reflexivity|].
  destruct (DeleteTempDir_keeps_key Demo.start) as (Hnone & _ & Hboth).
  split; [exact (Hnone eq_refl)|].
  destruct (Hboth "/tmp/run0" eq_refl) as (st' & Hrun & Henv & _).
  exists st'. split; [exact Hrun|]. rewrite Henv. reflexivity.
Defined.

Lemma work_dir_default_witness :
  env Sample.workspace !! "WORK_DIR" = Some (PStr "/tmp/run0")
  ∧ Copy.run {| Copy.fromDir := "/model"; Copy.toDir := None |} Sample.workspace
    = Copy.run {| Copy.fromDir := "/model"; Copy.toDir := Some "/tmp/run0" |}
        Sample.workspace
  ∧ env Demo.start !! "WORK_DIR" = None
  ∧ Copy.run {| Copy.fromDir := "/model"; Copy.toDir := None |} Demo.start
    = (Raise (TaskError "WORK_DIR not defined"), Demo.start).
Proof.
  split; [reflexivity|].
  split; [exact (proj1 (work_dir_default Sample.workspace) "/model" "/tmp/run0" eq_refl)|].
  split; [reflexivity|].
  destruct (work_dir_default Demo.start) as (_ & _ & Hnone & _).
  exact (proj1 (Hnone eq_refl) "/model").
Defined.

Lemma WriteFile_run_spec_witness :
  env Sample.workspace !! "WORK_DIR" = Some (PStr "/tmp/run0")
  ∧ path_join (PStr "/tmp/run0") "in.txt" = Ok "/tmp/run0/in.txt"
  ∧ files Sample.workspace !! "/tmp/run0/in.txt" = Some "old"
  ∧ @WriteFile.run Sample.external Sample.library
      {| WriteFile.file := "in.txt"; WriteFile.content := "v=${missing}" |}
      Sample.workspace
    = (Raise (KeyError "missing"),
       with_files <["/tmp/run0/in.txt" := EmptyString]> Sample.workspace)
  ∧ @WriteFile.run Sample.external Sample.library
      {| WriteFile.file := "in.txt"; WriteFile.content := "v=${x}" |}
      Sample.workspace
    = (Ok tt, with_files <["/tmp/run0/in.txt" := "v=42"]> Sample.workspace).
Proof.
  split; [reflexivity|].
  assert (Hpath : path_join (PStr "/tmp/run0") "in.txt" = Ok "/tmp/run0/in.txt")
    by (vm_compute; reflexivity).
  split; [exact Hpath|]. split; [reflexivity|].
  split.
  - pose proof (proj2 (@WriteFile_run_spec Sample.external Sample.library
                         {| WriteFile.file := "in.txt";
                            WriteFile.content := "v=${missing}" |}
                         Sample.workspace)
                  (PStr "/tmp/run0") "/tmp/run0/in.txt" eq_refl Hpath eq_refl) as H.
    assert (Hsub : @utils_substitute Sample.external
                     (PStr (WriteFile.content
                              {| WriteFile.file := "in.txt";
                                 WriteFile.content := "v=${missing}" |}))
                     (env Sample.workspace)
                   = Raise (KeyError "missing")) by (vm_compute; reflexivity).
    rewrite Hsub in H. exact H.
  - pose proof (proj2 (@WriteFile_run_spec Sample.external Sample.library
                         {| WriteFile.file := "in.txt";
                            WriteFile.content := "v=${x}" |}
                         Sample.workspace)
                  (PStr "/tmp/run0") "/tmp/run0/in.txt" eq_refl Hpath eq_refl) as H.
    assert (Hsub : @utils_substitute Sample.external
                     (PStr (WriteFile.content
                              {| WriteFile.file := "in.txt";
                                 WriteFile.content := "v=${x}" |}))
                     (env Sample.workspace)
                   = Ok "v=42") by (vm_compute; reflexivity).
    rewrite Hsub in H. exact (proj1 H).
Defined.

Lemma WriteJSON_values_witness :
  @WriteJSON.sub_items Sample.external Sample.write_json (env Sample.workspace)
    (WriteJSON.json Sample.write_json) ∅
  = Ok {[ "n" := PInt 3; "s" := PInt 42 ]}
  ∧ WriteJSON.conversions Sample.write_json !! "n" = Some Demo.conv_str
  ∧ ({[ "n" := PInt 3; "s" := PInt 42 ]} : gmap string pyval) !! "n" = Some (PInt 3)
  ∧ ({[ "n" := PInt 3; "s" := PInt 42 ]} : gmap string pyval) !! "s" = Some (PInt 42).
Proof.
  assert (Hsub : @WriteJSON.sub_items Sample.external Sample.write_json
                   (env Sample.workspace) (WriteJSON.json Sample.write_json) ∅
                 = Ok {[ "n" := PInt 3; "s" := PInt 42 ]})
    by (vm_compute; reflexivity).
  split; [exact Hsub|]. split; [reflexivity|].
  split.
  - refine (proj1 (@WriteJSON_values Sample.external Sample.write_json
                     (env Sample.workspace) _ [] [("s", PStr "${x}")] "n" (PInt 3)
                     Hsub eq_refl _) eq_refl).
    cbn. intros Hin. apply list_elem_of_singleton in Hin. discriminate.
  - reflexivity.
Defined.

Lemma WriteJSON_run_spec_witness :
  @WriteJSON.sub_items Sample.external
    {| WriteJSON.json := [("s", PStr "${missing}")]; WriteJSON.filename := "in.json";
       WriteJSON.conversions := ∅ |}
    (env Sample.workspace) [("s", PStr "${missing}")] ∅
  = Raise (KeyError "missing")
  ∧ @WriteJSON.run Sample.external Sample.library
      {| WriteJSON.json := [("s", PStr "${missing}")]; WriteJSON.filename := "in.json";
         WriteJSON.conversions := ∅ |} Sample.workspace
    = (Raise (KeyError "missing"), Sample.workspace)
  ∧ @WriteJSON.run Sample.external Sample.library Sample.write_json Sample.workspace
    = (Ok tt, with_files <["in.json" := "s=42;n=3;"]> Sample.workspace).
Proof.
  assert (Hsub : @WriteJSON.sub_items Sample.external
                   {| WriteJSON.json := [("s", PStr "${missing}")];
                      WriteJSON.filename := "in.json";
                      WriteJSON.conversions := ∅ |}
                   (env Sample.workspace) [("s", PStr "${missing}")] ∅
                 = Raise (KeyError "missing")) by (vm_compute; reflexivity).
  split; [exact Hsub|].
  split.
  - exact (proj1 (@WriteJSON_run_spec Sample.external Sample.library
                    {| WriteJSON.json := [("s", PStr "${missing}")];
                       WriteJSON.filename := "in.json";
                       WriteJSON.conversions := ∅ |} Sample.workspace)
             (KeyError "missing") Hsub).
  - assert (Hok : @WriteJSON.sub_items Sample.external Sample.write_json
                    (env Sample.workspace) (WriteJSON.json Sample.write_json) ∅
                  = Ok {[ "n" := PInt 3; "s" := PInt 42 ]})
      by (vm_compute; reflexivity).
    rewrite (proj2 (@WriteJSON_run_spec Sample.external Sample.library
                      Sample.write_json Sample.workspace) _ Hok eq_refl).
    vm_compute. reflexivity.
Defined.

Lemma SALibSamples_next_witness :
  Sample.matrix !! 0 = Some [1; 2]%Z
  ∧ ∃ m, SALib.next {| SALib.index := -1; SALib.names := ["a"; "b"];
                       SALib.values := Sample.matrix |}
         = (SALib.Return m,
            {| SALib.index := 0; SALib.names := ["a"; "b"];
               SALib.values := Sample.matrix |})
         ∧ m !! "a" = Some 1%Z ∧ m !! "b" = Some 2%Z ∧ m !! "c" = None.
Proof.
  split; [reflexivity|].
  destruct (proj1 (SALibSamples_next ["a"; "b"] Sample.matrix 0) [1; 2]%Z eq_refl)
    as (m & Hnext & Hnames & Hother); [cbn; lia|].
  exists m. split; [exact Hnext|].
  split.
  { apply (Hnames 0 "a" eq_refl). cbn.
    intros Hin. apply list_elem_of_singleton in Hin. discriminate. }
  split.
  { apply (Hnames 1 "b" eq_refl). cbn. apply not_elem_of_nil. }
  apply Hother.
  intros Hin. repeat (apply elem_of_cons in Hin as [Hin|Hin]; [discriminate|]).
  by apply elem_of_nil in Hin.
Defined.

Lemma SALibSamples_collect_witness :
  Forall (λ row : list Z, length ["a"; "b"] ≤ length row) Sample.matrix
  ∧ ∃ self,
      SALib.init (SALib.Problem {[ "names" := ["a"; "b"] ]}) Sample.matrix
      = SALib.Return self
      ∧ SALib.collect 3 self
        = Some (SALib.Return [sample_map ["a"; "b"] [1; 2]%Z;
                              sample_map ["a"; "b"] [3; 4]%Z]).
Proof.
  assert (Hrows : Forall (λ row : list Z, length ["a"; "b"] ≤ length row)
                    Sample.matrix)
    by (repeat constructor).
  split; [exact Hrows|].
  apply (SALibSamples_collect (SALib.Problem {[ "names" := ["a"; "b"] ]})
           ["a"; "b"] Sample.matrix); [|exact Hrows].
  right. eexists. split; [reflexivity|]. reflexivity.
Defined.

Lemma extraction_stops_at_failure_witness :
  ∃ st1,
    ParseXML.run {| ParseXML.file := "out.xml";
                    ParseXML.fields := [("//v", "vs", Demo.conv_int)] |} Demo.start
    = (Ok tt, st1)
    ∧ ParseXML.run {| ParseXML.file := "out.xml";
                      ParseXML.fields := [("//v", "vs", Demo.conv_int)]
                                         ++ ("//w", "w", Sample.reject)
                                            :: [("//v", "later", Demo.conv_int)] |}
        Demo.start
      = (Raise ValueError, st1)
    ∧ is_Some (env st1 !! "vs")
    ∧ env st1 !! "later" = None.
Proof.
  exists (ParseXML.run {| ParseXML.file := "out.xml";
                          ParseXML.fields := [("//v", "vs", Demo.conv_int)] |}
            Demo.start).2.
  assert (Hrun : ParseXML.run {| ParseXML.file := "out.xml";
                                 ParseXML.fields := [("//v", "vs", Demo.conv_int)] |}
                   Demo.start
                 = (Ok tt,
                    (ParseXML.run {| ParseXML.file := "out.xml";
                                     ParseXML.fields := [("//v", "vs", Demo.conv_int)] |}
                       Demo.start).2))
    by (vm_compute; reflexivity).
  split; [exact Hrun|].
  split.
  - apply (proj1 (extraction_stops_at_failure "out.xml" Demo.start _
                    [("//v", "vs", Demo.conv_int)] [("//v", "later", Demo.conv_int)]
                    "//w" "w" Sample.reject ValueError) Hrun).
    intros content tree Hfile Htree.
    vm_compute in Hfile. injection Hfile as <-.
    vm_compute in Htree. injection Htree as <-.
    vm_compute. reflexivity.
  - split; [vm_compute; eexists; reflexivity|vm_compute; reflexivity].
Defined.

Lemma ParseCSV_raises_late_witness :
  ParseCSV.run (ParseCSV.get (Demo.query_text ("a", "b", "yes")) "ys" Sample.reject
                  (ParseCSV.init "out.csv" [])) Demo.start
  = (Raise ValueError, Demo.start)
  ∧ (Demo.start = Demo.start
     ∨ ∃ f rows l,
         files Demo.start !! "out.csv" = Some f
         ∧ csv_DictReader f [] = Ok rows
         ∧ ParseCSV.scan rows [(Demo.query_text ("a", "b", "yes"), "ys", Sample.reject)]
             {| ParseCSV.results := []; ParseCSV.conversion := None |} = Ok l
         ∧ for_each (ParseCSV.results l) (ParseCSV.collapse l) Demo.start
           = (Raise ValueError, Demo.start)).
Proof.
  assert (Hrun : ParseCSV.run
                   (ParseCSV.get (Demo.query_text ("a", "b", "yes")) "ys" Sample.reject
                      (ParseCSV.init "out.csv" [])) Demo.start
                 = (Raise ValueError, Demo.start)) by (vm_compute; reflexivity).
  split; [exact Hrun|].
  exact (ParseCSV_raises_late _ Demo.start Demo.start ValueError Hrun).
Defined.

Lemma channel_session_witness :
  env Demo.start !! "SOCKET" = None
  ∧ net_connect "localhost" 8000 = Ok ("ok" +:+ Demo.nl)
  ∧ ∃ st',
      (Connect.run Sample.connect;; Receive.run Receive.default;; Disconnect.run)
        Demo.start = (Ok tt, st')
      ∧ env st' !! "SOCKET" = None
      ∧ env st' !! "STDOUT" = Some (PStringIO 0)
      ∧ bufs st' !! 0 = Some {| buf := "ok" +:+ Demo.nl; pos := 0 |}
      ∧ socks st' !! 0
        = Some {| incoming := EmptyString; wr_shutdown := true; closed := true |}.
Proof.
  split; [reflexivity|]. split; [vm_compute; reflexivity|].
  destruct (channel_session Sample.connect Receive.default Demo.start
              "localhost" (PStr "8000") 8000 ("ok" +:+ Demo.nl) eq_refl)
    as (st' & Hrun & Hsock & Hout & Hbuf & Hsk);
    [vm_compute; reflexivity|vm_compute; reflexivity|vm_compute; reflexivity
    |vm_compute; reflexivity|].
  exists st'. split; [exact Hrun|]. split; [exact Hsock|]. split; [exact Hout|].
  split; [exact Hbuf|exact Hsk].
Defined.
